(** * casper-node-launcher: [node_util.py], the protocol staging engine

    A shallow embedding of the staging path of
    [resources/maintainer_scripts/node_util.py]: the status classifier
    [_check_staged_version], the fetch and extract pipeline
    [_pull_protocol_version], the external address vote [_get_external_ip],
    the config materializer [_config_from_example] and the orchestrator
    [stage_protocols]; and of the commands around it: [check_protocols]
    and [check_for_upgrade], which only look, [delete_local_state], and
    [check_permissions] and [fix_permissions] with the walk of the file
    locations.

    Modelling decisions, each repeated where it is used:
    - a Python [str] is a Rocq [string]; its characters are the code points
      below 256;
    - a path is the list of its component names from the root; the model has
      no symbolic links and gives a [..] component no meaning of its own;
    - a file holds either text or a gzip tar archive (a list of members,
      each a regular file or a directory);
    - a read in text mode translates the line ends (CR LF and CR come back
      as LF); a write leaves them as they are, as on the platform of the
      script;
    - the filesystem is a finite map from paths to nodes;
    - every method runs in a monad over the process state ([world]) whose
      outcomes are: a returned value, [exit(code)], or a raised exception;
    - what the process sends to the terminal and to the network is kept in
      the state (a list of printed messages, a list of requested URLs). *)

From Stdlib Require Import ZArith Ascii String List Lia Bool.
From stdpp Require Import base option list gmap strings.

Local Open Scope string_scope.
Local Open Scope list_scope.

(** ** Python [str] operations *)

Module PyStr.

(** [s[:n]] *)
Definition prefix_slice (n : nat) (s : string) : string := String.substring 0 n s.

(** [s.startswith(p)], used to find an occurrence of [p] at the head of [s]. *)
Fixpoint startswith (p s : string) : bool :=
  match p, s with
  | EmptyString, _ => true
  | String a p', String b s' => Ascii.eqb a b && startswith p' s'
  | String _ _, EmptyString => false
  end.

(** The characters [str.splitlines] breaks a line at, among the code points
    below 256: LF, VT, FF, CR, FS, GS, RS and NEL. *)
Definition is_linebreak (c : ascii) : bool :=
  match nat_of_ascii c with
  | 10 | 11 | 12 | 13 | 28 | 29 | 30 | 133 => true
  | _ => false
  end.

Definition is_cr (c : ascii) : bool := Nat.eqb (nat_of_ascii c) 13.
Definition is_lf (c : ascii) : bool := Nat.eqb (nat_of_ascii c) 10.

(** [str.splitlines()]: [after_cr] tells that the previous character was a
    CR that ended a line, so that a LF right after it belongs to the same
    line break; [cur] is the line read so far; a last line that is empty
    is not returned. *)
Fixpoint splitlines_go (after_cr : bool) (cur : string) (s : string) : list string :=
  match s with
  | EmptyString => match cur with EmptyString => [] | _ => [cur] end
  | String c s' =>
      if is_lf c && after_cr then splitlines_go false cur s'
      else if is_cr c then cur :: splitlines_go true EmptyString s'
      else if is_linebreak c then cur :: splitlines_go false EmptyString s'
      else splitlines_go false (cur ++ String c EmptyString) s'
  end.

Definition splitlines (s : string) : list string := splitlines_go false EmptyString s.

(** What a read in text mode makes of the characters of a file (universal
    newlines, the [newline=None] of [open]): CR LF and a CR alone come
    back as LF. [after_cr] tells that the previous character was a CR, so
    that a LF right after it belongs to the same line end. *)
Fixpoint universal_newlines_go (after_cr : bool) (s : string) : string :=
  match s with
  | EmptyString => EmptyString
  | String c s' =>
      if is_lf c && after_cr then universal_newlines_go false s'
      else if is_cr c then String (ascii_of_nat 10) (universal_newlines_go true s')
      else String c (universal_newlines_go false s')
  end.

Definition universal_newlines (s : string) : string := universal_newlines_go false s.

(** The characters [str.strip()] removes, among the code points below 256. *)
Definition is_space (c : ascii) : bool :=
  match nat_of_ascii c with
  | 9 | 10 | 11 | 12 | 13 | 28 | 29 | 30 | 31 | 32 | 133 | 160 => true
  | _ => false
  end.

Fixpoint lstrip (s : string) : string :=
  match s with
  | EmptyString => EmptyString
  | String c s' => if is_space c then lstrip s' else s
  end.

Fixpoint rstrip (s : string) : string :=
  match s with
  | EmptyString => EmptyString
  | String c s' =>
      match rstrip s' with
      | EmptyString => if is_space c then EmptyString else String c EmptyString
      | r => String c r
      end
  end.

(** [s.strip()] *)
Definition strip (s : string) : string := rstrip (lstrip s).

(** [s.split(sep)] for a separator that is not empty (Python raises
    [ValueError] on an empty one; every call of the script passes a
    literal). [skip] counts the characters of a separator just matched
    that are still to be dropped. *)
Fixpoint split_go (sep : string) (skip : nat) (cur : string) (s : string) : list string :=
  match s with
  | EmptyString => [cur]
  | String c s' =>
      match skip with
      | S k => split_go sep k cur s'
      | O =>
          if startswith sep s
          then cur :: split_go sep (String.length sep - 1) EmptyString s'
          else split_go sep 0 (cur ++ String c EmptyString) s'
      end
  end.

Definition split (s sep : string) : list string := split_go sep 0 EmptyString s.

(** [s.replace(old, new)] for [old] not empty: the occurrences of [old]
    are found from the left and do not overlap. *)
Fixpoint replace_go (old new : string) (skip : nat) (s : string) : string :=
  match s with
  | EmptyString => EmptyString
  | String c s' =>
      match skip with
      | S k => replace_go old new k s'
      | O =>
          if startswith old s
          then new ++ replace_go old new (String.length old - 1) s'
          else String c (replace_go old new 0 s')
      end
  end.

(** With [old] empty Python puts [new] before every character and at the
    end. *)
Fixpoint replace_empty (new : string) (s : string) : string :=
  match s with
  | EmptyString => new
  | String c s' => new ++ String c (replace_empty new s')
  end.

Definition replace (s old new : string) : string :=
  match old with
  | EmptyString => replace_empty new s
  | _ => replace_go old new 0 s
  end.

(** Truth value of a string: [if s:]. *)
Definition truthy (s : string) : bool :=
  match s with EmptyString => false | _ => true end.

End PyStr.

(** ** Paths

    A path is the list of its component names from the root [/]. *)

Abbreviation path := (list string).

Module PyPath.

(** The components of a path string: split at [/], an empty component and
    [.] dropped, as [pathlib] does when it parses a path and as the
    system does when it resolves one. *)
Definition parts (s : string) : list string :=
  List.filter (fun c => negb (String.eqb c "" || String.eqb c ".")) (PyStr.split s "/").

Definition is_absolute (s : string) : bool := PyStr.startswith "/" s.

(** [p / s] of [pathlib] and [os.path.join(p, s)]: an absolute right
    operand replaces the left one. *)
Definition joinpath (p : path) (s : string) : path :=
  if is_absolute s then parts s else p ++ parts s.

(** [p.parent], [os.path.dirname(p)] *)
Definition parent (p : path) : path := removelast p.

End PyPath.

Declare Scope path_scope.
Delimit Scope path_scope with path.
Notation "p / s" := (PyPath.joinpath p s) : path_scope.

(** ** Files, archives and the network *)

(** A member of a tar archive: a regular file with its data, or a
    directory. Symbolic links, hard links and devices are not modelled:
    the filesystem of the model has no links, and what is stated of an
    archive is stated of an archive of regular files and directories. *)
Inductive member :=
  | TarFile (name : string) (data : string)
  | TarDir (name : string).

Definition member_name (m : member) : string :=
  match m with TarFile n _ => n | TarDir n => n end.

(** What a file, or the body of an HTTP response, holds: text, or the
    bytes of a gzip tar archive with the given members. *)
Inductive content :=
  | Text (s : string)
  | Archive (ms : list member).

Inductive node :=
  | Dir
  | File (c : content).

#[global] Instance member_eq_dec : EqDecision member.
Proof. solve_decision. Defined.

#[global] Instance content_eq_dec : EqDecision content.
Proof. solve_decision. Defined.

#[global] Instance node_eq_dec : EqDecision node.
Proof. solve_decision. Defined.

(** The answer to one HTTP GET: a response with its status and body, or no
    response at all (urllib3 gives up and raises). *)
Inductive reply :=
  | Response (status : Z) (data : content)
  | NoResponse.

(** The node at a path; the root is always a directory. *)
Definition node_at (f : gmap (list string) node) (p : path) : option node :=
  match p with
  | [] => Some Dir
  | _ => f !! p
  end.

(** ** The process state and its outcomes *)

Inductive Status :=
  | UNSTAGED
  | NO_CONFIG
  | BIN_ONLY
  | CONFIG_ONLY
  | STAGED
  | WRONG_NETWORK.

#[global] Instance Status_eq_dec : EqDecision Status.
Proof. solve_decision. Defined.

(** The exceptions the modelled calls raise. *)
Inductive exn :=
  | IOError (url : string) (status : Z)
  | FileNotFoundError (p : path)
  | IsADirectoryError (p : path)
  | NotADirectoryError (p : path)
  | UnicodeDecodeError
  | ReadError (p : path)
  | MaxRetryError (url : string)
  | ValueError
  | IndexError
  | TypeError
  | RecursionError.

(** One constructor per [print] of the modelled methods, with the values
    its format string interpolates. *)
Inductive message :=
  | MsgMissingConfigValue (key : string) (file_path : path)
  | MsgRunAsCasper
  | MsgConfigNotParsed
  | MsgDownloading (url : string) (target_path : path)
  | MsgExtracting (source_file_path target_path : path)
  | MsgNoBinLocation
  | MsgNoConfigLocation
  | MsgBinModeFile (bin_file : string)
  | MsgConfigVersionExists (p : path)
  | MsgBinVersionExists (p : path)
  | MsgDeleting (p : path)
  | MsgQuerying
  | MsgServiceSays (service ip : string) (status : Z)
  | MsgExampleNotFound (p : path)
  | MsgDetectedIp (ip : option string)
  | MsgProvidedIp (ip : string)
  | MsgInvalidIp (ip : option string)
  | MsgPreviousExists (config_toml outfile config_example : path)
  | MsgReplaceHint (config_toml outfile : path)
  | MsgStatus (pv text : string)
  | MsgNotRecoverable (pv text : string)
  | MsgPulling (pv : string)
  | MsgCreating (pv : string)
  | MsgRunWithSudo
  | MsgVerifyDeleteAll
  | MsgOwnedBy (p : path) (owner group : string)
  | MsgPermissionsCorrect
  | MsgCorrectingOwnership (p : path)
  | MsgOwnershipSetFailed.

(** The instance attributes [__init__] sets to [None]. *)
Record NodeUtil := mkNodeUtil {
  _network_name : option string;
  _url : option string;
  _bin_mode : option string;
  _external_ip : option string
}.

Record world := mkWorld {
  self : NodeUtil;
  fs : gmap (list string) node;
  stdout : list message;
  requests : list string
}.

Definition set_fs (f : gmap (list string) node) (w : world) : world :=
  mkWorld (self w) f (stdout w) (requests w).

Definition set_self (s : NodeUtil) (w : world) : world :=
  mkWorld s (fs w) (stdout w) (requests w).

Inductive outcome (A : Type) :=
  | Ret (a : A) (w : world)
  | Exit (code : Z) (w : world)
  | Raise (e : exn) (w : world).

Arguments Ret {A} a w.
Arguments Exit {A} code w.
Arguments Raise {A} e w.

Definition M (A : Type) : Type := world -> outcome A.

Definition ret {A} (a : A) : M A := fun w => Ret a w.

Definition bind {A B} (m : M A) (k : A -> M B) : M B :=
  fun w =>
    match m w with
    | Ret a w' => k a w'
    | Exit c w' => Exit c w'
    | Raise e w' => Raise e w'
    end.

Declare Scope py_scope.
Delimit Scope py_scope with py.
Notation "x <- m ;; k" := (bind m (fun x => k))
  (at level 20, m at level 99, k at level 200, only parsing) : py_scope.
Notation "m ;; k" := (bind m (fun _ => k))
  (at level 100, k at level 200, only parsing, right associativity) : py_scope.
Local Open Scope py_scope.

Definition exit {A} (code : Z) : M A := fun w => Exit code w.
Definition raise {A} (e : exn) : M A := fun w => Raise e w.

(** The state after one more message on the terminal. *)
Definition add_out (m : message) (w : world) : world :=
  mkWorld (self w) (fs w) (stdout w ++ [m]) (requests w).

Definition print (m : message) : M unit := fun w => Ret tt (add_out m w).

(** The state after one more request to the network. *)
Definition add_request (url : string) (w : world) : world :=
  mkWorld (self w) (fs w) (stdout w) (requests w ++ [url]).

Definition get_self : M NodeUtil := fun w => Ret (self w) w.
Definition put_self (s : NodeUtil) : M unit := fun w => Ret tt (set_self s w).

(** The state a world ends in, whatever the outcome. *)
Definition final {A} (o : outcome A) : world :=
  match o with Ret _ w => w | Exit _ w => w | Raise _ w => w end.

Definition exit_code_of {A} (o : outcome A) : option Z :=
  match o with Exit c _ => Some c | _ => None end.

Definition raised {A} (o : outcome A) : option exn :=
  match o with Raise e _ => Some e | _ => None end.

Definition returned {A} (o : outcome A) : option A :=
  match o with Ret a _ => Some a | _ => None end.

(** ** Filesystem calls *)

(** [Path.exists()] *)
Definition path_exists (p : path) : M bool :=
  fun w => Ret (match node_at (fs w) p with Some _ => true | None => false end) w.

(** [Path.read_text()]: the file is opened in text mode, so the text
    comes back with its line ends translated. *)
Definition read_text (p : path) : M string :=
  fun w =>
    match node_at (fs w) p with
    | Some (File (Text s)) => Ret (PyStr.universal_newlines s) w
    | Some (File (Archive _)) => Raise UnicodeDecodeError w
    | Some Dir => Raise (IsADirectoryError p) w
    | None => Raise (FileNotFoundError p) w
    end.

(** [open(p, 'wb')] followed by one [write], and [Path.write_text]: the
    file is created or replaced; its directory has to be there. *)
Definition write_file (p : path) (c : content) : M unit :=
  fun w =>
    match node_at (fs w) p with
    | Some Dir => Raise (IsADirectoryError p) w
    | _ =>
        match node_at (fs w) (PyPath.parent p) with
        | Some Dir => Ret tt (set_fs (<[p := File c]> (fs w)) w)
        | Some (File _) => Raise (NotADirectoryError p) w
        | None => Raise (FileNotFoundError p) w
        end
    end.

(** [Path.unlink()] *)
Definition unlink (p : path) : M unit :=
  fun w =>
    match node_at (fs w) p with
    | Some (File _) => Ret tt (set_fs (delete p (fs w)) w)
    | Some Dir => Raise (IsADirectoryError p) w
    | None => Raise (FileNotFoundError p) w
    end.

(** [os.makedirs(done / rest)] where [done] is there already: the missing
    directories are created from the top down; a file in the way is an
    error. *)
Fixpoint makedirs_from (done : path) (rest : list string) : M unit :=
  match rest with
  | [] => ret tt
  | c :: rest' =>
      let q := done ++ [c] in
      (fun w =>
         match node_at (fs w) q with
         | Some Dir => Ret tt w
         | Some (File _) => Raise (NotADirectoryError q) w
         | None => Ret tt (set_fs (<[q := Dir]> (fs w)) w)
         end) ;;
      makedirs_from q rest'
  end.

Definition makedirs (p : path) : M unit := makedirs_from [] p.

(** [os.mkdir] as [tarfile] calls it for a directory member: a path that
    is there already is left as it is. *)
Definition mkdir_exist_ok (p : path) : M unit :=
  fun w =>
    match node_at (fs w) p with
    | Some _ => Ret tt w
    | None =>
        match node_at (fs w) (PyPath.parent p) with
        | Some Dir => Ret tt (set_fs (<[p := Dir]> (fs w)) w)
        | Some (File _) => Raise (NotADirectoryError p) w
        | None => Raise (FileNotFoundError p) w
        end
    end.

(** [tarfile.TarFile.open(p).getmembers()] *)
Definition tar_open (p : path) : M (list member) :=
  fun w =>
    match node_at (fs w) p with
    | Some (File (Archive ms)) => Ret ms w
    | Some (File (Text _)) => Raise (ReadError p) w
    | Some Dir => Raise (IsADirectoryError p) w
    | None => Raise (FileNotFoundError p) w
    end.

(** [tf.extract(member, target_path)] of the [tarfile] the script was
    written for (no extraction filter): the member goes to
    [os.path.join(target_path, member.name)], whose directory is created
    when missing. *)
Definition tar_extract (m : member) (target_path : path) : M unit :=
  let targetpath := (target_path / member_name m)%path in
  let upperdirs := PyPath.parent targetpath in
  there <- path_exists upperdirs ;;
  (if there then ret tt else makedirs upperdirs) ;;
  match m with
  | TarFile _ data => write_file targetpath (Text data)
  | TarDir _ => mkdir_exist_ok targetpath
  end.

(** [bytes.decode('utf-8')] *)
Definition decode (d : content) : M string :=
  match d with
  | Text s => ret s
  | Archive _ => raise UnicodeDecodeError
  end.

(** ** [class NodeUtil] *)

Definition CONFIG_PATH : path := PyPath.parts "/etc/casper".
Definition BIN_PATH : path := PyPath.parts "/var/lib/casper/bin".
Definition NET_CONFIG_PATH : path := (CONFIG_PATH / "network_configs")%path.
Definition PLATFORM_PATH : path := (CONFIG_PATH / "PLATFORM")%path.

(** How an attribute that may be [None] shows in a format string. *)
Definition fmt (o : option string) : string := default "None" o.

(** Truth value of an attribute that is [None] or a string. *)
Definition truthy_opt (o : option string) : bool :=
  match o with Some s => PyStr.truthy s | None => false end.

(** [_pull_protocol_version] and [_config_from_example] have no [return]
    statement: a call that comes back gives [None], and [not None] holds. *)
Definition not_None (r : unit) : bool := true.

(** [Counter(xs)]: the counts, in the order the values first appear. *)
Fixpoint counter_add (x : string) (c : list (string * nat)) : list (string * nat) :=
  match c with
  | [] => [(x, 1)]
  | (y, n) :: c' => if String.eqb x y then (y, S n) :: c' else (y, n) :: counter_add x c'
  end.

Definition Counter (xs : list string) : list (string * nat) :=
  fold_left (fun c x => counter_add x c) xs [].

(** [max(items, key=count)]: the first item of the largest count. *)
Fixpoint max_by_count (best : string * nat) (c : list (string * nat)) : string * nat :=
  match c with
  | [] => best
  | x :: c' => if (best.2 <? x.2)%nat then max_by_count x c' else max_by_count best c'
  end.

(** [c.most_common(1)] *)
Definition most_common_1 (c : list (string * nat)) : list (string * nat) :=
  match c with
  | [] => []
  | x :: c' => [max_by_count x c']
  end.

Definition _status_text (status : Status) : string :=
  match status with
  | UNSTAGED => "Protocol Unstaged"
  | NO_CONFIG => "No config.toml for Protocol"
  | BIN_ONLY => "Only bin is staged for Protocol, no config"
  | CONFIG_ONLY => "Only config is staged for Protocol, no bin"
  | WRONG_NETWORK => "chainspec.toml is for wrong network"
  | STAGED => "Protocol Staged"
  end.

Definition _get_platform : M string :=
  there <- path_exists PLATFORM_PATH ;;
  if there then text <- read_text PLATFORM_PATH ;; ret (PyStr.strip text)
  else ret "deb".

(** The loop of [_load_config_values] over the lines of the file;
    [key, value = ...] raises [ValueError] unless the split gives two
    parts. *)
Fixpoint load_config_lines (lines : list string) (config : gmap string string)
  : M (gmap string string) :=
  match lines with
  | [] => ret config
  | line :: rest =>
      if PyStr.truthy (PyStr.strip line)
      then match PyStr.split (PyStr.strip line) "=" with
           | [key; value] => load_config_lines rest (<[key := value]> config)
           | _ => raise ValueError
           end
      else load_config_lines rest config
  end.

Fixpoint load_config_expected (keys : list string) (file_path : path)
    (config : gmap string string) : M unit :=
  match keys with
  | [] => ret tt
  | key :: rest =>
      match config !! key with
      | None => print (MsgMissingConfigValue key file_path) ;; exit 1
      | Some _ => load_config_expected rest file_path config
      end
  end.

Definition _load_config_values (config : string) : M unit :=
  let source_url := "SOURCE_URL" in
  let network_name := "NETWORK_NAME" in
  let bin_mode := "BIN_MODE" in
  let file_path := (NET_CONFIG_PATH / config)%path in
  let expected_keys := [source_url; network_name] in
  text <- read_text file_path ;;
  config <- load_config_lines (PyStr.splitlines text) ∅ ;;
  load_config_expected expected_keys file_path config ;;
  s <- get_self ;;
  put_self (mkNodeUtil (config !! network_name) (config !! source_url)
              (Some (default "mainnet" (config !! bin_mode))) (_external_ip s)).

Definition _network_url : M string :=
  s <- get_self ;;
  ret ("http://" +:+ fmt (_url s) +:+ "/" +:+ fmt (_network_name s)).

(** [NAME_DATA] of [_chainspec_name] *)
Definition NAME_DATA : string := "name = '".

(** The loop of [_chainspec_name] over the lines of the chainspec; a
    loop that ends without [return] gives [None]. *)
Fixpoint chainspec_name_lines (lines : list string) : M (option string) :=
  match lines with
  | [] => ret None
  | line :: rest =>
      if String.eqb (PyStr.prefix_slice (String.length NAME_DATA) line) NAME_DATA
      then match PyStr.split line NAME_DATA !! 1%nat with
           | None => raise IndexError
           | Some after =>
               match PyStr.split after "'" !! 0%nat with
               | None => raise IndexError
               | Some name => ret (Some name)
               end
           end
      else chainspec_name_lines rest
  end.

Definition _chainspec_name (chainspec_path : path) : M (option string) :=
  text <- read_text chainspec_path ;;
  chainspec_name_lines (PyStr.splitlines text).

Definition _check_staged_version (version : string) : M Status :=
  s <- get_self ;;
  (if negb (truthy_opt (_network_name s))
   then print MsgConfigNotParsed ;; exit 1
   else ret tt) ;;
  let config_version_path := (CONFIG_PATH / version)%path in
  let chainspec_toml_file_path := (config_version_path / "chainspec.toml")%path in
  let config_toml_file_path := (config_version_path / "config.toml")%path in
  let bin_version_path := (BIN_PATH / version / "casper-node")%path in
  config_there <- path_exists config_version_path ;;
  if negb config_there then
    bin_there <- path_exists bin_version_path ;;
    if negb bin_there then ret UNSTAGED else ret BIN_ONLY
  else
    bin_there <- path_exists bin_version_path ;;
    if negb bin_there then ret CONFIG_ONLY else
    toml_there <- path_exists config_toml_file_path ;;
    if negb toml_there then ret NO_CONFIG else
    name <- _chainspec_name chainspec_toml_file_path ;;
    if negb (bool_decide (name = _network_name s)) then ret WRONG_NETWORK
    else ret STAGED.

(** The loop of [_extract_tar_gz] over [tf.getmembers()]. *)
Fixpoint extract_members (ms : list member) (target_path : path) : M unit :=
  match ms with
  | [] => ret tt
  | m :: rest => tar_extract m target_path ;; extract_members rest target_path
  end.

Definition _extract_tar_gz (source_file_path target_path : path) : M unit :=
  print (MsgExtracting source_file_path target_path) ;;
  ms <- tar_open source_file_path ;;
  extract_members ms target_path.

Section Process.

(** [getpass.getuser()] *)
Variable getuser : string.

(** The network: the answer to a GET of a URL, given the requests the
    process made before it. *)
Variable http : list string -> string -> reply.

(** Whether [ipaddress.ip_address(s)] accepts the string (it raises
    [ValueError] otherwise). *)
Variable ip_address : string -> bool.

(** [PoolManager.request('GET', url)] *)
Definition http_request (url : string) : M (Z * content) :=
  fun w =>
    match http (requests w) url with
    | Response status data => Ret (status, data) (add_request url w)
    | NoResponse => Raise (MaxRetryError url) (add_request url w)
    end.

Definition _get_protocols : M (list string) :=
  network_url <- _network_url ;;
  let full_url := network_url +:+ "/protocol_versions" in
  r <- http_request full_url ;;
  if negb (r.1 =? 200)%Z then raise (IOError full_url r.1) else
  pv <- decode r.2 ;;
  ret (map PyStr.strip (PyStr.splitlines pv)).

Definition _verify_casper_user : M unit :=
  if negb (String.eqb getuser "casper") then print MsgRunAsCasper ;; exit 1
  else ret tt.

Definition _download_file (url : string) (target_path : path) : M unit :=
  print (MsgDownloading url target_path) ;;
  r <- http_request url ;;
  if negb (r.1 =? 200)%Z then raise (IOError url r.1) else
  write_file target_path r.2.

Definition _pull_protocol_version (protocol_version platform : string) : M unit :=
  _verify_casper_user ;;
  bin_root <- path_exists BIN_PATH ;;
  (if negb bin_root then print MsgNoBinLocation ;; exit 1 else ret tt) ;;
  config_root <- path_exists CONFIG_PATH ;;
  (if negb config_root then print MsgNoConfigLocation ;; exit 1 else ret tt) ;;
  s <- get_self ;;
  let bin_file := "bin" in
  let bin_file := if negb (String.eqb platform "deb") then bin_file +:+ "_" +:+ platform else bin_file in
  let bin_file := if negb (bool_decide (_bin_mode s = Some "mainnet")) then bin_file +:+ "_new" else bin_file in
  let bin_file := bin_file +:+ ".tar.gz" in
  let config_file := "config.tar.gz" in
  print (MsgBinModeFile bin_file) ;;
  let etc_full_path := (CONFIG_PATH / protocol_version)%path in
  let bin_full_path := (BIN_PATH / protocol_version)%path in
  network_url <- _network_url ;;
  let base_url := network_url +:+ "/" +:+ protocol_version in
  let config_url := base_url +:+ "/" +:+ config_file in
  let bin_url := base_url +:+ "/" +:+ bin_file in
  etc_there <- path_exists etc_full_path ;;
  (if etc_there then print (MsgConfigVersionExists etc_full_path) ;; exit 1 else ret tt) ;;
  bin_there <- path_exists bin_full_path ;;
  (if bin_there then print (MsgBinVersionExists bin_full_path) ;; exit 1 else ret tt) ;;
  let config_archive_path := (CONFIG_PATH / config_file)%path in
  _download_file config_url config_archive_path ;;
  _extract_tar_gz config_archive_path etc_full_path ;;
  print (MsgDeleting config_archive_path) ;;
  unlink config_archive_path ;;
  let bin_archive_path := (BIN_PATH / bin_file)%path in
  _download_file bin_url bin_archive_path ;;
  _extract_tar_gz bin_archive_path bin_full_path ;;
  print (MsgDeleting bin_archive_path) ;;
  unlink bin_archive_path.

Definition _is_valid_ip (ip : option string) : bool :=
  match ip with
  | Some s => ip_address s
  | None => false
  end.

Definition services : list (string * string) :=
  [("https://checkip.amazonaws.com", "amazonaws.com");
   ("https://ifconfig.me", "ifconfig.me");
   ("https://ident.me", "ident.me")].

(** The loop of [_get_external_ip] over the services. *)
Fixpoint query_services (svcs : list (string * string)) (ips : list string) : M (list string) :=
  match svcs with
  | [] => ret ips
  | (url, service) :: rest =>
      r <- http_request url ;;
      ip <- (if negb (r.1 =? 200)%Z then ret "" else text <- decode r.2 ;; ret (PyStr.strip text)) ;;
      print (MsgServiceSays service ip r.1) ;;
      query_services rest (if PyStr.truthy ip then ips ++ [ip] else ips)
  end.

Definition _get_external_ip : M (option string) :=
  s <- get_self ;;
  if truthy_opt (_external_ip s) then ret (_external_ip s) else
  print MsgQuerying ;;
  ips <- query_services services [] ;;
  if negb (bool_decide (ips = [])) then
    match most_common_1 (Counter ips) !! 0%nat with
    | None => raise IndexError
    | Some (ip_addr, _) =>
        if _is_valid_ip (Some ip_addr) then
          s <- get_self ;;
          put_self (mkNodeUtil (_network_name s) (_url s) (_bin_mode s) (Some ip_addr)) ;;
          ret (Some ip_addr)
        else ret None
    end
  else ret None.

(** The placeholder of [config-example.toml]. *)
Definition IP_PLACEHOLDER : string := "<IP ADDRESS>".

Definition _config_from_example (protocol_version : string) (ip : option string) : M unit :=
  _verify_casper_user ;;
  let config_path := (CONFIG_PATH / protocol_version)%path in
  let config_toml_path := (config_path / "config.toml")%path in
  let config_example := (config_path / "config-example.toml")%path in
  let config_toml_new_path := (config_path / "config.toml.new")%path in
  example_there <- path_exists config_example ;;
  (if negb example_there then print (MsgExampleNotFound config_example) ;; exit 1 else ret tt) ;;
  ip <- match ip with
        | None => ip <- _get_external_ip ;; print (MsgDetectedIp ip) ;; ret ip
        | Some given => print (MsgProvidedIp given) ;; ret (Some given)
        end ;;
  (if negb (_is_valid_ip ip) then print (MsgInvalidIp ip) ;; exit 1 else ret tt) ;;
  toml_there <- path_exists config_toml_path ;;
  outfile <- (if toml_there
              then print (MsgPreviousExists config_toml_path config_toml_new_path config_example) ;;
                   print (MsgReplaceHint config_toml_path config_toml_new_path) ;;
                   ret config_toml_new_path
              else ret config_toml_path) ;;
  text <- read_text config_example ;;
  match ip with
  | Some ip => write_file outfile (Text (PyStr.replace text IP_PLACEHOLDER ip))
  | None => raise TypeError
  end.

(** The body of the loop of [stage_protocols] for one version; it gives
    the [exit_code] the next turn starts with. [args_ip] is
    [str(args.ip) if args.ip else None]. *)
Definition stage_protocols_body (platform : string) (args_ip : option string)
    (pv : string) (exit_code : Z) : M Z :=
  status <- _check_staged_version pv ;;
  if bool_decide (status = STAGED) then
    print (MsgStatus pv (_status_text status)) ;;
    ret exit_code
  else if bool_decide (status = BIN_ONLY \/ status = CONFIG_ONLY) then
    print (MsgNotRecoverable pv (_status_text status)) ;;
    ret 1%Z
  else
    exit_code <- (if bool_decide (status = UNSTAGED) then
                    print (MsgPulling pv) ;;
                    r <- _pull_protocol_version pv platform ;;
                    ret (if not_None r then 1%Z else exit_code)
                  else ret exit_code) ;;
    if bool_decide (status = UNSTAGED \/ status = NO_CONFIG) then
      print (MsgCreating pv) ;;
      let ip := args_ip in
      r <- _config_from_example pv ip ;;
      ret (if not_None r then 1%Z else exit_code)
    else ret exit_code.

Fixpoint stage_protocols_loop (platform : string) (args_ip : option string)
    (pvs : list string) (exit_code : Z) : M Z :=
  match pvs with
  | [] => ret exit_code
  | pv :: rest =>
      exit_code <- stage_protocols_body platform args_ip pv exit_code ;;
      stage_protocols_loop platform args_ip rest exit_code
  end.

(** [stage_protocols], from the parsed arguments on: [config] is
    [args.config]. *)
Definition stage_protocols (config : string) (args_ip : option string) : M unit :=
  _load_config_values config ;;
  _verify_casper_user ;;
  platform <- _get_platform ;;
  let exit_code := 0%Z in
  pvs <- _get_protocols ;;
  exit_code <- stage_protocols_loop platform args_ip pvs exit_code ;;
  exit exit_code.

End Process.

(** ** Definitions the statements use *)

(** Whether a path is there: the value [Path.exists()] gives. *)
Definition is_there (w : world) (p : path) : bool :=
  match node_at (fs w) p with Some _ => true | None => false end.

(** The precedence of the classifier as the spec lists it, first match
    first: [config_dir], [binary] and [config_toml] tell whether the
    config directory, the binary file and [config.toml] are there,
    [embedded] is the name read from the chainspec. *)
Definition classify (config_dir binary config_toml : bool)
    (embedded : option string) (network_name : string) : Status :=
  if negb config_dir then (if binary then BIN_ONLY else UNSTAGED)
  else if negb binary then CONFIG_ONLY
  else if negb config_toml then NO_CONFIG
  else if bool_decide (embedded = Some network_name) then STAGED
  else WRONG_NETWORK.

(** The value [_chainspec_name] cuts out of a line that starts with
    [name = ']: of the text between that prefix and its next occurrence
    (or the end of the line), what stands before the first quote. *)
Definition name_value (line : string) : string :=
  default "" (PyStr.split (default "" (PyStr.split line NAME_DATA !! 1%nat)) "'" !! 0%nat).

(** The chainspec's embedded name as the spec words it: the value of the
    first line with the literal prefix [name = '], none when no line has
    it. *)
Definition embedded_name (text : string) : option string :=
  name_value <$> List.find (PyStr.startswith NAME_DATA) (PyStr.splitlines text).

(** ** Concrete states the model is run on *)

Definition LF : string := String (ascii_of_nat 10) EmptyString.

(** The directories the package installs. *)
Definition installed_dirs : list (list string * node) :=
  [(["etc"], Dir); (["etc"; "casper"], Dir); (["etc"; "casper"; "network_configs"], Dir);
   (["var"], Dir); (["var"; "lib"], Dir); (["var"; "lib"; "casper"], Dir);
   (["var"; "lib"; "casper"; "bin"], Dir)].

(** A process whose network config names the network [casper]. *)
Definition casper_loaded : NodeUtil :=
  mkNodeUtil (Some "casper") (Some "genesis.casperlabs.io") (Some "mainnet") None.

Definition process (s : NodeUtil) (files : list (list string * node)) : world :=
  mkWorld s (list_to_map (installed_dirs ++ files)) [] [].

Definition chainspec_casper : string :=
  "[protocol]" +:+ LF +:+ "version = '1.0.0'" +:+ LF +:+ "[network]" +:+ LF +:+ "name = 'casper'" +:+ LF.

(** Version 1_0_0 with its config directory, its [config.toml] and its
    binary, and no [chainspec.toml]. *)
Definition world_no_chainspec : world :=
  process casper_loaded
    [(["etc"; "casper"; "1_0_0"], Dir);
     (["etc"; "casper"; "1_0_0"; "config.toml"], File (Text "public_address = '1.2.3.4:35000'"));
     (["var"; "lib"; "casper"; "bin"; "1_0_0"], Dir);
     (["var"; "lib"; "casper"; "bin"; "1_0_0"; "casper-node"], File (Text "ELF"))].

Definition CR : string := String (ascii_of_nat 13) EmptyString.

(** Version 1_0_0 fully staged for the network [casper]. *)
Definition world_staged : world :=
  process casper_loaded
    [(["etc"; "casper"; "1_0_0"], Dir);
     (["etc"; "casper"; "1_0_0"; "chainspec.toml"], File (Text chainspec_casper));
     (["etc"; "casper"; "1_0_0"; "config-example.toml"], File (Text "public_address = '<IP ADDRESS>:35000'"));
     (["etc"; "casper"; "1_0_0"; "config.toml"], File (Text "public_address = '1.2.3.4:35000'"));
     (["var"; "lib"; "casper"; "bin"; "1_0_0"], Dir);
     (["var"; "lib"; "casper"; "bin"; "1_0_0"; "casper-node"], File (Text "ELF"))].

(** The same host with a [config-example.toml] whose line ends in
    CR LF. *)
Definition world_staged_crlf : world :=
  process casper_loaded
    [(["etc"; "casper"; "1_0_0"], Dir);
     (["etc"; "casper"; "1_0_0"; "chainspec.toml"], File (Text chainspec_casper));
     (["etc"; "casper"; "1_0_0"; "config-example.toml"],
      File (Text ("public_address = '<IP ADDRESS>:35000'" +:+ CR +:+ LF)));
     (["etc"; "casper"; "1_0_0"; "config.toml"], File (Text "public_address = '1.2.3.4:35000'"));
     (["var"; "lib"; "casper"; "bin"; "1_0_0"], Dir);
     (["var"; "lib"; "casper"; "bin"; "1_0_0"; "casper-node"], File (Text "ELF"))].

(** What a run killed while it extracted the config archive of 1_4_5 can
    leave, once the operator has put the binary in place and written a
    [config.toml] by hand: the example config is there, the chainspec is
    not. *)
Definition world_interrupted : world :=
  process casper_loaded
    [(["etc"; "casper"; "1_4_5"], Dir);
     (["etc"; "casper"; "1_4_5"; "config-example.toml"], File (Text "public_address = '<IP ADDRESS>:35000'"));
     (["etc"; "casper"; "1_4_5"; "config.toml"], File (Text "public_address = '1.2.3.4:35000'"));
     (["var"; "lib"; "casper"; "bin"; "1_4_5"], Dir);
     (["var"; "lib"; "casper"; "bin"; "1_4_5"; "casper-node"], File (Text "ELF"))].

(** Version 1_0_0 with an empty binary directory left behind and nothing
    else: no config directory, no binary file. *)
Definition world_empty_bin_dir : world :=
  process casper_loaded [(["var"; "lib"; "casper"; "bin"; "1_0_0"], Dir)].

(** A network that answers no request. *)
Definition net_down (history : list string) (url : string) : reply := NoResponse.

(** Whether the character [c] occurs in [s]. *)
Fixpoint has_char (c : ascii) (s : string) : bool :=
  match s with
  | EmptyString => false
  | String d s' => Ascii.eqb c d || has_char c s'
  end.

(** The dotted-quad strings [ipaddress.ip_address] accepts (its IPv4
    half): four decimal octets of one to three digits, none above 255,
    none with a leading zero. It stands for [ip_address] where the model
    is run. *)
Definition is_digit (c : ascii) : bool :=
  (48 <=? nat_of_ascii c)%nat && (nat_of_ascii c <=? 57)%nat.

Fixpoint all_digits (s : string) : bool :=
  match s with
  | EmptyString => true
  | String c s' => is_digit c && all_digits s'
  end.

Fixpoint decimal_value (acc : nat) (s : string) : nat :=
  match s with
  | EmptyString => acc
  | String c s' => decimal_value (10 * acc + (nat_of_ascii c - 48)) s'
  end.

Definition ipv4_octet (s : string) : bool :=
  match s with
  | EmptyString => false
  | String c rest =>
      all_digits s && (String.length s <=? 3)%nat
      && negb (Ascii.eqb c "0" && negb (String.eqb rest ""))
      && (decimal_value 0 s <=? 255)%nat
  end.

Definition ipv4_literal (s : string) : bool :=
  match PyStr.split s "." with
  | [a; b; c; d] => ipv4_octet a && ipv4_octet b && ipv4_octet c && ipv4_octet d
  | _ => false
  end.

(** A network that answers by a table of URLs, and 404 elsewhere. *)
Fixpoint net_table (table : list (string * reply)) (history : list string) (url : string) : reply :=
  match table with
  | [] => Response 404 (Text "")
  | (u, r) :: table' => if String.eqb url u then r else net_table table' history url
  end.

(** A process right after [__init__], on a host with the package
    installed and the network config [casper.conf]. *)
Definition world_installed : world :=
  process (mkNodeUtil None None None None)
    [(["etc"; "casper"; "network_configs"; "casper.conf"],
      File (Text ("SOURCE_URL=genesis.casperlabs.io" +:+ LF +:+ "NETWORK_NAME=casper" +:+ LF)))].

Definition config_archive : content :=
  Archive [TarFile "chainspec.toml" chainspec_casper;
           TarFile "config-example.toml" "public_address = '<IP ADDRESS>:35000'"].

Definition bin_archive : content := Archive [TarFile "casper-node" "ELF"].

(** The server of the network [casper] with the single version 1_0_0. *)
Definition net_one_version : list string -> string -> reply :=
  net_table
    [("http://genesis.casperlabs.io/casper/protocol_versions", Response 200 (Text ("1_0_0" +:+ LF)));
     ("http://genesis.casperlabs.io/casper/1_0_0/config.tar.gz", Response 200 config_archive);
     ("http://genesis.casperlabs.io/casper/1_0_0/bin.tar.gz", Response 200 bin_archive)].

(** The server lists 1_0_0 and 1_0_1 and holds the archives of 1_0_1
    only. *)
Definition net_first_missing : list string -> string -> reply :=
  net_table
    [("http://genesis.casperlabs.io/casper/protocol_versions",
      Response 200 (Text ("1_0_0" +:+ LF +:+ "1_0_1" +:+ LF)));
     ("http://genesis.casperlabs.io/casper/1_0_1/config.tar.gz", Response 200 config_archive);
     ("http://genesis.casperlabs.io/casper/1_0_1/bin.tar.gz", Response 200 bin_archive)].

(** The host of [world_staged] before its config was loaded, with a
    chainspec of another network. *)
Definition world_other_network : world :=
  process (mkNodeUtil None None None None)
    [(["etc"; "casper"; "network_configs"; "casper.conf"],
      File (Text ("SOURCE_URL=genesis.casperlabs.io" +:+ LF +:+ "NETWORK_NAME=casper" +:+ LF)));
     (["etc"; "casper"; "1_0_0"], Dir);
     (["etc"; "casper"; "1_0_0"; "chainspec.toml"],
      File (Text ("[network]" +:+ LF +:+ "name = 'casper-test'" +:+ LF)));
     (["etc"; "casper"; "1_0_0"; "config.toml"], File (Text "public_address = '1.2.3.4:35000'"));
     (["var"; "lib"; "casper"; "bin"; "1_0_0"], Dir);
     (["var"; "lib"; "casper"; "bin"; "1_0_0"; "casper-node"], File (Text "ELF"))].

(** ** The vote on the external address, in words *)

(** How often [x] occurs in [xs]. *)
Definition count (x : string) (xs : list string) : nat :=
  length (List.filter (String.eqb x) xs).

(** No value of [xs] occurs more often than [a]. *)
Definition most_frequent (xs : list string) (a : string) : bool :=
  forallb (fun b => (count b xs <=? count a xs)%nat) xs.

(** The first value of [xs] that none outnumbers. *)
Definition plurality (xs : list string) : option string :=
  List.find (most_frequent xs) xs.

(** The vote: the plurality value when it is a valid address. *)
Definition vote (valid : string -> bool) (xs : list string) : option string :=
  match plurality xs with
  | Some a => if valid a then Some a else None
  | None => None
  end.

(** What one service contributes: its body, stripped, when the status is
    200, and the empty string otherwise. *)
Definition answer (r : Z * string) : string :=
  if (r.1 =? 200)%Z then PyStr.strip r.2 else "".

(** The answers that count: the ones that are not empty, in the order of
    the services. *)
Definition answers (rs : list (Z * string)) : list string :=
  List.filter PyStr.truthy (map answer rs).

(** The values of [xs] in the order of their first occurrence. *)
Fixpoint firsts (xs : list string) : list string :=
  match xs with
  | [] => []
  | x :: xs' => x :: List.filter (fun y => negb (String.eqb y x)) (firsts xs')
  end.

(** The three services answering (status, body) in turn. *)
Definition net_services (r1 r2 r3 : Z * string) : list string -> string -> reply :=
  net_table
    [("https://checkip.amazonaws.com", Response r1.1 (Text r1.2));
     ("https://ifconfig.me", Response r2.1 (Text r2.2));
     ("https://ident.me", Response r3.1 (Text r3.2))].

(** ** What a method leaves as it is *)

(** [m] relates every state it starts in to the state it ends in,
    whatever the outcome. *)
Definition preserves {A} (R : world -> world -> Prop) (m : M A) : Prop :=
  forall w, R w (final (m w)).

(** The addresses the run reported as detected, in order. *)
Definition detected_ip (m : message) : list (option string) :=
  match m with
  | MsgDetectedIp ip => [ip]
  | _ => []
  end.

Definition detected (out : list message) : list (option string) :=
  flat_map detected_ip out.

(** The cached address and the detected addresses reported so far are
    the same in both states. *)
Definition quiet (w w' : world) : Prop :=
  _external_ip (self w') = _external_ip (self w)
  /\ detected (stdout w') = detected (stdout w).

(** The state of the cache between two calls: every address reported as
    detected is the cached one, which is not the empty string; with
    nothing cached nothing was reported. *)
Definition cache_ok (w : world) : Prop :=
  match _external_ip (self w) with
  | Some a => PyStr.truthy a = true /\ Forall (eq (Some a)) (detected (stdout w))
  | None => detected (stdout w) = []
  end.

(** [m] keeps the cache in order when it returns, and when it does not,
    every address reported as detected is still the cached one. *)
Definition keeps_cache {A} (m : M A) : Prop :=
  forall w, cache_ok w ->
    match m w with
    | Ret _ w' => cache_ok w'
    | Exit _ w' | Raise _ w' =>
        Forall (eq (_external_ip (self w'))) (detected (stdout w'))
    end.

(** A server with the versions 1_0_0 and 1_0_1, and address services
    that answer 1.2.3.4 when first asked and 9.9.9.9 ever after. *)
Definition net_moving_address (history : list string) (url : string) : reply :=
  if existsb (String.eqb url)
       ["https://checkip.amazonaws.com"; "https://ifconfig.me"; "https://ident.me"]
  then Response 200 (Text (if existsb (String.eqb url) history then "9.9.9.9" else "1.2.3.4"))
  else
    net_table
      [("http://genesis.casperlabs.io/casper/protocol_versions",
        Response 200 (Text ("1_0_0" +:+ LF +:+ "1_0_1" +:+ LF)));
       ("http://genesis.casperlabs.io/casper/1_0_0/config.tar.gz", Response 200 config_archive);
       ("http://genesis.casperlabs.io/casper/1_0_0/bin.tar.gz", Response 200 bin_archive);
       ("http://genesis.casperlabs.io/casper/1_0_1/config.tar.gz", Response 200 config_archive);
       ("http://genesis.casperlabs.io/casper/1_0_1/bin.tar.gz", Response 200 bin_archive)]
      history url.

(** The attributes of the instance are the same in both states. *)
Definition same_self (w w' : world) : Prop := self w' = self w.

(** Every path that is there in the first state is there in the
    second. *)
Definition grows (w w' : world) : Prop :=
  forall p, is_there w p = true -> is_there w' p = true.

(** Outside [target] the second state differs from the first only by
    directories on the way to [target] that were missing and are now
    there. *)
Definition confined_to (target : path) (w w' : world) : Prop :=
  forall p, ~ target `prefix_of` p ->
    node_at (fs w') p = node_at (fs w) p
    \/ (p `prefix_of` target /\ node_at (fs w) p = None /\ node_at (fs w') p = Some Dir).

(** A filesystem as the system keeps it: every node sits in a
    directory. *)
Definition fs_closed (f : gmap (list string) node) : Prop :=
  map_Forall (fun p _ => node_at f (PyPath.parent p) = Some Dir) f.

#[global] Instance fs_closed_dec f : Decision (fs_closed f).
Proof. unfold fs_closed. apply _. Defined.

(** A name that stays below the directory it is joined to: not absolute,
    and without a [..] component (which the model does not resolve). *)
Definition stays_below (name : string) : bool :=
  negb (PyPath.is_absolute name)
  && forallb (fun c => negb (String.eqb c "..")) (PyPath.parts name).

(** [m] never ends in the [IOError] a download raises. *)
Definition never_ioerror {A} (m : M A) : Prop :=
  forall w, match m w with
            | Raise (IOError _ _) _ => False
            | _ => True
            end.

(** The name of the binary archive for a platform and the loaded mode,
    as [_pull_protocol_version] builds it. *)
Definition bin_file_for (platform : string) (s : NodeUtil) : string :=
  let bin_file := "bin" in
  let bin_file := if negb (String.eqb platform "deb") then bin_file +:+ "_" +:+ platform else bin_file in
  let bin_file := if negb (bool_decide (_bin_mode s = Some "mainnet")) then bin_file +:+ "_new" else bin_file in
  bin_file +:+ ".tar.gz".

(** The URL of an archive of a version. *)
Definition archive_url (s : NodeUtil) (protocol_version file : string) : string :=
  (("http://" +:+ fmt (_url s) +:+ "/" +:+ fmt (_network_name s)) +:+ "/" +:+ protocol_version)
  +:+ "/" +:+ file.

(** A host on which the config archive of 1_0_0 has just been
    downloaded. *)
Definition world_downloaded : world :=
  process casper_loaded [(["etc"; "casper"; "config.tar.gz"], File config_archive)].

(** The same with an archive that holds a member of absolute name. *)
Definition world_downloaded_hostile : world :=
  process casper_loaded
    [(["etc"; "casper"; "config.tar.gz"],
      File (Archive [TarFile "chainspec.toml" chainspec_casper;
                     TarFile "/etc/passwd" "root::0:0:root:/root:/bin/sh"]))].

(** A server that holds the config archive of 1_0_0 and not its binary
    archive. *)
Definition net_config_only : list string -> string -> reply :=
  net_table
    [("http://genesis.casperlabs.io/casper/1_0_0/config.tar.gz", Response 200 config_archive)].

(** A server whose config archive of 1_0_0 is a tar archive without
    members, and which has no binary archive. *)
Definition net_empty_config : list string -> string -> reply :=
  net_table
    [("http://genesis.casperlabs.io/casper/1_0_0/config.tar.gz", Response 200 (Archive []))].

(** ** The commands that only look *)

Section Commands.

Variable http : list string -> string -> reply.

(** The loop of [check_protocols] over the catalog. *)
Fixpoint check_protocols_loop (pvs : list string) (exit_code : Z) : M Z :=
  match pvs with
  | [] => ret exit_code
  | pv :: rest =>
      status <- _check_staged_version pv ;;
      let exit_code := if negb (bool_decide (status = STAGED)) then 1%Z else exit_code in
      print (MsgStatus pv (_status_text status)) ;;
      check_protocols_loop rest exit_code
  end.

(** [check_protocols], from the parsed arguments on: [config] is
    [args.config]. *)
Definition check_protocols (config : string) : M unit :=
  _load_config_values config ;;
  let exit_code := 0%Z in
  pvs <- _get_protocols http ;;
  exit_code <- check_protocols_loop pvs exit_code ;;
  exit exit_code.

(** [check_for_upgrade], from the parsed arguments on; [xs[-1]] raises
    [IndexError] on an empty list. *)
Definition check_for_upgrade (config : string) : M unit :=
  _load_config_values config ;;
  pvs <- _get_protocols http ;;
  last_protocol <- match last pvs with
                   | Some pv => ret pv
                   | None => raise IndexError
                   end ;;
  status <- _check_staged_version last_protocol ;;
  if bool_decide (status = UNSTAGED) then
    print (MsgStatus last_protocol (_status_text status)) ;;
    exit 1
  else exit 0.

End Commands.

(** The filesystem is the same in both states. *)
Definition same_fs (w w' : world) : Prop := fs w' = fs w.

(** Neither a file nor a request separates the two states. *)
Definition idle (w w' : world) : Prop :=
  fs w' = fs w /\ requests w' = requests w.

(** How often the character [c] occurs in [s]. *)
Fixpoint count_char (c : ascii) (s : string) : nat :=
  match s with
  | EmptyString => 0
  | String d s' => (if Ascii.eqb c d then 1 else 0) + count_char c s'
  end.

(** What stands before the first [c] of [s], and what stands after it. *)
Fixpoint before_char (c : ascii) (s : string) : string :=
  match s with
  | EmptyString => EmptyString
  | String d s' => if Ascii.eqb c d then EmptyString else String d (before_char c s')
  end.

Fixpoint after_char (c : ascii) (s : string) : string :=
  match s with
  | EmptyString => EmptyString
  | String d s' => if Ascii.eqb c d then s' else after_char c s'
  end.

(** A line of a network config the loader accepts: blank, or with
    exactly one [=]. *)
Definition config_line_ok (line : string) : bool :=
  negb (PyStr.truthy (PyStr.strip line)) || (count_char "=" (PyStr.strip line) =? 1)%nat.

(** What one line of a network config the loader accepts does to the
    values read so far: the key is what stands before the [=] of the
    stripped line, the value what stands after it; a blank line does
    nothing. *)
Definition config_assign (config : gmap string string) (line : string) : gmap string string :=
  if PyStr.truthy (PyStr.strip line)
  then <[before_char "=" (PyStr.strip line) := after_char "=" (PyStr.strip line)]> config
  else config.

(** The assignments of a network config, line by line: a later
    assignment of a key replaces an earlier one. *)
Definition config_assignments (lines : list string) : gmap string string :=
  fold_left config_assign lines ∅.

(** What [check_protocols] prints for versions of the given statuses. *)
Definition status_report (pvs : list string) (sts : list Status) : list message :=
  zip_with (fun pv st => MsgStatus pv (_status_text st)) pvs sts.

(** The state after a run has printed [out]. *)
Definition add_outs (out : list message) (w : world) : world :=
  mkWorld (self w) (fs w) (stdout w ++ out) (requests w).

(** The host of [world_installed] with version 1_0_0 staged. *)
Definition world_installed_staged : world :=
  process (mkNodeUtil None None None None)
    [(["etc"; "casper"; "network_configs"; "casper.conf"],
      File (Text ("SOURCE_URL=genesis.casperlabs.io" +:+ LF +:+ "NETWORK_NAME=casper" +:+ LF)));
     (["etc"; "casper"; "1_0_0"], Dir);
     (["etc"; "casper"; "1_0_0"; "chainspec.toml"], File (Text chainspec_casper));
     (["etc"; "casper"; "1_0_0"; "config.toml"], File (Text "public_address = '1.2.3.4:35000'"));
     (["var"; "lib"; "casper"; "bin"; "1_0_0"], Dir);
     (["var"; "lib"; "casper"; "bin"; "1_0_0"; "casper-node"], File (Text "ELF"))].

(** The URL of the catalog of the loaded network. *)
Definition protocol_versions_url (s : NodeUtil) : string :=
  ("http://" +:+ fmt (_url s) +:+ "/" +:+ fmt (_network_name s)) +:+ "/protocol_versions".

(** A server whose catalog of the network [casper] is empty. *)
Definition net_empty_catalog : list string -> string -> reply :=
  net_table [("http://genesis.casperlabs.io/casper/protocol_versions", Response 200 (Text ""))].

(** A chainspec with two lines that start with [name = ']. *)
Definition chainspec_two_names : string :=
  "[protocol]" +:+ LF +:+ "version = '1.0.0'" +:+ LF +:+ "[network]" +:+ LF
  +:+ "name = 'casper' # the network" +:+ LF +:+ "[highway]" +:+ LF +:+ "name = 'other'" +:+ LF.

Definition world_two_names : world :=
  process casper_loaded
    [(["etc"; "casper"; "1_0_0"], Dir);
     (["etc"; "casper"; "1_0_0"; "chainspec.toml"], File (Text chainspec_two_names))].

(** [m] ends in no other exit code than 1. *)
Definition exits_1 {A} (m : M A) : Prop :=
  forall w, match m w with
            | Exit c _ => c = 1%Z
            | _ => True
            end.

(** [m] leaves the files as they are unless it returns. *)
Definition writes_on_return {A} (m : M A) : Prop :=
  forall w, match m w with
            | Ret _ _ => True
            | Exit _ w' | Raise _ w' => fs w' = fs w
            end.

(** The attributes a network config sets are the same in both states. *)
Definition same_network (w w' : world) : Prop :=
  _network_name (self w') = _network_name (self w)
  /\ _url (self w') = _url (self w)
  /\ _bin_mode (self w') = _bin_mode (self w).

(** The file [_config_from_example] writes for a version. *)
Definition outfile_for (protocol_version : string) (w : world) : path :=
  if is_there w (CONFIG_PATH / protocol_version / "config.toml")%path
  then (CONFIG_PATH / protocol_version / "config.toml.new")%path
  else (CONFIG_PATH / protocol_version / "config.toml")%path.

(** Version 1_0_0 with everything but its [config.toml]. *)
Definition world_no_config : world :=
  process casper_loaded
    [(["etc"; "casper"; "1_0_0"], Dir);
     (["etc"; "casper"; "1_0_0"; "chainspec.toml"], File (Text chainspec_casper));
     (["etc"; "casper"; "1_0_0"; "config-example.toml"], File (Text "public_address = '<IP ADDRESS>:35000'"));
     (["var"; "lib"; "casper"; "bin"; "1_0_0"], Dir);
     (["var"; "lib"; "casper"; "bin"; "1_0_0"; "casper-node"], File (Text "ELF"))].

(** Two address services that agree, and a third that is down. *)
Definition net_third_down : list string -> string -> reply :=
  fun history url =>
    if String.eqb url "https://ident.me" then NoResponse
    else net_table
           [("https://checkip.amazonaws.com", Response 200 (Text "1.2.3.4"));
            ("https://ifconfig.me", Response 200 (Text "1.2.3.4"))] history url.

(** ** The commands of the administrator *)

Definition DB_PATH : path := PyPath.parts "/var/lib/casper/casper-node".

(** What is left of [k] below [p], when [k] is [p] or lies below it. *)
Fixpoint below (p k : path) : option path :=
  match p, k with
  | [], _ => Some k
  | a :: p', b :: k' => if String.eqb a b then below p' k' else None
  | _ :: _, [] => None
  end.

(** The name of [k] in the directory [p], when [k] is an entry of it. *)
Definition entry_name (p k : path) : option string :=
  match below p k with
  | Some [name] => Some name
  | _ => None
  end.

(** The names of the entries of a directory, in the order the map
    enumerates them. The order in which the system lists a directory is
    its own: the methods take it from [scandir] below, and the theorems
    ask of [scandir] only that it lists these names, in any order. *)
Definition children (f : gmap (list string) node) (p : path) : list string :=
  omap (fun kv => entry_name p kv.1) (map_to_list f).

(** [path.unlink()] inside [try: ... except FileNotFoundError: pass] *)
Definition unlink_missing_ok (p : path) : M unit :=
  fun w =>
    match unlink p w with
    | Raise (FileNotFoundError _) w' => Ret tt w'
    | o => o
    end.

(** The loop of [delete_local_state] over the paths of the glob. *)
Fixpoint delete_paths (ps : list path) : M unit :=
  match ps with
  | [] => ret tt
  | p :: rest => unlink_missing_ok p ;; delete_paths rest
  end.

Section Administrator.

(** [getpass.getuser()] *)
Variable getuser : string.

(** The names [os.scandir] lists for a directory of a filesystem. *)
Variable scandir : gmap (list string) node -> path -> list string.

Definition _verify_root_user : M unit :=
  if negb (String.eqb getuser "root") then print MsgRunWithSudo ;; exit 1
  else ret tt.

(** [p.glob('*')]: the entries of [p], every name matching; nothing when
    [p] is not a directory. The entries are listed when the loop
    starts. *)
Definition glob_star (p : path) : M (list path) :=
  fun w =>
    Ret (match node_at (fs w) p with
         | Some Dir => map (fun name => p ++ [name]) (scandir (fs w) p)
         | _ => []
         end) w.

(** [delete_local_state], from the parsed arguments on:
    [verify_delete_all] is [args.verify_delete_all]. The method has no
    [exit] at its end: it returns. *)
Definition delete_local_state (verify_delete_all : bool) : M unit :=
  _verify_root_user ;;
  (if negb verify_delete_all then print MsgVerifyDeleteAll ;; exit 1 else ret tt) ;;
  paths <- glob_star DB_PATH ;;
  delete_paths paths ;;
  let cnl_state := (CONFIG_PATH / "casper-node-launcher-state.toml")%path in
  unlink_missing_ok cnl_state.

End Administrator.

(** Whether [k] is an entry of the directory [p]. *)
Definition is_entry (p k : path) : bool :=
  match entry_name p k with Some _ => true | None => false end.

(** A host with a database of two files and the state file of the
    launcher. *)
Definition world_with_state : world :=
  process casper_loaded
    [(["var"; "lib"; "casper"; "casper-node"], Dir);
     (["var"; "lib"; "casper"; "casper-node"; "data.lmdb"], File (Text "db"));
     (["var"; "lib"; "casper"; "casper-node"; "data.lmdb-lock"], File (Text ""));
     (["etc"; "casper"; "casper-node-launcher-state.toml"], File (Text "mode = 'RunNodeAsValidator'"))].

(** The same with the database in a directory of its network. *)
Definition world_with_state_dir : world :=
  process casper_loaded
    [(["var"; "lib"; "casper"; "casper-node"], Dir);
     (["var"; "lib"; "casper"; "casper-node"; "casper"], Dir);
     (["var"; "lib"; "casper"; "casper-node"; "casper"; "data.lmdb"], File (Text "db"));
     (["etc"; "casper"; "casper-node-launcher-state.toml"], File (Text "mode = 'RunNodeAsValidator'"))].

(** Whether a directory is at the path: [Path.is_dir()]. *)
Definition is_dir_at (f : gmap (list string) node) (p : path) : bool :=
  match node_at f p with Some Dir => true | _ => false end.

(** ** Ownership

    Who owns a path, as [(path.owner(), path.group())] give it. The
    process state holds no ownership: the two commands that look at it
    are given it, and [fix_permissions] hands it on from one path to the
    next. *)
Definition ownership : Type := path -> string * string.

Definition _is_casper_owned (own : ownership) (p : path) : bool :=
  String.eqb (own p).1 "casper" && String.eqb (own p).2 "casper".

(** [Path.is_dir()] *)
Definition is_dir (p : path) : M bool := fun w => Ret (is_dir_at (fs w) p) w.

Section Permissions.

(** [getpass.getuser()] *)
Variable getuser : string.

(** The names [os.listdir] lists for a directory of a filesystem. *)
Variable scandir : gmap (list string) node -> path -> list string.

(** How deep the interpreter lets generators nest ([RecursionError]
    beyond). *)
Variable recursion_limit : nat.

(** What [shutil.chown(path, 'casper', 'casper')] makes of the
    ownership. *)
Variable chown : ownership -> path -> ownership.

(** [Path(p).iterdir()]: the entries of [p], listed when the loop
    starts. *)
Definition iterdir (p : path) : M (list path) :=
  fun w =>
    match node_at (fs w) p with
    | Some Dir => Ret (map (fun name => p ++ [name]) (scandir (fs w) p)) w
    | Some (File _) => Raise (NotADirectoryError p) w
    | None => Raise (FileNotFoundError p) w
    end.

(** A generator is modelled with its consumer: [body] is what the [for]
    loop that draws from the generator does with each path it is
    yielded, [acc] the variables it carries from one turn to the next. *)
Section Generators.

Context {S : Type}.
Variable body : path -> S -> M S.

(** The loop of [_walk_path] over the entries of a directory, [walk]
    being the recursive call; [p.resolve()] is [p], the model having no
    links. *)
Fixpoint walk_entries (walk : path -> S -> M S) (include_dir : bool)
    (ps : list path) (acc : S) : M S :=
  match ps with
  | [] => ret acc
  | p :: rest =>
      d <- is_dir p ;;
      acc <- (if d
              then acc <- (if include_dir then body p acc else ret acc) ;;
                   walk p acc
              else body p acc) ;;
      walk_entries walk include_dir rest acc
  end.

(** [_walk_path(path, include_dir)]; the recursive call passes no
    [include_dir], which is then [True]. *)
Fixpoint _walk_path (depth : nat) (path : path) (include_dir : bool) (acc : S) : M S :=
  match depth with
  | O => raise RecursionError
  | Datatypes.S depth' =>
      ps <- iterdir path ;;
      walk_entries (fun p acc => _walk_path depth' p true acc) include_dir ps acc
  end.

Definition _walk_file_locations (acc : S) : M S :=
  acc <- _walk_path recursion_limit BIN_PATH true acc ;;
  acc <- _walk_path recursion_limit CONFIG_PATH true acc ;;
  _walk_path recursion_limit DB_PATH true acc.

End Generators.

(** The body of the loop of [check_permissions]; [acc] is
    [exit_code]. *)
Definition check_permissions_body (own : ownership) (p : path) (exit_code : Z) : M Z :=
  if negb (_is_casper_owned own p)
  then print (MsgOwnedBy p (own p).1 (own p).2) ;; ret 1%Z
  else ret exit_code.

Definition check_permissions (own : ownership) : M unit :=
  let exit_code := 0%Z in
  exit_code <- _walk_file_locations (check_permissions_body own) exit_code ;;
  (if (exit_code =? 0)%Z then print MsgPermissionsCorrect else ret tt) ;;
  exit exit_code.

(** The body of the loop of [fix_permissions]; [acc] is [exit_code] and
    the ownership. *)
Definition fix_permissions_body (p : path) (acc : Z * ownership) : M (Z * ownership) :=
  let exit_code := acc.1 in
  let own := acc.2 in
  if negb (_is_casper_owned own p) then
    print (MsgCorrectingOwnership p) ;;
    let own := chown own p in
    if negb (_is_casper_owned own p)
    then print MsgOwnershipSetFailed ;; ret (1%Z, own)
    else ret (exit_code, own)
  else ret (exit_code, own).

(** [fix_permissions] up to its [exit]: the exit code, and the ownership
    the loop leaves. *)
Definition fix_permissions_walk (own : ownership) : M (Z * ownership) :=
  _verify_root_user getuser ;;
  let exit_code := 0%Z in
  _walk_file_locations fix_permissions_body (exit_code, own).

Definition fix_permissions (own : ownership) : M unit :=
  r <- fix_permissions_walk own ;;
  exit r.1.

End Permissions.

(** ** What the walk is about *)

(** Whether [k] lies below [p], [p] itself not counted. *)
Definition strictly_below (p k : path) : bool :=
  match below p k with
  | Some (_ :: _) => true
  | _ => false
  end.

(** The paths [check_permissions] and [fix_permissions] are about: what
    lies below the three locations. *)
Definition watched (k : path) : bool :=
  strictly_below BIN_PATH k || strictly_below CONFIG_PATH k || strictly_below DB_PATH k.

(** Every watched path of the filesystem is owned by [casper:casper]. *)
Definition all_casper_owned (own : ownership) (f : gmap (list string) node) : Prop :=
  map_Forall (fun k _ => watched k = true -> _is_casper_owned own k = true) f.

#[global] Instance all_casper_owned_dec own f : Decision (all_casper_owned own f).
Proof. unfold all_casper_owned. apply _. Defined.

(** No path of the filesystem at or below [p] is [depth] or more levels
    below [p]. *)
Definition fits (f : gmap (list string) node) (depth : nat) (p : path) : Prop :=
  map_Forall (fun k _ => p `prefix_of` k -> length k < length p + depth) f.

#[global] Instance fits_dec f depth p : Decision (fits f depth p).
Proof. unfold fits. apply _. Defined.

(** [scandir] lists every directory of the filesystem, in some order. *)
Definition lists_entries (scandir : gmap (list string) node -> path -> list string)
    (f : gmap (list string) node) : Prop :=
  forall p, scandir f p ≡ₚ children f p.

(** The paths a walk from [p] yields, in its order. *)
Fixpoint walk_list (scandir : gmap (list string) node -> path -> list string)
    (f : gmap (list string) node) (depth : nat) (p : path) : list path :=
  match depth with
  | O => []
  | Datatypes.S depth' =>
      flat_map (fun name =>
                  let c := p ++ [name] in
                  if is_dir_at f c then c :: walk_list scandir f depth' c else [c])
               (scandir f p)
  end.

(** A plain loop over paths. *)
Fixpoint for_each {S : Type} (body : path -> S -> M S) (ps : list path) (acc : S) : M S :=
  match ps with
  | [] => ret acc
  | p :: rest => acc <- body p acc ;; for_each body rest acc
  end.

(** [chown] does what it is asked: the path is owned by
    [casper:casper] afterwards, and no other path changes hands. *)
Definition chown_works (chown : ownership -> path -> ownership) : Prop :=
  forall own p,
    chown own p p = ("casper", "casper")
    /\ forall q, q <> p -> chown own p q = own q.

(** The [chown] of a system that lets [root] do it. *)
Definition chown_casper (own : ownership) (p : path) : ownership :=
  fun q => if bool_decide (q = p) then ("casper", "casper") else own q.

(** Everything belongs to [root]. *)
Definition owned_by_root : ownership := fun _ => ("root", "root").

(** Everything belongs to [casper]. *)
Definition owned_by_casper : ownership := fun _ => ("casper", "casper").

(** A host with a staged version and a database. *)
Definition world_running : world :=
  process casper_loaded
    [(["etc"; "casper"; "1_0_0"], Dir);
     (["etc"; "casper"; "1_0_0"; "chainspec.toml"], File (Text chainspec_casper));
     (["etc"; "casper"; "1_0_0"; "config.toml"], File (Text "public_address = '1.2.3.4:35000'"));
     (["var"; "lib"; "casper"; "bin"; "1_0_0"], Dir);
     (["var"; "lib"; "casper"; "bin"; "1_0_0"; "casper-node"], File (Text "ELF"));
     (["var"; "lib"; "casper"; "casper-node"], Dir);
     (["var"; "lib"; "casper"; "casper-node"; "data.lmdb"], File (Text "db"))].

(** A loop body that always comes back and leaves the files alone. *)
Definition steady {S : Type} (body : path -> S -> M S) : Prop :=
  forall p acc w, exists acc' w', body p acc w = Ret acc' w' /\ fs w' = fs w.

(** ** Archives of plain files *)

(** A name of one component: joined to a directory it names an entry of
    that directory. *)
Definition simple_name (name : string) : bool :=
  negb (PyPath.is_absolute name) && bool_decide (PyPath.parts name = [name]).

(** The members of an archive of regular files, given as names and
    data. *)
Definition tar_files (files : list (string * string)) : list member :=
  map (fun nd => TarFile nd.1 nd.2) files.

(** The filesystem with the files written into the directory [target],
    one after the other. *)
Definition with_files (target : path) (files : list (string * string))
    (f : gmap (list string) node) : gmap (list string) node :=
  fold_left (fun f nd => <[target ++ [nd.1] := File (Text nd.2)]> f) files f.

(** The state after an archive of regular files was fetched from [url]
    by way of the temporary file [archive] and extracted into the new
    directory [target]. *)
Definition fetched (url : string) (archive target : path) (files : list (string * string))
    (w : world) : world :=
  mkWorld (self w)
    (delete archive
       (with_files target files
          (<[target := Dir]> (<[archive := File (Archive (tar_files files))]> (fs w)))))
    (stdout w ++ [MsgDownloading url archive; MsgExtracting archive target; MsgDeleting archive])
    (requests w ++ [url]).

(** The state after [_pull_protocol_version] fetched the config archive
    of the files [cfg] and the binary archive of the files [bin]. *)
Definition pulled (pv platform : string) (cfg bin : list (string * string)) (w : world) : world :=
  fetched (archive_url (self w) pv (bin_file_for platform (self w)))
    (BIN_PATH ++ [bin_file_for platform (self w)]) (BIN_PATH ++ [pv]) bin
    (fetched (archive_url (self w) pv "config.tar.gz")
       (CONFIG_PATH ++ ["config.tar.gz"]) (CONFIG_PATH ++ [pv]) cfg
       (add_out (MsgBinModeFile (bin_file_for platform (self w))) w)).

(** The files of the archives of [net_one_version]. *)
Definition config_files : list (string * string) :=
  [("chainspec.toml", chainspec_casper);
   ("config-example.toml", "public_address = '<IP ADDRESS>:35000'")].

Definition bin_files : list (string * string) := [("casper-node", "ELF")].

Section Fetchable.

Variable getuser : string.
Variable http : list string -> string -> reply.

(** The conditions of a fetch that goes through: the user is [casper],
    the two root directories are there, the version is in neither and its
    name is one path component that is not the name of a temporary
    archive, no directory sits where the temporary archives go, and the
    server answers both requests with archives of regular files of simple
    names. *)
Record fetchable (pv platform : string) (cfg bin : list (string * string)) (w : world) : Prop :=
  { fetch_user : getuser = "casper";
    fetch_closed : fs_closed (fs w);
    fetch_bin_root : node_at (fs w) BIN_PATH = Some Dir;
    fetch_config_root : node_at (fs w) CONFIG_PATH = Some Dir;
    fetch_version : simple_name pv = true;
    fetch_bin_file : simple_name (bin_file_for platform (self w)) = true;
    fetch_not_config_archive : pv <> "config.tar.gz";
    fetch_not_bin_archive : pv <> bin_file_for platform (self w);
    fetch_no_config : node_at (fs w) (CONFIG_PATH ++ [pv]) = None;
    fetch_no_bin : node_at (fs w) (BIN_PATH ++ [pv]) = None;
    fetch_config_archive : node_at (fs w) (CONFIG_PATH ++ ["config.tar.gz"]) <> Some Dir;
    fetch_bin_archive :
      node_at (fs w) (BIN_PATH ++ [bin_file_for platform (self w)]) <> Some Dir;
    fetch_config_reply :
      http (requests w) (archive_url (self w) pv "config.tar.gz")
      = Response 200 (Archive (tar_files cfg));
    fetch_bin_reply :
      http (requests w ++ [archive_url (self w) pv "config.tar.gz"])
        (archive_url (self w) pv (bin_file_for platform (self w)))
      = Response 200 (Archive (tar_files bin));
    fetch_config_files : cfg <> [];
    fetch_bin_files : bin <> [];
    fetch_config_names : Forall (fun nd => simple_name nd.1 = true) cfg;
    fetch_bin_names : Forall (fun nd => simple_name nd.1 = true) bin }.

End Fetchable.

(** * Theorems *)

(** ** The operations on strings and paths, run *)

Example splitlines_ex :
  PyStr.splitlines ("a" ++ String (ascii_of_nat 13) (String (ascii_of_nat 10) "b") ++ String (ascii_of_nat 10) "")
  = ["a"; "b"].
Proof. reflexivity. Qed.

Example split_ex : PyStr.split "name = 'casper'" "name = '" = [""; "casper'"].
Proof. reflexivity. Qed.

Example replace_ex :
  PyStr.replace "a = '<IP ADDRESS>:1' b = '<IP ADDRESS>'" "<IP ADDRESS>" "1.2.3.4"
  = "a = '1.2.3.4:1' b = '1.2.3.4'".
Proof. reflexivity. Qed.

Example strip_ex : PyStr.strip "  1_0_0 " = "1_0_0".
Proof. reflexivity. Qed.

Example joinpath_version : (["etc"; "casper"] / "1_0_0" / "config.toml")%path = ["etc"; "casper"; "1_0_0"; "config.toml"].
Proof. reflexivity. Qed.

Example joinpath_absolute : (["etc"; "casper"] / "/tmp/x")%path = ["tmp"; "x"].
Proof. reflexivity. Qed.

(** *** Appending, and the tests and splits of a string *)

Lemma append_cons (c : ascii) (p s : string) :
  (String c p ++ s)%string = String c (p ++ s).
Proof. reflexivity. Qed.

Lemma append_nil (s : string) : (EmptyString ++ s)%string = s.
Proof. reflexivity. Qed.

Lemma startswith_app (p s : string) : PyStr.startswith p (p ++ s) = true.
Proof.
  induction p as [|c p IH]; [reflexivity|].
  rewrite append_cons. cbn [PyStr.startswith]. now rewrite Ascii.eqb_refl, IH.
Qed.

Lemma append_empty_r (s : string) : (s ++ "")%string = s.
Proof. induction s as [|c s IH]; [reflexivity|]. now rewrite append_cons, IH. Qed.

Lemma append_assoc (a b c : string) : (a ++ (b ++ c))%string = ((a ++ b) ++ c)%string.
Proof. induction a as [|x a IH]; [reflexivity|]. now rewrite !append_cons, IH. Qed.

Lemma prefix_slice_startswith (p s : string) :
  String.eqb (PyStr.prefix_slice (String.length p) s) p = PyStr.startswith p s.
Proof.
  unfold PyStr.prefix_slice. revert s. induction p as [|a p IH]; intros s.
  - destruct s; reflexivity.
  - destruct s as [|b s]; [reflexivity|].
    cbn [String.length substring PyStr.startswith String.eqb].
    rewrite IH. rewrite (Ascii.eqb_sym b a). reflexivity.
Qed.

Lemma split_go_cons (sep : string) (k : nat) (cur s : string) :
  exists x rest, PyStr.split_go sep k cur s = x :: rest.
Proof.
  revert k cur. induction s as [|c s IH]; intros k cur; cbn [PyStr.split_go]; [eauto|].
  destruct k; [|apply IH].
  destruct (PyStr.startswith sep (String c s)); [eauto | apply IH].
Qed.

(** A line that starts with the separator splits into an empty first part
    and at least one more. *)
Lemma split_startswith (sep s : string) :
  sep <> "" -> PyStr.startswith sep s = true ->
  exists x rest, PyStr.split s sep = "" :: x :: rest.
Proof.
  intros Hsep H. unfold PyStr.split.
  destruct s as [|c s]; [destruct sep; [contradiction | discriminate]|].
  cbn [PyStr.split_go]. rewrite H.
  destruct (split_go_cons sep (String.length sep - 1) "" s) as (x & rest & ->). eauto.
Qed.

Lemma split_go_skip (sep t cur s : string) :
  PyStr.split_go sep (String.length t) cur (t ++ s) = PyStr.split_go sep 0 cur s.
Proof.
  induction t as [|c t IH]; [reflexivity|].
  rewrite append_cons. cbn [String.length PyStr.split_go]. exact IH.
Qed.

(** The first part a split gives starts with what was read so far. *)
Lemma split_go_head (sep : string) (k : nat) (cur s : string) :
  exists p rest, PyStr.split_go sep k cur s = (cur ++ p)%string :: rest.
Proof.
  revert k cur. induction s as [|c s IH]; intros k cur; cbn [PyStr.split_go].
  - exists "", []. now rewrite append_empty_r.
  - destruct k as [|k].
    + destruct (PyStr.startswith sep (String c s)).
      * eexists "", _. now rewrite append_empty_r.
      * destruct (IH 0%nat (cur ++ String c "")%string) as (p & rest & ->).
        exists (String c p), rest. rewrite <- append_assoc. reflexivity.
    + destruct (IH k cur) as (p & rest & ->). eauto.
Qed.

Lemma has_char_cons (c d : ascii) (s : string) :
  has_char c (String d s) = false -> Ascii.eqb c d = false /\ has_char c s = false.
Proof. cbn [has_char]. apply orb_false_elim. Qed.

(** ** Stepping through the monad *)

Lemma bind_ret {A B} (m : M A) (k : A -> M B) w a w' :
  m w = Ret a w' -> bind m k w = k a w'.
Proof. intros H. unfold bind. now rewrite H. Qed.

Lemma bind_exit {A B} (m : M A) (k : A -> M B) w c w' :
  m w = Exit c w' -> bind m k w = Exit c w'.
Proof. intros H. unfold bind. now rewrite H. Qed.

Lemma bind_raise {A B} (m : M A) (k : A -> M B) w e w' :
  m w = Raise e w' -> bind m k w = Raise e w'.
Proof. intros H. unfold bind. now rewrite H. Qed.

Lemma bind_inv_ret {A B} (m : M A) (k : A -> M B) w b w' :
  bind m k w = Ret b w' -> exists a w1, m w = Ret a w1 /\ k a w1 = Ret b w'.
Proof. unfold bind. destruct (m w) as [a w1| |]; [eauto | discriminate | discriminate]. Qed.


Lemma path_exists_eq p w : path_exists p w = Ret (is_there w p) w.
Proof. reflexivity. Qed.

Lemma bind_path_exists {B} p (k : bool -> M B) w :
  bind (path_exists p) k w = k (is_there w p) w.
Proof. reflexivity. Qed.

Lemma bind_get_self {B} (k : NodeUtil -> M B) w : bind get_self k w = k (self w) w.
Proof. reflexivity. Qed.

Lemma bind_print {B} m (k : unit -> M B) w : bind (print m) k w = k tt (add_out m w).
Proof. reflexivity. Qed.

Lemma bind_ret_l {A B} (a : A) (k : A -> M B) w : bind (ret a) k w = k a w.
Proof. reflexivity. Qed.

Lemma bind_assoc {A B C} (m : M A) (k : A -> M B) (h : B -> M C) w :
  bind (bind m k) h w = bind m (fun a => bind (k a) h) w.
Proof. unfold bind. now destruct (m w). Qed.

(** [if b: print(m); exit(c)] in front of the rest of a method. *)
Lemma bind_guard {B} (b : bool) m c (k : unit -> M B) w :
  bind (if b then bind (print m) (fun _ => exit c) else ret tt) k w
  = if b then Exit c (add_out m w) else k tt w.
Proof. now destruct b. Qed.

Lemma is_there_add_out m w p : is_there (add_out m w) p = is_there w p.
Proof. reflexivity. Qed.

Lemma truthy_opt_Some n : n <> "" -> truthy_opt (Some n) = true.
Proof. destruct n; [congruence | reflexivity]. Qed.

(** ** The status classifier *)

(** *** Reading the name from the chainspec *)

Lemma read_text_Text (p : path) (w : world) (text : string) :
  node_at (fs w) p = Some (File (Text text)) ->
  read_text p w = Ret (PyStr.universal_newlines text) w.
Proof. intros H. unfold read_text. now rewrite H. Qed.

(** The lines of a text are the same before and after the translation of
    its line ends: [str.splitlines] breaks at CR LF, CR and LF alike. *)
Lemma splitlines_go_universal_newlines (after_cr : bool) (cur s : string) :
  PyStr.splitlines_go false cur (PyStr.universal_newlines_go after_cr s)
  = PyStr.splitlines_go after_cr cur s.
Proof.
  revert after_cr cur. induction s as [|c s IH]; intros after_cr cur; [reflexivity|].
  cbn [PyStr.universal_newlines_go PyStr.splitlines_go].
  destruct (PyStr.is_lf c) eqn:Hlf; cbn [andb].
  - assert (Hcr : PyStr.is_cr c = false).
    { unfold PyStr.is_lf, PyStr.is_cr in *. apply Nat.eqb_eq in Hlf. now rewrite Hlf. }
    assert (Hlb : PyStr.is_linebreak c = true).
    { unfold PyStr.is_lf, PyStr.is_linebreak in *. apply Nat.eqb_eq in Hlf. now rewrite Hlf. }
    destruct after_cr.
    + apply IH.
    + rewrite Hcr. cbn [PyStr.splitlines_go]. rewrite Hlf, Hcr, Hlb. cbn [andb].
      now rewrite IH.
  - destruct (PyStr.is_cr c) eqn:Hcr.
    + cbn [PyStr.splitlines_go].
      change (PyStr.is_lf (ascii_of_nat 10)) with true.
      change (PyStr.is_cr (ascii_of_nat 10)) with false.
      change (PyStr.is_linebreak (ascii_of_nat 10)) with true.
      cbn [andb]. now rewrite IH.
    + cbn [PyStr.splitlines_go]. rewrite Hlf, Hcr. cbn [andb].
      destruct (PyStr.is_linebreak c); now rewrite IH.
Qed.

Lemma splitlines_universal_newlines (s : string) :
  PyStr.splitlines (PyStr.universal_newlines s) = PyStr.splitlines s.
Proof. apply splitlines_go_universal_newlines. Qed.

(** A text without CR is read as it is. *)
Lemma universal_newlines_go_no_cr (s : string) :
  has_char (ascii_of_nat 13) s = false -> PyStr.universal_newlines_go false s = s.
Proof.
  induction s as [|c s IH]; intros H; [reflexivity|].
  apply has_char_cons in H as [Hc H].
  cbn [PyStr.universal_newlines_go]. rewrite andb_false_r.
  assert (Hcr : PyStr.is_cr c = false).
  { unfold PyStr.is_cr. apply Nat.eqb_neq. intros E. apply Ascii.eqb_neq in Hc. apply Hc.
    now rewrite <- (ascii_nat_embedding c), E. }
  now rewrite Hcr, IH.
Qed.

Lemma universal_newlines_no_cr (s : string) :
  has_char (ascii_of_nat 13) s = false -> PyStr.universal_newlines s = s.
Proof. apply universal_newlines_go_no_cr. Qed.

Lemma universal_newlines_go_copy (s rest : string) :
  has_char (ascii_of_nat 13) s = false ->
  PyStr.universal_newlines_go false (s ++ rest)
  = (s ++ PyStr.universal_newlines_go false rest)%string.
Proof.
  induction s as [|c s IH]; intros H; [reflexivity|].
  apply has_char_cons in H as [Hc H].
  rewrite !append_cons. cbn [PyStr.universal_newlines_go]. rewrite andb_false_r.
  assert (Hcr : PyStr.is_cr c = false).
  { unfold PyStr.is_cr. apply Nat.eqb_neq. intros E. apply Ascii.eqb_neq in Hc. apply Hc.
    now rewrite <- (ascii_nat_embedding c), E. }
  now rewrite Hcr, IH.
Qed.

Lemma universal_newlines_go_after_cr (s : string) :
  PyStr.startswith LF s = false ->
  PyStr.universal_newlines_go true s = PyStr.universal_newlines_go false s.
Proof.
  destruct s as [|c s]; [reflexivity|]. cbn [PyStr.startswith LF]. rewrite andb_true_r.
  intros H. cbn [PyStr.universal_newlines_go].
  assert (Hlf : PyStr.is_lf c = false).
  { unfold PyStr.is_lf. apply Nat.eqb_neq. intros E. apply Ascii.eqb_neq in H. apply H.
    now rewrite <- (ascii_nat_embedding c), E. }
  now rewrite Hlf.
Qed.

Lemma startswith_LF_concat_CR (lines : list string) :
  Forall (fun l => PyStr.startswith LF l = false) lines ->
  PyStr.startswith LF (String.concat CR lines) = false.
Proof.
  destruct 1 as [|l lines Hl Hrest]; [reflexivity|].
  destruct lines as [|l' lines]; [exact Hl|].
  change (String.concat CR (l :: l' :: lines))
    with (l ++ CR ++ String.concat CR (l' :: lines))%string.
  destruct l as [|c l]; [reflexivity|]. exact Hl.
Qed.

(** What the translation of the line ends does: lines without CR that
    are joined by CR LF, or by CR (none of them starting with LF then),
    come back joined by LF. *)
Lemma universal_newlines_lines (sep : string) (lines : list string) :
  sep = (CR ++ LF)%string
  \/ (sep = CR /\ Forall (fun l => PyStr.startswith LF l = false) lines) ->
  Forall (fun l => has_char (ascii_of_nat 13) l = false) lines ->
  PyStr.universal_newlines (String.concat sep lines) = String.concat LF lines.
Proof.
  unfold PyStr.universal_newlines. intros Hsep Hcr.
  induction Hcr as [|l lines Hl Hrest IH]; [reflexivity|].
  destruct lines as [|l' lines]; [now apply universal_newlines_go_no_cr|].
  change (String.concat sep (l :: l' :: lines))
    with (l ++ sep ++ String.concat sep (l' :: lines))%string.
  change (String.concat LF (l :: l' :: lines))
    with (l ++ LF ++ String.concat LF (l' :: lines))%string.
  rewrite universal_newlines_go_copy by exact Hl. f_equal.
  destruct Hsep as [-> | [-> Hlf]].
  - change ((CR ++ LF) ++ ?r)%string
      with (String (ascii_of_nat 13) (String (ascii_of_nat 10) r)).
    change (LF ++ ?r)%string with (String (ascii_of_nat 10) r).
    cbn [PyStr.universal_newlines_go].
    change (PyStr.is_lf (ascii_of_nat 13)) with false.
    change (PyStr.is_cr (ascii_of_nat 13)) with true.
    change (PyStr.is_lf (ascii_of_nat 10)) with true.
    cbn [andb]. f_equal. apply IH. now left.
  - apply Forall_cons in Hlf as [_ Hlf].
    change (CR ++ ?r)%string with (String (ascii_of_nat 13) r).
    change (LF ++ ?r)%string with (String (ascii_of_nat 10) r).
    cbn [PyStr.universal_newlines_go].
    change (PyStr.is_lf (ascii_of_nat 13)) with false.
    change (PyStr.is_cr (ascii_of_nat 13)) with true.
    cbn [andb]. f_equal.
    rewrite universal_newlines_go_after_cr by now apply startswith_LF_concat_CR.
    apply IH. right. now split.
Qed.

(** The loop of [_chainspec_name] raises nothing: it returns the value of
    the first line that starts with [name = '], or none. *)
Lemma chainspec_name_lines_eq (lines : list string) (w : world) :
  chainspec_name_lines lines w
  = Ret (name_value <$> List.find (PyStr.startswith NAME_DATA) lines) w.
Proof.
  induction lines as [|line lines IH]; [reflexivity|].
  cbn [chainspec_name_lines List.find]. rewrite prefix_slice_startswith.
  destruct (PyStr.startswith NAME_DATA line) eqn:E; [|exact IH].
  cbn [fmap option_fmap option_map]. unfold name_value.
  destruct (split_startswith NAME_DATA line) as (x & rest & ->); [discriminate | exact E |].
  cbn [lookup list_lookup default from_option id].
  destruct (split_go_cons "'" 0 "" x) as (y & rest' & Hy).
  unfold PyStr.split. rewrite !Hy. reflexivity.
Qed.

Lemma chainspec_name_text (chainspec_path : path) (w : world) (text : string) :
  node_at (fs w) chainspec_path = Some (File (Text text)) ->
  _chainspec_name chainspec_path w = Ret (embedded_name text) w.
Proof.
  intros H. unfold _chainspec_name.
  rewrite (bind_ret _ _ _ _ _ (read_text_Text _ _ _ H)).
  rewrite splitlines_universal_newlines.
  apply chainspec_name_lines_eq.
Qed.

(** *** The value of a [name = '...'] line *)

(** No [name = '] begins inside a value that has no [=] and no quote. *)
Lemma startswith_NAME_DATA_value (v tail : string) :
  has_char "=" v = false -> has_char "'" v = false ->
  PyStr.startswith NAME_DATA (v ++ String "'" tail) = false.
Proof.
  intros He Hq. unfold NAME_DATA.
  do 6 (destruct v as [|? v];
        [rewrite ?append_cons, append_nil; cbn [PyStr.startswith];
         rewrite ?andb_false_r; reflexivity
        | apply has_char_cons in He as [? He]]).
  rewrite !append_cons. cbn [PyStr.startswith].
  match goal with H : Ascii.eqb "=" _ = false |- _ => rewrite H end.
  now rewrite ?andb_false_r.
Qed.

Lemma split_go_NAME_DATA_value (v tail cur : string) :
  has_char "=" v = false -> has_char "'" v = false ->
  PyStr.split_go NAME_DATA 0 cur (v ++ String "'" tail)
  = PyStr.split_go NAME_DATA 0 (cur ++ v ++ "'") tail.
Proof.
  revert cur. induction v as [|c v IH]; intros cur He Hq.
  - rewrite !append_nil. reflexivity.
  - pose proof (startswith_NAME_DATA_value _ tail He Hq) as Hs.
    apply has_char_cons in He as [_ He]. apply has_char_cons in Hq as [_ Hq].
    rewrite append_cons in Hs |- *. cbn [PyStr.split_go]. rewrite Hs.
    rewrite (IH _ He Hq). f_equal.
    rewrite <- append_assoc. reflexivity.
Qed.

Lemma split_go_quote (v p cur : string) :
  has_char "'" v = false ->
  PyStr.split_go "'" 0 cur (v ++ String "'" p)
  = (cur ++ v)%string :: PyStr.split_go "'" 0 "" p.
Proof.
  revert cur. induction v as [|c v IH]; intros cur Hq.
  - rewrite append_nil, append_empty_r. reflexivity.
  - apply has_char_cons in Hq as [Hc Hq].
    rewrite append_cons. cbn [PyStr.split_go PyStr.startswith]. rewrite Hc. cbn [andb].
    rewrite (IH _ Hq). f_equal. rewrite <- append_assoc. reflexivity.
Qed.

(** The value of the line [name = 'v'...] is [v], for a [v] with no quote
    and no [=] in it, whatever follows the closing quote. *)
Lemma name_value_quoted (v tail : string) :
  has_char "=" v = false -> has_char "'" v = false ->
  name_value (NAME_DATA ++ v ++ String "'" tail) = v.
Proof.
  intros He Hq. unfold name_value, PyStr.split.
  change (NAME_DATA ++ v ++ String "'" tail)%string
    with (String "n" ("ame = '" ++ (v ++ String "'" tail)))%string.
  cbn [PyStr.split_go].
  change (String "n" ("ame = '" ++ (v ++ String "'" tail)))%string
    with (NAME_DATA ++ (v ++ String "'" tail))%string.
  rewrite startswith_app.
  change (String.length NAME_DATA - 1) with (String.length "ame = '").
  rewrite split_go_skip, (split_go_NAME_DATA_value _ _ _ He Hq).
  destruct (split_go_head NAME_DATA 0 ("" ++ v ++ "'") tail) as (p & rest & ->).
  cbn [lookup list_lookup default from_option id].
  rewrite append_nil, <- append_assoc, append_cons, append_nil.
  now rewrite (split_go_quote _ _ _ Hq).
Qed.

Example embedded_name_casper : embedded_name chainspec_casper = Some "casper".
Proof. vm_compute. reflexivity. Qed.


(** *** The precedence *)


(** Where the chainspec can be read the classifier follows the stated
    precedence: with the network name loaded and not empty, and
    [chainspec.toml] a file of text whenever the first three tests pass,
    [_check_staged_version] returns the status of the precedence, the
    embedded name being the value of the first line of the chainspec
    with the prefix [name = '], and leaves the state as it is. *)
Theorem check_staged_version_precedence (version : string) (w : world)
    (n text : string) :
  _network_name (self w) = Some n ->
  n <> "" ->
  (is_there w (CONFIG_PATH / version)%path = true ->
   is_there w (BIN_PATH / version / "casper-node")%path = true ->
   is_there w (CONFIG_PATH / version / "config.toml")%path = true ->
   node_at (fs w) (CONFIG_PATH / version / "chainspec.toml")%path = Some (File (Text text))) ->
  _check_staged_version version w
  = Ret (classify (is_there w (CONFIG_PATH / version)%path)
                  (is_there w (BIN_PATH / version / "casper-node")%path)
                  (is_there w (CONFIG_PATH / version / "config.toml")%path)
                  (embedded_name text) n) w.
Proof.
  intros Hn Hne Hcs.
  unfold _check_staged_version.
  rewrite (bind_ret _ _ w (self w) w) by reflexivity.
  rewrite Hn, (truthy_opt_Some n Hne). cbn [negb].
  rewrite (bind_ret _ _ w tt w) by reflexivity.
  rewrite (bind_ret _ _ w _ w (path_exists_eq _ w)).
  unfold classify.
  destruct (is_there w (CONFIG_PATH / version)%path) eqn:Hc; cbn [negb].
  - rewrite (bind_ret _ _ w _ w (path_exists_eq _ w)).
    destruct (is_there w (BIN_PATH / version / "casper-node")%path) eqn:Hb; cbn [negb];
      [| reflexivity].
    rewrite (bind_ret _ _ w _ w (path_exists_eq _ w)).
    destruct (is_there w (CONFIG_PATH / version / "config.toml")%path) eqn:Ht; cbn [negb];
      [| reflexivity].
    rewrite (bind_ret _ _ w _ w (chainspec_name_text _ _ _ (Hcs eq_refl eq_refl eq_refl))).
    destruct (bool_decide (embedded_name text = Some n)); reflexivity.
  - rewrite (bind_ret _ _ w _ w (path_exists_eq _ w)).
    destruct (is_there w (BIN_PATH / version / "casper-node")%path); reflexivity.
Qed.

(** The classifier on a staged version. *)
Example check_staged_version_staged :
  _check_staged_version "1_0_0" world_staged = Ret STAGED world_staged.
Proof. vm_compute. reflexivity. Qed.

Lemma check_staged_version_precedence_witness :
  _check_staged_version "1_0_0" world_staged
  = Ret (classify (is_there world_staged (CONFIG_PATH / "1_0_0")%path)
                  (is_there world_staged (BIN_PATH / "1_0_0" / "casper-node")%path)
                  (is_there world_staged (CONFIG_PATH / "1_0_0" / "config.toml")%path)
                  (embedded_name chainspec_casper) "casper") world_staged.
Proof.
  apply (check_staged_version_precedence "1_0_0" world_staged "casper" chainspec_casper).
  - reflexivity.
  - discriminate.
  - intros _ _ _. vm_compute. reflexivity.
Defined.

(** C1 at the failing input: the network name is loaded, the config
    directory, the binary and [config.toml] of the version are there,
    so that the precedence is at its fourth step, and [chainspec.toml]
    is not there; the call returns no status, it raises
    [FileNotFoundError]. *)
Lemma check_staged_version_no_chainspec :
  _network_name (self world_no_chainspec) = Some "casper"
  /\ is_there world_no_chainspec (CONFIG_PATH / "1_0_0")%path = true
  /\ is_there world_no_chainspec (BIN_PATH / "1_0_0" / "casper-node")%path = true
  /\ is_there world_no_chainspec (CONFIG_PATH / "1_0_0" / "config.toml")%path = true
  /\ is_there world_no_chainspec (CONFIG_PATH / "1_0_0" / "chainspec.toml")%path = false
  /\ raised (_check_staged_version "1_0_0" world_no_chainspec)
     = Some (FileNotFoundError ["etc"; "casper"; "1_0_0"; "chainspec.toml"])
  /\ returned (_check_staged_version "1_0_0" world_no_chainspec) = None.
Proof. repeat split; vm_compute; reflexivity. Qed.

(** C4 at the failing input: the classifier on a partial state a killed
    run can lead to ends in [FileNotFoundError], not in one of the six
    statuses. *)
Lemma check_staged_version_not_total :
  _check_staged_version "1_4_5" world_interrupted
  = Raise (FileNotFoundError ["etc"; "casper"; "1_4_5"; "chainspec.toml"]) world_interrupted.
Proof. vm_compute. reflexivity. Qed.

(** Whenever the first three tests pass and [chainspec.toml] is not
    there, the classifier raises. *)
Lemma check_staged_version_raises (version : string) (w : world) (n : string) :
  _network_name (self w) = Some n ->
  n <> "" ->
  is_there w (CONFIG_PATH / version)%path = true ->
  is_there w (BIN_PATH / version / "casper-node")%path = true ->
  is_there w (CONFIG_PATH / version / "config.toml")%path = true ->
  node_at (fs w) (CONFIG_PATH / version / "chainspec.toml")%path = None ->
  _check_staged_version version w
  = Raise (FileNotFoundError (CONFIG_PATH / version / "chainspec.toml")%path) w.
Proof.
  intros Hn Hne Hc Hb Ht Hs.
  unfold _check_staged_version.
  rewrite (bind_ret _ _ w (self w) w) by reflexivity.
  rewrite Hn, (truthy_opt_Some n Hne). cbn [negb].
  rewrite (bind_ret _ _ w tt w) by reflexivity.
  rewrite (bind_ret _ _ w _ w (path_exists_eq _ w)), Hc. cbn [negb].
  rewrite (bind_ret _ _ w _ w (path_exists_eq _ w)), Hb. cbn [negb].
  rewrite (bind_ret _ _ w _ w (path_exists_eq _ w)), Ht. cbn [negb].
  apply bind_raise. unfold _chainspec_name. apply bind_raise.
  unfold read_text. now rewrite Hs.
Qed.

(** The classifier changes nothing: whatever it ends in, the state is the
    one it started from (the network name being loaded). *)
Lemma check_staged_version_pure (version : string) (w : world) (n : string) :
  _network_name (self w) = Some n ->
  n <> "" ->
  final (_check_staged_version version w) = w.
Proof.
  intros Hn Hne.
  unfold _check_staged_version.
  rewrite (bind_ret _ _ w (self w) w) by reflexivity.
  rewrite Hn, (truthy_opt_Some n Hne). cbn [negb].
  rewrite (bind_ret _ _ w tt w) by reflexivity.
  repeat (rewrite (bind_ret _ _ w _ w (path_exists_eq _ w));
          match goal with |- context [negb ?b] => destruct b; cbn [negb] end;
          try reflexivity).
  unfold bind, _chainspec_name, bind, read_text.
  destruct (node_at (fs w) _) as [[|[text|ms]]|]; try reflexivity.
  induction (PyStr.splitlines (PyStr.universal_newlines text)) as [|line lines IH];
    [reflexivity|].
  cbn [chainspec_name_lines].
  destruct (String.eqb _ NAME_DATA); [|exact IH].
  destruct (PyStr.split line NAME_DATA !! 1%nat); [|reflexivity].
  destruct (PyStr.split _ "'" !! 0%nat); [|reflexivity].
  unfold ret. now destruct (negb _).
Qed.

(** A classification that returns has left the state as it was. *)
Lemma check_staged_version_ret pv w st w' :
  _check_staged_version pv w = Ret st w' -> w' = w.
Proof.
  intros H.
  destruct (truthy_opt (_network_name (self w))) eqn:Hn.
  - destruct (_network_name (self w)) as [n|] eqn:En; [|discriminate].
    assert (Hne : n <> "") by (intros ->; discriminate).
    pose proof (check_staged_version_pure pv w n En Hne) as Hp.
    now rewrite H in Hp.
  - unfold _check_staged_version in H. rewrite bind_get_self, Hn in H.
    cbn [negb] in H. rewrite bind_assoc, bind_print in H. discriminate.
Qed.

(** ** Fetching a version *)

Section Pull.

Variable getuser : string.
Variable http : list string -> string -> reply.

(** Before any download [_pull_protocol_version] ends in [exit(1)] when
    the config directory or the binary directory of the version is there:
    no file is touched and no request is made. *)
Lemma pull_aborts_on_existing (pv platform : string) (w : world) :
  is_there w (CONFIG_PATH / pv)%path = true \/ is_there w (BIN_PATH / pv)%path = true ->
  exists w',
    _pull_protocol_version getuser http pv platform w = Exit 1 w'
    /\ fs w' = fs w /\ requests w' = requests w /\ self w' = self w.
Proof.
  intros H.
  unfold _pull_protocol_version, _verify_casper_user, _network_url.
  rewrite bind_guard.
  destruct (negb (getuser =? "casper")%string); [eauto 10|].
  rewrite bind_path_exists, bind_guard.
  destruct (negb (is_there w BIN_PATH)); [eauto 10|].
  rewrite bind_path_exists, bind_guard.
  destruct (negb (is_there w CONFIG_PATH)); [eauto 10|].
  rewrite bind_get_self, bind_print, bind_assoc, bind_get_self, bind_ret_l.
  rewrite bind_path_exists, bind_guard, is_there_add_out.
  destruct (is_there w (CONFIG_PATH / pv)%path) eqn:Hc; [eauto 10|].
  rewrite bind_path_exists, bind_guard, is_there_add_out.
  destruct (is_there w (BIN_PATH / pv)%path) eqn:Hb; [eauto 10|].
  destruct H; discriminate.
Qed.

(** A version classified [UNSTAGED] has no config directory and no binary
    file. *)
Lemma unstaged_inv (pv : string) (w w' : world) :
  _check_staged_version pv w = Ret UNSTAGED w' ->
  is_there w (CONFIG_PATH / pv)%path = false
  /\ is_there w (BIN_PATH / pv / "casper-node")%path = false.
Proof.
  unfold _check_staged_version.
  rewrite bind_get_self, bind_guard.
  destruct (negb (truthy_opt _)); [discriminate|].
  rewrite bind_path_exists.
  destruct (is_there w (CONFIG_PATH / pv)%path); cbn [negb]; rewrite bind_path_exists.
  - destruct (is_there w (BIN_PATH / pv / "casper-node")%path); cbn [negb]; [|discriminate].
    rewrite bind_path_exists.
    destruct (is_there w (CONFIG_PATH / pv / "config.toml")%path); cbn [negb]; [|discriminate].
    intros H. apply bind_inv_ret in H as (a & w1 & _ & H).
    destruct (negb _); discriminate.
  - destruct (is_there w (BIN_PATH / pv / "casper-node")%path); cbn [negb];
      [discriminate | auto].
Qed.

(** C9, as amended: [_pull_protocol_version] ends in [exit(1)] before any
    download when the config directory or the binary directory of the
    version is there (no file is touched, no request made); and a version
    classified [UNSTAGED] has no config directory and no binary file
    [casper-node], which rules out the abort on the config directory and
    says nothing of the binary directory. *)
Theorem pull_abort_branches (pv platform : string) (w : world) :
  (is_there w (CONFIG_PATH / pv)%path = true \/ is_there w (BIN_PATH / pv)%path = true ->
   exists w',
     _pull_protocol_version getuser http pv platform w = Exit 1 w'
     /\ fs w' = fs w /\ requests w' = requests w /\ self w' = self w)
  /\ (returned (_check_staged_version pv w) = Some UNSTAGED ->
      is_there w (CONFIG_PATH / pv)%path = false
      /\ is_there w (BIN_PATH / pv / "casper-node")%path = false).
Proof.
  split; [apply pull_aborts_on_existing|].
  destruct (_check_staged_version pv w) as [st w'| |] eqn:E; cbn; try discriminate.
  intros [= ->]. eapply unstaged_inv, E.
Qed.

End Pull.

Lemma pull_abort_branches_witness :
  (exists w',
     _pull_protocol_version "casper" net_down "1_0_0" "deb" world_staged = Exit 1 w'
     /\ fs w' = fs world_staged /\ requests w' = requests world_staged
     /\ self w' = self world_staged)
  /\ is_there world_empty_bin_dir (CONFIG_PATH / "1_0_0")%path = false.
Proof.
  split.
  - apply (proj1 (pull_abort_branches "casper" net_down "1_0_0" "deb" world_staged)).
    left. reflexivity.
  - apply (proj2 (pull_abort_branches "casper" net_down "1_0_0" "deb" world_empty_bin_dir)).
    vm_compute. reflexivity.
Defined.

(** C9, as stated, at a version classified [UNSTAGED]: the binary
    directory is there without the binary file, and the fetch ends in
    [exit(1)] at its test of the binary directory, before any request. *)
Lemma pull_aborts_though_unstaged :
  returned (_check_staged_version "1_0_0" world_empty_bin_dir) = Some UNSTAGED
  /\ exit_code_of (_pull_protocol_version "casper" net_down "1_0_0" "deb" world_empty_bin_dir)
     = Some 1%Z
  /\ stdout (final (_pull_protocol_version "casper" net_down "1_0_0" "deb" world_empty_bin_dir))
     = [MsgBinModeFile "bin.tar.gz";
        MsgBinVersionExists ["var"; "lib"; "casper"; "bin"; "1_0_0"]]
  /\ requests (final (_pull_protocol_version "casper" net_down "1_0_0" "deb" world_empty_bin_dir))
     = [].
Proof. repeat split; vm_compute; reflexivity. Qed.

(** ** Materializing a config *)

(** *** [str.replace] on a template *)

Lemma replace_go_skip (old new t s : string) :
  PyStr.replace_go old new (String.length t) (t ++ s) = PyStr.replace_go old new 0 s.
Proof.
  induction t as [|c t IH]; [reflexivity|].
  rewrite append_cons. cbn [String.length PyStr.replace_go]. exact IH.
Qed.

(** An occurrence of [old] at the head is replaced, and the scan goes on
    behind it. *)
Lemma replace_go_hit (c : ascii) (old' new s : string) :
  PyStr.replace_go (String c old') new 0 (String c old' ++ s)
  = (new ++ PyStr.replace_go (String c old') new 0 s)%string.
Proof.
  rewrite append_cons. cbn [PyStr.replace_go].
  rewrite <- append_cons, startswith_app.
  replace (String.length (String c old') - 1) with (String.length old')
    by (cbn [String.length]; lia).
  now rewrite replace_go_skip.
Qed.

(** Text without the first character of [old] is copied as it is. *)
Lemma replace_go_copy (c : ascii) (old' new a s : string) :
  has_char c a = false ->
  PyStr.replace_go (String c old') new 0 (a ++ s)
  = (a ++ PyStr.replace_go (String c old') new 0 s)%string.
Proof.
  induction a as [|d a IH]; intros H; [reflexivity|].
  cbn [has_char] in H. apply orb_false_elim in H as [Hd Ha].
  rewrite !append_cons. cbn [PyStr.replace_go PyStr.startswith]. rewrite Hd. cbn [andb].
  now rewrite IH.
Qed.

Lemma replace_go_copy_end (c : ascii) (old' new a : string) :
  has_char c a = false ->
  PyStr.replace_go (String c old') new 0 a = a.
Proof.
  intros H. induction a as [|d a IH]; [reflexivity|].
  cbn [has_char] in H. apply orb_false_elim in H as [Hd Ha].
  cbn [PyStr.replace_go PyStr.startswith]. rewrite Hd. cbn [andb].
  now rewrite IH.
Qed.

(** Every occurrence of the placeholder is replaced and the rest is kept
    byte for byte: a template made of pieces without [<], joined by the
    placeholder, becomes the same pieces joined by the address. *)
Lemma replace_placeholder_pieces (ip : string) (pieces : list string) :
  Forall (fun a => has_char "<"%char a = false) pieces ->
  PyStr.replace (String.concat IP_PLACEHOLDER pieces) IP_PLACEHOLDER ip
  = String.concat ip pieces.
Proof.
  unfold PyStr.replace, IP_PLACEHOLDER.
  induction 1 as [|a pieces Ha Hrest IH]; [reflexivity|].
  destruct pieces as [|b pieces].
  - cbn [String.concat]. now apply replace_go_copy_end.
  - change (String.concat ?sep (a :: b :: pieces))
      with (a ++ sep ++ String.concat sep (b :: pieces))%string.
    rewrite replace_go_copy by exact Ha.
    rewrite replace_go_hit. now rewrite IH.
Qed.

Example replace_placeholder_pieces_ex :
  PyStr.replace "public_address = '<IP ADDRESS>:35000'" IP_PLACEHOLDER "1.2.3.4"
  = "public_address = '1.2.3.4:35000'".
Proof. reflexivity. Qed.

Lemma joinpath_name (p : path) (name : string) :
  PyPath.is_absolute name = false ->
  PyPath.parts name = [name] ->
  (p / name)%path = p ++ [name].
Proof. intros Ha Hp. unfold PyPath.joinpath. now rewrite Ha, Hp. Qed.

Lemma parent_joinpath_name (p : path) (name : string) :
  PyPath.is_absolute name = false ->
  PyPath.parts name = [name] ->
  PyPath.parent (p / name)%path = p.
Proof.
  intros Ha Hp. rewrite joinpath_name by assumption.
  unfold PyPath.parent. apply removelast_last.
Qed.

Lemma node_at_snoc (f : gmap (list string) node) (p : path) (name : string) :
  node_at f (p ++ [name]) = f !! (p ++ [name]).
Proof. unfold node_at. now destruct p. Qed.

Lemma write_file_ok (p : path) (c : content) (w : world) :
  node_at (fs w) p <> Some Dir ->
  node_at (fs w) (PyPath.parent p) = Some Dir ->
  write_file p c w = Ret tt (set_fs (<[p := File c]> (fs w)) w).
Proof.
  intros Hp Hd. unfold write_file. rewrite Hd.
  destruct (node_at (fs w) p) as [[|c']|]; [congruence | reflexivity | reflexivity].
Qed.

Lemma node_at_insert_ne (f : gmap (list string) node) (p q : path) (n : node) :
  p <> q -> node_at (<[p := n]> f) q = node_at f q.
Proof. intros H. destruct q; [reflexivity|]. cbn. now rewrite lookup_insert_ne. Qed.

Lemma node_at_insert_eq (f : gmap (list string) node) (p : path) (n : node) :
  p <> [] -> node_at (<[p := n]> f) p = Some n.
Proof. intros H. destruct p; [contradiction|]. cbn. apply lookup_insert_eq. Qed.

Lemma node_at_delete_ne (f : gmap (list string) node) (p q : path) :
  p <> q -> node_at (delete p f) q = node_at f q.
Proof. intros H. destruct q; [reflexivity|]. cbn. now rewrite lookup_delete_ne. Qed.

Section Materialize.

Variable getuser : string.
Variable http : list string -> string -> reply.
Variable ip_address : string -> bool.

(** What a materialization with a given address ends in, for a version
    that has a [config.toml]: when it returns, the one file written is
    [config.toml.new]; when it does not, no file is written. *)
Lemma config_from_example_outcome (protocol_version ip : string) (w : world) (old : node) :
  node_at (fs w) (CONFIG_PATH / protocol_version / "config.toml")%path = Some old ->
  match _config_from_example getuser http ip_address protocol_version (Some ip) w with
  | Ret _ w' =>
      exists text,
        node_at (fs w) (CONFIG_PATH / protocol_version / "config-example.toml")%path
        = Some (File (Text text))
        /\ fs w' = <[(CONFIG_PATH / protocol_version / "config.toml.new")%path
                     := File (Text (PyStr.replace (PyStr.universal_newlines text)
                                      IP_PLACEHOLDER ip))]> (fs w)
  | Exit _ w' | Raise _ w' => fs w' = fs w
  end.
Proof.
  intros Htoml.
  set (dir := (CONFIG_PATH / protocol_version)%path) in *.
  unfold _config_from_example, _verify_casper_user. fold dir.
  rewrite bind_guard.
  destruct (negb (getuser =? "casper")%string); [reflexivity|].
  rewrite bind_path_exists, bind_guard.
  destruct (negb (is_there w (dir / "config-example.toml")%path)); [reflexivity|].
  rewrite bind_assoc, bind_print, bind_ret_l, bind_guard. cbn [_is_valid_ip].
  destruct (negb (ip_address ip)); [reflexivity|].
  rewrite bind_path_exists. unfold is_there. cbn [add_out fs]. rewrite Htoml.
  rewrite !bind_assoc, bind_print, bind_assoc, bind_print, bind_ret_l.
  unfold bind at 1, read_text. cbn [add_out fs].
  destruct (node_at (fs w) (dir / "config-example.toml")%path) as [[|[text|ms]]|];
    try reflexivity.
  unfold write_file. cbn [add_out fs].
  destruct (node_at (fs w) (dir / "config.toml.new")%path) as [[|?]|];
    try reflexivity;
    destruct (node_at (fs w) (PyPath.parent (dir / "config.toml.new")%path)) as [[|?]|];
    try reflexivity; exists text; split; reflexivity.
Qed.

(** C7, as amended: on a version directory that holds a [config.toml],
    [_config_from_example] with a given address never changes
    [config.toml], whatever it ends in; and when it returns, it has
    written [config.toml.new] and nothing else. What it writes is the
    text of [config-example.toml] as a read in text mode gives it (CR LF
    and CR turned into LF), with the address, as given, in the place of
    every occurrence of the placeholder: pieces without [<] joined by
    the placeholder come out as the same pieces joined by the address,
    and lines joined by CR LF, or by CR, are written joined by LF. For
    a template without CR this is the template byte for byte, but for
    the address. *)
Theorem config_from_example_keeps_config_toml
    (protocol_version ip : string) (w : world) (old : node) :
  node_at (fs w) (CONFIG_PATH / protocol_version / "config.toml")%path = Some old ->
  node_at (fs (final (_config_from_example getuser http ip_address protocol_version (Some ip) w)))
    (CONFIG_PATH / protocol_version / "config.toml")%path = Some old
  /\ forall w',
      _config_from_example getuser http ip_address protocol_version (Some ip) w = Ret tt w' ->
      exists text,
        node_at (fs w) (CONFIG_PATH / protocol_version / "config-example.toml")%path
        = Some (File (Text text))
        /\ fs w' = <[(CONFIG_PATH / protocol_version / "config.toml.new")%path
                     := File (Text (PyStr.replace (PyStr.universal_newlines text)
                                      IP_PLACEHOLDER ip))]> (fs w)
        /\ (forall pieces : list string,
              Forall (fun a => has_char "<"%char a = false) pieces ->
              PyStr.universal_newlines text = String.concat IP_PLACEHOLDER pieces ->
              node_at (fs w') (CONFIG_PATH / protocol_version / "config.toml.new")%path
              = Some (File (Text (String.concat ip pieces))))
        /\ (forall pieces : list string,
              Forall (fun a => has_char "<"%char a = false) pieces ->
              has_char (ascii_of_nat 13) text = false ->
              text = String.concat IP_PLACEHOLDER pieces ->
              node_at (fs w') (CONFIG_PATH / protocol_version / "config.toml.new")%path
              = Some (File (Text (String.concat ip pieces))))
        /\ (forall (sep : string) (lines : list string),
              sep = (CR ++ LF)%string
              \/ (sep = CR /\ Forall (fun l => PyStr.startswith LF l = false) lines) ->
              Forall (fun l => has_char (ascii_of_nat 13) l = false) lines ->
              text = String.concat sep lines ->
              node_at (fs w') (CONFIG_PATH / protocol_version / "config.toml.new")%path
              = Some (File (Text (PyStr.replace (String.concat LF lines) IP_PLACEHOLDER ip)))).
Proof.
  intros Htoml.
  pose proof (config_from_example_outcome protocol_version ip w old Htoml) as H.
  assert (Hne : (CONFIG_PATH / protocol_version / "config.toml.new")%path
                <> (CONFIG_PATH / protocol_version / "config.toml")%path).
  { rewrite !(joinpath_name (CONFIG_PATH / protocol_version)%path) by reflexivity.
    intros E. apply app_inj_tail in E as [_ E]. discriminate. }
  assert (Hnew : (CONFIG_PATH / protocol_version / "config.toml.new")%path <> []).
  { rewrite (joinpath_name (CONFIG_PATH / protocol_version)%path) by reflexivity.
    now destruct (CONFIG_PATH / protocol_version)%path. }
  destruct (_config_from_example getuser http ip_address protocol_version (Some ip) w)
    as [[] w1|c w1|e w1]; cbn [final].
  - destruct H as (text & Hex & Hfs). split.
    + rewrite Hfs, node_at_insert_ne by exact Hne. exact Htoml.
    + intros w' [= <-]. exists text.
      assert (Hpieces : forall pieces : list string,
                 Forall (fun a => has_char "<"%char a = false) pieces ->
                 PyStr.universal_newlines text = String.concat IP_PLACEHOLDER pieces ->
                 node_at (fs w1) (CONFIG_PATH / protocol_version / "config.toml.new")%path
                 = Some (File (Text (String.concat ip pieces)))).
      { intros pieces Hp Ht.
        rewrite Hfs, node_at_insert_eq by exact Hnew.
        now rewrite Ht, replace_placeholder_pieces. }
      split; [exact Hex|]. split; [exact Hfs|]. split; [exact Hpieces|]. split.
      * intros pieces Hp Hcr Ht. apply Hpieces; [exact Hp|].
        now rewrite universal_newlines_no_cr.
      * intros sep lines Hsep Hcr ->.
        rewrite Hfs, node_at_insert_eq by exact Hnew.
        now rewrite universal_newlines_lines.
  - rewrite H. split; [exact Htoml | discriminate].
  - rewrite H. split; [exact Htoml | discriminate].
Qed.

End Materialize.

Lemma config_from_example_keeps_config_toml_witness :
  node_at (fs (final (_config_from_example "casper" net_down ipv4_literal "1_0_0"
                        (Some "1.2.3.4") world_staged)))
    (CONFIG_PATH / "1_0_0" / "config.toml")%path
  = Some (File (Text "public_address = '1.2.3.4:35000'"))
  /\ forall w',
      _config_from_example "casper" net_down ipv4_literal "1_0_0" (Some "1.2.3.4") world_staged
      = Ret tt w' ->
      exists text,
        node_at (fs world_staged) (CONFIG_PATH / "1_0_0" / "config-example.toml")%path
        = Some (File (Text text))
        /\ fs w' = <[(CONFIG_PATH / "1_0_0" / "config.toml.new")%path
                     := File (Text (PyStr.replace (PyStr.universal_newlines text)
                                      IP_PLACEHOLDER "1.2.3.4"))]>
                     (fs world_staged)
        /\ (forall pieces : list string,
              Forall (fun a => has_char "<"%char a = false) pieces ->
              PyStr.universal_newlines text = String.concat IP_PLACEHOLDER pieces ->
              node_at (fs w') (CONFIG_PATH / "1_0_0" / "config.toml.new")%path
              = Some (File (Text (String.concat "1.2.3.4" pieces))))
        /\ (forall pieces : list string,
              Forall (fun a => has_char "<"%char a = false) pieces ->
              has_char (ascii_of_nat 13) text = false ->
              text = String.concat IP_PLACEHOLDER pieces ->
              node_at (fs w') (CONFIG_PATH / "1_0_0" / "config.toml.new")%path
              = Some (File (Text (String.concat "1.2.3.4" pieces))))
        /\ (forall (sep : string) (lines : list string),
              sep = (CR ++ LF)%string
              \/ (sep = CR /\ Forall (fun l => PyStr.startswith LF l = false) lines) ->
              Forall (fun l => has_char (ascii_of_nat 13) l = false) lines ->
              text = String.concat sep lines ->
              node_at (fs w') (CONFIG_PATH / "1_0_0" / "config.toml.new")%path
              = Some (File (Text (PyStr.replace (String.concat LF lines)
                                    IP_PLACEHOLDER "1.2.3.4")))).
Proof.
  apply (config_from_example_keeps_config_toml "casper" net_down ipv4_literal
           "1_0_0" "1.2.3.4" world_staged).
  vm_compute. reflexivity.
Defined.

(** C7, as stated, on a template whose line ends in CR LF: the call
    returns, and [config.toml.new] holds the line with the address and
    a LF alone, which is not the template with the address in the place
    of the placeholder byte for byte. *)
Lemma config_from_example_translates_line_ends :
  node_at (fs world_staged_crlf) (CONFIG_PATH / "1_0_0" / "config-example.toml")%path
  = Some (File (Text (String.concat IP_PLACEHOLDER
                        ["public_address = '"; ":35000'" +:+ CR +:+ LF])))
  /\ returned (_config_from_example "casper" net_down ipv4_literal "1_0_0" (Some "1.2.3.4")
                 world_staged_crlf) = Some tt
  /\ node_at (fs (final (_config_from_example "casper" net_down ipv4_literal "1_0_0"
                           (Some "1.2.3.4") world_staged_crlf)))
       (CONFIG_PATH / "1_0_0" / "config.toml.new")%path
     = Some (File (Text (String.concat "1.2.3.4" ["public_address = '"; ":35000'" +:+ LF])))
  /\ String.concat "1.2.3.4" ["public_address = '"; ":35000'" +:+ LF]
     <> String.concat "1.2.3.4" ["public_address = '"; ":35000'" +:+ CR +:+ LF].
Proof. repeat split; try (vm_compute; reflexivity). vm_compute. discriminate. Qed.

(** The same call, run: it returns, and [config.toml.new] holds the
    template with the address. *)
Example config_from_example_writes_new :
  returned (_config_from_example "casper" net_down ipv4_literal "1_0_0" (Some "1.2.3.4")
              world_staged) = Some tt
  /\ node_at (fs (final (_config_from_example "casper" net_down ipv4_literal "1_0_0"
                           (Some "1.2.3.4") world_staged)))
       (CONFIG_PATH / "1_0_0" / "config.toml.new")%path
     = Some (File (Text "public_address = '1.2.3.4:35000'")).
Proof. split; vm_compute; reflexivity. Qed.

(** ** The orchestrator *)

(** Evaluates the tests on a known status. *)
Ltac decide_status :=
  repeat match goal with
         | |- context [bool_decide ?P] =>
             let b := eval vm_compute in (bool_decide P) in
             change (bool_decide P) with b
         | H : context [bool_decide ?P] |- _ =>
             let b := eval vm_compute in (bool_decide P) in
             change (bool_decide P) with b in H
         end.

Section Orchestrator.

Variable getuser : string.
Variable http : list string -> string -> reply.
Variable ip_address : string -> bool.

Lemma stage_protocols_loop_app platform args_ip (done rest : list string) c c1 w w1 :
  stage_protocols_loop getuser http ip_address platform args_ip done c w = Ret c1 w1 ->
  stage_protocols_loop getuser http ip_address platform args_ip (done ++ rest) c w = stage_protocols_loop getuser http ip_address platform args_ip rest c1 w1.
Proof.
  revert c w. induction done as [|pv done IH]; intros c w H.
  - cbn in H. injection H as -> ->. reflexivity.
  - cbn [app stage_protocols_loop] in *.
    apply bind_inv_ret in H as (c' & w' & Hb & H).
    rewrite (bind_ret _ _ _ _ _ Hb). now apply IH.
Qed.

(** A download that is answered by another status than 200 raises
    [IOError] and writes nothing. *)
Lemma download_file_not_200 (url : string) (target_path : path) (w : world)
    (status : Z) (data : content) :
  http (requests w) url = Response status data ->
  status <> 200%Z ->
  exists w',
    _download_file http url target_path w = Raise (IOError url status) w'
    /\ fs w' = fs w /\ self w' = self w.
Proof.
  intros Hr Hs. unfold _download_file. rewrite bind_print.
  unfold bind, http_request. cbn [add_out requests]. rewrite Hr. cbn [fst snd].
  destruct (Z.eqb_spec status 200) as [->|_]; [congruence|].
  cbn [negb]. unfold raise. eauto.
Qed.

(** A turn that fetches or materializes and comes back sets the exit code
    to 1, whatever it achieved: both methods return [None]. *)
Lemma stage_protocols_body_flags platform args_ip pv c w st c' w' :
  _check_staged_version pv w = Ret st w ->
  st = UNSTAGED \/ st = NO_CONFIG ->
  stage_protocols_body getuser http ip_address platform args_ip pv c w = Ret c' w' ->
  c' = 1%Z.
Proof.
  intros Hst Hcase. unfold stage_protocols_body.
  rewrite (bind_ret _ _ _ _ _ Hst).
  destruct Hcase as [-> | ->]; intros H; decide_status; cbv iota in H.
  - apply bind_inv_ret in H as (c0 & w0 & _ & H).
    rewrite bind_print in H.
    apply bind_inv_ret in H as (r & w1 & _ & H). now injection H.
  - rewrite bind_ret_l, bind_print in H.
    apply bind_inv_ret in H as (r & w1 & _ & H). now injection H.
Qed.


End Orchestrator.


(** The turn of the witness ends in the [IOError] of the first download,
    and so does the loop over both versions. *)
Example stage_protocols_loop_first_missing :
  raised (stage_protocols_body "casper" net_first_missing ipv4_literal "deb" (Some "1.2.3.4")
            "1_0_0" 0%Z (process casper_loaded []))
  = Some (IOError "http://genesis.casperlabs.io/casper/1_0_0/config.tar.gz" 404)
  /\ raised (stage_protocols_loop "casper" net_first_missing ipv4_literal "deb"
               (Some "1.2.3.4") ["1_0_0"; "1_0_1"] 0%Z (process casper_loaded []))
     = Some (IOError "http://genesis.casperlabs.io/casper/1_0_0/config.tar.gz" 404).
Proof. split; vm_compute; reflexivity. Qed.

(** A turn that returns, run: version 1_0_0 is fetched and materialized,
    the turn comes back with the exit code 1, and the loop goes on to
    the versions behind it. *)
Example stage_protocols_loop_flags_success :
  returned (stage_protocols_body "casper" net_one_version ipv4_literal "deb" (Some "1.2.3.4")
              "1_0_0" 0%Z (process casper_loaded []))
  = Some 1%Z
  /\ returned (_check_staged_version "1_0_0" (process casper_loaded [])) = Some UNSTAGED.
Proof. split; vm_compute; reflexivity. Qed.


(** C2 at the failing input: one version, unstaged, every fetch,
    extraction and the materialization succeed; the version ends
    [STAGED] and the run ends in [exit(1)]. *)
Lemma stage_protocols_success_exits_1 :
  exit_code_of (stage_protocols "casper" net_one_version ipv4_literal "casper.conf"
                  (Some "1.2.3.4") world_installed) = Some 1%Z
  /\ returned (_check_staged_version "1_0_0"
                 (final (stage_protocols "casper" net_one_version ipv4_literal "casper.conf"
                           (Some "1.2.3.4") world_installed))) = Some STAGED
  /\ is_there world_installed (CONFIG_PATH / "1_0_0")%path = false.
Proof. repeat split; vm_compute; reflexivity. Qed.

(** The other half of C2: a version of the wrong network is not
    [STAGED], nothing is done about it, and the run ends in [exit(0)]. *)
Lemma stage_protocols_wrong_network_exits_0 :
  exit_code_of (stage_protocols "casper" net_one_version ipv4_literal "casper.conf"
                  None world_other_network) = Some 0%Z
  /\ returned (_check_staged_version "1_0_0"
                 (final (stage_protocols "casper" net_one_version ipv4_literal "casper.conf"
                           None world_other_network))) = Some WRONG_NETWORK.
Proof. repeat split; vm_compute; reflexivity. Qed.

(** ** The vote on the external address *)

(** *** [Counter] and [most_common] *)

Lemma count_app (a : string) (xs ys : list string) :
  count a (xs ++ ys) = count a xs + count a ys.
Proof. unfold count. now rewrite List.filter_app, length_app. Qed.

Lemma count_cons (a x : string) (xs : list string) :
  count a (x :: xs) = (if String.eqb a x then 1 else 0) + count a xs.
Proof. unfold count. cbn [List.filter]. now destruct (String.eqb a x). Qed.

Lemma count_notin (a : string) (xs : list string) : ~ List.In a xs -> count a xs = 0.
Proof.
  induction xs as [|x xs IH]; intros H; [reflexivity|].
  rewrite count_cons, IH by (intros ?; apply H; now right).
  destruct (String.eqb_spec a x) as [->|]; [|reflexivity].
  exfalso. apply H. now left.
Qed.

Lemma In_firsts (x : string) (xs : list string) : List.In x (firsts xs) <-> List.In x xs.
Proof.
  induction xs as [|y xs IH]; [reflexivity|].
  cbn [firsts List.In]. rewrite List.filter_In, IH.
  destruct (String.eqb_spec x y) as [->|Hne]; [tauto|].
  split; [tauto|]. intros [->|H]; [now left|]. now right.
Qed.

Lemma NoDup_firsts (xs : list string) : List.NoDup (firsts xs).
Proof.
  induction xs as [|y xs IH]; [constructor|].
  cbn [firsts]. constructor.
  - rewrite List.filter_In. intros [_ H]. now rewrite String.eqb_refl in H.
  - now apply List.NoDup_filter.
Qed.

Lemma filter_all {A} (P : A -> bool) (l : list A) :
  (forall x, List.In x l -> P x = true) -> List.filter P l = l.
Proof.
  induction l as [|x l IH]; intros H; [reflexivity|].
  cbn [List.filter]. rewrite H by now left.
  f_equal. apply IH. intros y Hy. apply H. now right.
Qed.

Lemma firsts_snoc (x : string) (xs : list string) :
  firsts (xs ++ [x])
  = if existsb (String.eqb x) xs then firsts xs else firsts xs ++ [x].
Proof.
  induction xs as [|y xs IH]; [reflexivity|].
  cbn [app firsts existsb]. rewrite IH.
  destruct (String.eqb_spec x y) as [->|Hne]; cbn [orb].
  - destruct (existsb (String.eqb y) xs); [reflexivity|].
    rewrite List.filter_app. cbn [List.filter]. rewrite String.eqb_refl. cbn [negb].
    now rewrite app_nil_r.
  - destruct (existsb (String.eqb x) xs); [reflexivity|].
    rewrite List.filter_app. cbn [List.filter].
    destruct (String.eqb_spec x y) as [|_]; [contradiction|]. reflexivity.
Qed.

Lemma existsb_eqb_In (x : string) (xs : list string) :
  existsb (String.eqb x) xs = true <-> List.In x xs.
Proof.
  rewrite List.existsb_exists. split.
  - intros (y & Hy & E). apply String.eqb_eq in E. now subst.
  - intros H. exists x. split; [exact H | apply String.eqb_refl].
Qed.

(** [counter_add] on a list of counts whose keys are distinct: the count
    of [x] goes up by one, or [x] is added at the end with count 1. *)
Lemma counter_add_map (x : string) (f : string -> nat) (ks : list string) :
  List.NoDup ks ->
  counter_add x (map (fun a => (a, f a)) ks)
  = if existsb (String.eqb x) ks
    then map (fun a => (a, f a + (if String.eqb a x then 1 else 0))) ks
    else map (fun a => (a, f a)) ks ++ [(x, 1)].
Proof.
  induction 1 as [|k ks Hk Hnd IH]; [reflexivity|].
  cbn [map counter_add existsb].
  destruct (String.eqb_spec x k) as [->|Hne]; cbn [orb].
  - rewrite String.eqb_refl. f_equal; [f_equal; lia|].
    apply List.map_ext_in. intros a Ha.
    destruct (String.eqb_spec a k) as [->|_]; [contradiction|].
    f_equal. lia.
  - rewrite IH.
    destruct (String.eqb_spec k x) as [E|_]; [now subst|].
    destruct (existsb (String.eqb x) ks); cbn [app]; f_equal. f_equal. lia.
Qed.

(** [Counter(xs)] holds the values of [xs] in the order of their first
    occurrence, each with the number of its occurrences. *)
Lemma Counter_firsts (xs : list string) :
  Counter xs = map (fun a => (a, count a xs)) (firsts xs).
Proof.
  induction xs as [|x xs IH] using rev_ind; [reflexivity|].
  unfold Counter in *. rewrite fold_left_app. cbn [fold_left]. rewrite IH.
  rewrite counter_add_map by apply NoDup_firsts.
  rewrite firsts_snoc.
  assert (Hin : existsb (String.eqb x) (firsts xs) = existsb (String.eqb x) xs).
  { apply eq_true_iff_eq. now rewrite !existsb_eqb_In, In_firsts. }
  rewrite Hin.
  destruct (existsb (String.eqb x) xs) eqn:Hx.
  - apply List.map_ext. intros a. now rewrite count_app, count_cons, Nat.add_0_r.
  - rewrite map_app. cbn [map]. f_equal.
    + apply List.map_ext_in. intros a Ha. rewrite count_app, count_cons.
      destruct (String.eqb_spec a x) as [->|_]; [|f_equal; cbn; lia].
      apply (proj1 (In_firsts x xs)) in Ha. apply (proj2 (existsb_eqb_In x xs)) in Ha.
      rewrite Ha in Hx. discriminate.
    + rewrite count_app, count_cons, String.eqb_refl, count_notin; [reflexivity|].
      intros H. apply (proj2 (existsb_eqb_In x xs)) in H.
      rewrite H in Hx. discriminate.
Qed.

(** [find] does not see the repetitions [firsts] drops. *)
Lemma find_firsts (P : string -> bool) (xs : list string) :
  List.find P (firsts xs) = List.find P xs.
Proof.
  induction xs as [|x xs IH]; [reflexivity|].
  cbn [firsts List.find]. destruct (P x) eqn:Hx; [reflexivity|].
  rewrite <- IH. clear IH.
  induction (firsts xs) as [|y ys IH]; [reflexivity|].
  cbn [List.filter List.find].
  destruct (String.eqb_spec y x) as [->|_]; cbn [negb List.find].
  - now rewrite Hx.
  - now rewrite IH.
Qed.

(** [max_by_count] gives the first entry that no entry outnumbers:
    [pre] are the entries before the best one so far, [mid] the ones
    seen after it. *)
Lemma max_by_count_first (f : string -> nat) (ks pre mid : list string) (best : string) :
  Forall (fun b => f b < f best) pre ->
  Forall (fun b => f b <= f best) mid ->
  exists a,
    max_by_count (best, f best) (map (fun a => (a, f a)) ks) = (a, f a)
    /\ List.find (fun a => forallb (fun b => (f b <=? f a)%nat) (pre ++ best :: mid ++ ks))
         (pre ++ best :: mid ++ ks) = Some a.
Proof.
  revert pre mid best. induction ks as [|k ks IH]; intros pre mid best Hpre Hmid.
  - exists best. split; [reflexivity|]. rewrite app_nil_r.
    assert (Hbest : forallb (fun b => (f b <=? f best)%nat) (pre ++ best :: mid) = true).
    { apply forallb_forall. intros b Hb. apply Nat.leb_le.
      apply List.in_app_or in Hb as [Hb|[->|Hb]].
      - rewrite Forall_forall in Hpre. apply list_elem_of_In in Hb.
        specialize (Hpre b Hb). lia.
      - lia.
      - rewrite Forall_forall in Hmid. apply list_elem_of_In in Hb. auto. }
    assert (Hin : List.In best (pre ++ best :: mid)).
    { apply List.in_or_app. right. now left. }
    revert Hbest Hin. generalize (pre ++ best :: mid) at 1 2 3 as L. intros L Hbest Hin.
    induction Hpre as [|b pre Hb Hpre IHpre]; cbn [app List.find].
    + now rewrite Hbest.
    + destruct (forallb (fun b0 => (f b0 <=? f b)%nat) L) eqn:E; [|exact IHpre].
      exfalso. rewrite forallb_forall in E.
      specialize (E best Hin). apply Nat.leb_le in E. lia.
  - cbn [map max_by_count fst snd].
    destruct (Nat.ltb_spec (f best) (f k)) as [Hlt|Hge].
    + destruct (IH (pre ++ best :: mid) [] k) as (a & Ha & Hfind).
      * apply Forall_app. split; [|constructor].
        -- eapply Forall_impl; [exact Hpre|]. cbn. intros; lia.
        -- lia.
        -- eapply Forall_impl; [exact Hmid|]. cbn. intros; lia.
      * constructor.
      * exists a. split; [exact Ha|].
        cbn [app] in Hfind. rewrite <- app_assoc in Hfind. exact Hfind.
    + destruct (IH pre (mid ++ [k]) best) as (a & Ha & Hfind).
      * exact Hpre.
      * apply Forall_app. split; [exact Hmid|]. constructor; [lia|constructor].
      * exists a. split; [exact Ha|].
        rewrite <- app_assoc in Hfind. exact Hfind.
Qed.

Lemma forallb_firsts (P : string -> bool) (xs : list string) :
  forallb P (firsts xs) = forallb P xs.
Proof.
  apply eq_true_iff_eq. rewrite !forallb_forall.
  split; intros H x Hx; apply H; now apply In_firsts.
Qed.

Lemma find_ext {A} (P Q : A -> bool) (l : list A) :
  (forall x, P x = Q x) -> List.find P l = List.find Q l.
Proof.
  intros H. induction l as [|x l IH]; [reflexivity|].
  cbn [List.find]. now rewrite H, IH.
Qed.

(** [Counter(xs).most_common(1)] is the plurality value of [xs] with its
    count: the first value of [xs] that none outnumbers. *)
Lemma most_common_plurality (xs : list string) :
  xs <> [] ->
  exists a, plurality xs = Some a /\ most_common_1 (Counter xs) = [(a, count a xs)].
Proof.
  intros Hne. rewrite Counter_firsts.
  destruct (firsts xs) as [|k ks] eqn:E.
  { destruct xs; [contradiction | discriminate]. }
  cbn [map most_common_1].
  destruct (max_by_count_first (fun a => count a xs) ks [] [] k) as (a & Ha & Hfind);
    [constructor | constructor |].
  exists a. split; [|now rewrite Ha].
  cbn [app] in Hfind. rewrite <- E in Hfind.
  unfold plurality. rewrite <- find_firsts.
  rewrite <- Hfind. apply find_ext. intros b. unfold most_frequent.
  symmetry. apply forallb_firsts.
Qed.

(** A value held by more than half of the answers wins the vote. *)
Lemma plurality_majority (xs : list string) (a : string) :
  length xs < 2 * count a xs -> plurality xs = Some a.
Proof.
  intros Hmaj.
  assert (Hne : xs <> []) by (intros ->; cbn in Hmaj; lia).
  destruct (most_common_plurality xs Hne) as (b & Hb & _).
  rewrite Hb. f_equal.
  unfold plurality in Hb. apply List.find_some in Hb as [Hin Hmax].
  destruct (String.eqb_spec b a) as [|Hba]; [assumption|exfalso].
  assert (Ha : List.In a xs).
  { destruct (List.in_dec string_dec a xs) as [|Hn]; [assumption|].
    rewrite (count_notin a xs Hn) in Hmaj. lia. }
  unfold most_frequent in Hmax. rewrite forallb_forall in Hmax.
  specialize (Hmax a Ha). apply Nat.leb_le in Hmax.
  assert (Hsum : count a xs + count b xs <= length xs).
  { clear -Hba. induction xs as [|x xs IH]; [cbn; lia|].
    rewrite !count_cons. cbn [length].
    destruct (String.eqb_spec a x) as [->|]; destruct (String.eqb_spec b x) as [->|];
      try contradiction; lia. }
  lia.
Qed.

(** When no two answers agree the first one wins the vote. *)
Lemma plurality_all_differ (a : string) (xs : list string) :
  List.NoDup (a :: xs) -> plurality (a :: xs) = Some a.
Proof.
  intros Hnd. unfold plurality. cbn [List.find].
  assert (Hone : forall b, List.In b (a :: xs) -> count b (a :: xs) = 1).
  { clear -Hnd. induction Hnd as [|x l Hx Hnd IH]; intros b Hb; [destruct Hb|].
    rewrite count_cons. destruct Hb as [->|Hb].
    - rewrite String.eqb_refl, count_notin by assumption. reflexivity.
    - destruct (String.eqb_spec b x) as [->|_]; [contradiction|]. now apply IH. }
  replace (most_frequent (a :: xs) a) with true; [reflexivity|].
  symmetry. unfold most_frequent. apply forallb_forall. intros b Hb.
  apply Nat.leb_le. rewrite (Hone b Hb), (Hone a) by now left. lia.
Qed.

Section Vote.

Variable http : list string -> string -> reply.
Variable ip_address : string -> bool.

(** One turn of the loop over the services, for a service that answers. *)
Lemma query_services_step (url service : string) (rest : list (string * string))
    (ips : list string) (w : world) (r : Z * string) :
  http (requests w) url = Response r.1 (Text r.2) ->
  query_services http ((url, service) :: rest) ips w
  = query_services http rest (ips ++ List.filter PyStr.truthy [answer r])
      (add_out (MsgServiceSays service (answer r) r.1) (add_request url w)).
Proof.
  intros H. cbn [query_services]. unfold bind at 1. unfold http_request. rewrite H.
  cbn [fst snd]. unfold answer. cbn [List.filter].
  destruct (r.1 =? 200)%Z; cbn [negb].
  - rewrite bind_assoc. unfold decode. rewrite !bind_ret_l, bind_print.
    destruct (PyStr.truthy (PyStr.strip r.2)); [reflexivity | now rewrite app_nil_r].
  - rewrite bind_ret_l, bind_print. cbn [PyStr.truthy]. now rewrite app_nil_r.
Qed.

(** C5, as amended: with no address cached and the three services
    answering, [_get_external_ip] returns the vote over the answers that
    are not empty (the stripped bodies of the responses of status 200):
    the first of the values that none outnumbers, when it is a valid
    address, and none otherwise or when no answer counts. *)
Theorem get_external_ip_vote (w : world) (r1 r2 r3 : Z * string) :
  truthy_opt (_external_ip (self w)) = false ->
  http (requests w) "https://checkip.amazonaws.com" = Response r1.1 (Text r1.2) ->
  http (requests w ++ ["https://checkip.amazonaws.com"]) "https://ifconfig.me"
    = Response r2.1 (Text r2.2) ->
  http ((requests w ++ ["https://checkip.amazonaws.com"]) ++ ["https://ifconfig.me"])
    "https://ident.me" = Response r3.1 (Text r3.2) ->
  returned (_get_external_ip http ip_address w)
  = Some (vote ip_address (answers [r1; r2; r3])).
Proof.
  intros Hcache H1 H2 H3.
  unfold _get_external_ip. rewrite bind_get_self, Hcache, bind_print.
  unfold services.
  unfold bind at 1.
  rewrite (query_services_step _ _ _ _ _ r1) by exact H1.
  rewrite (query_services_step _ _ _ _ _ r2) by exact H2.
  rewrite (query_services_step _ _ _ _ _ r3) by exact H3.
  cbn [query_services ret app].
  rewrite <- !List.filter_app. cbn [app].
  change (List.filter PyStr.truthy [answer r1; answer r2; answer r3])
    with (answers [r1; r2; r3]).
  set (ips := answers [r1; r2; r3]). unfold vote.
  destruct (decide (ips = [])) as [E|Hne].
  - rewrite E. reflexivity.
  - rewrite bool_decide_eq_false_2 by exact Hne. cbn [negb].
    destruct (most_common_plurality ips Hne) as (a & -> & ->).
    cbn [lookup list_lookup _is_valid_ip].
    destruct (ip_address a); reflexivity.
Qed.

End Vote.

Lemma get_external_ip_vote_witness :
  returned (_get_external_ip (net_services (200%Z, "1.2.3.4") (200%Z, "5.6.7.8") (200%Z, "1.2.3.4"))
              ipv4_literal (process casper_loaded []))
  = Some (vote ipv4_literal (answers [(200%Z, "1.2.3.4"); (200%Z, "5.6.7.8"); (200%Z, "1.2.3.4")])).
Proof.
  apply (get_external_ip_vote
           (net_services (200%Z, "1.2.3.4") (200%Z, "5.6.7.8") (200%Z, "1.2.3.4"))
           ipv4_literal (process casper_loaded [])
           (200%Z, "1.2.3.4") (200%Z, "5.6.7.8") (200%Z, "1.2.3.4"));
    reflexivity.
Defined.

(** The vote in a split of two against one. *)
Example vote_two_one :
  vote ipv4_literal (answers [(200%Z, "5.6.7.8"); (200%Z, "1.2.3.4"); (200%Z, "1.2.3.4")])
  = Some "1.2.3.4".
Proof. vm_compute. reflexivity. Qed.

(** C5, as stated, when the three services disagree pairwise: the
    answer of the first service is returned, not none. *)
Lemma get_external_ip_all_differ :
  returned (_get_external_ip (net_services (200%Z, "1.1.1.1") (200%Z, "2.2.2.2") (200%Z, "3.3.3.3"))
              ipv4_literal (process casper_loaded []))
  = Some (Some "1.1.1.1").
Proof. vm_compute. reflexivity. Qed.

(** C5, as stated, when two services answer the same text that is no
    address and the third a valid one: the valid answer is the most
    frequent among the valid ones, and none is returned. *)
Lemma get_external_ip_invalid_majority :
  returned (_get_external_ip (net_services (200%Z, "busy") (200%Z, "busy") (200%Z, "3.3.3.3"))
              ipv4_literal (process casper_loaded []))
  = Some None.
Proof. vm_compute. reflexivity. Qed.

(** ** What the methods leave as it is *)

Lemma preserves_ret {A} (R : world -> world -> Prop) `{!Reflexive R} (a : A) :
  preserves R (ret a).
Proof. intros w. apply reflexivity. Qed.

Lemma preserves_exit {A} (R : world -> world -> Prop) `{!Reflexive R} (c : Z) :
  preserves R (@exit A c).
Proof. intros w. apply reflexivity. Qed.

Lemma preserves_raise {A} (R : world -> world -> Prop) `{!Reflexive R} (e : exn) :
  preserves R (@raise A e).
Proof. intros w. apply reflexivity. Qed.

Lemma preserves_bind {A B} (R : world -> world -> Prop) `{!Transitive R}
    (m : M A) (k : A -> M B) :
  preserves R m -> (forall a, preserves R (k a)) -> preserves R (bind m k).
Proof.
  intros Hm Hk w. unfold bind. specialize (Hm w).
  destruct (m w) as [a w1|c w1|e w1]; cbn [final] in *; [|exact Hm|exact Hm].
  etransitivity; [exact Hm | apply Hk].
Qed.

#[global] Instance quiet_refl : Reflexive quiet.
Proof. intros w. split; reflexivity. Qed.

#[global] Instance quiet_trans : Transitive quiet.
Proof. intros w1 w2 w3 [H1 H2] [H3 H4]. split; congruence. Qed.

Lemma detected_snoc (out : list message) (m : message) :
  detected (out ++ [m]) = detected out ++ detected_ip m.
Proof. unfold detected. rewrite flat_map_app. cbn. now rewrite app_nil_r. Qed.

Lemma quiet_print (m : message) : detected_ip m = [] -> preserves quiet (print m).
Proof.
  intros H w. split; [reflexivity|].
  cbn. now rewrite detected_snoc, H, app_nil_r.
Qed.

Lemma quiet_get_self : preserves quiet get_self.
Proof. intros w. apply reflexivity. Qed.

Lemma quiet_path_exists p : preserves quiet (path_exists p).
Proof. intros w. apply reflexivity. Qed.

Lemma quiet_read_text p : preserves quiet (read_text p).
Proof. intros w. unfold read_text. destruct (node_at _ _) as [[|[]]|]; apply reflexivity. Qed.

Lemma quiet_write_file p c : preserves quiet (write_file p c).
Proof.
  intros w. unfold write_file.
  destruct (node_at (fs w) p) as [[|?]|]; try apply reflexivity;
    destruct (node_at (fs w) (PyPath.parent p)) as [[|?]|]; split; reflexivity.
Qed.

Lemma quiet_unlink p : preserves quiet (unlink p).
Proof. intros w. unfold unlink. destruct (node_at _ _) as [[|?]|]; split; reflexivity. Qed.

Lemma quiet_mkdir_exist_ok p : preserves quiet (mkdir_exist_ok p).
Proof.
  intros w. unfold mkdir_exist_ok.
  destruct (node_at (fs w) p); [apply reflexivity|].
  destruct (node_at (fs w) (PyPath.parent p)) as [[|?]|]; split; reflexivity.
Qed.

Lemma quiet_tar_open p : preserves quiet (tar_open p).
Proof. intros w. unfold tar_open. destruct (node_at _ _) as [[|[]]|]; apply reflexivity. Qed.

Lemma quiet_decode d : preserves quiet (decode d).
Proof. destruct d; intros w; apply reflexivity. Qed.

Lemma quiet_makedirs_from done rest : preserves quiet (makedirs_from done rest).
Proof.
  revert done. induction rest as [|c rest IH]; intros done.
  - apply preserves_ret; typeclasses eauto.
  - cbn [makedirs_from]. apply preserves_bind; [typeclasses eauto| |intros _; apply IH].
    intros w. destruct (node_at (fs w) (done ++ [c])) as [[|?]|]; split; reflexivity.
Qed.

Create HintDb quiet.
#[global] Hint Resolve quiet_get_self quiet_path_exists quiet_read_text quiet_write_file
  quiet_unlink quiet_mkdir_exist_ok quiet_tar_open quiet_decode quiet_makedirs_from : quiet.
#[global] Hint Extern 1 (preserves quiet (print _)) => (apply quiet_print; reflexivity) : quiet.

(** Goes through a method built from binds, tests and calls that are
    known, by the hints of [db], to preserve the relation. *)
Tactic Notation "preserves_tac" "with" ident(db) :=
  repeat first
    [ solve [eauto with db]
    | apply preserves_bind; [typeclasses eauto | | intros ?]
    | apply preserves_ret; typeclasses eauto
    | apply preserves_exit; typeclasses eauto
    | apply preserves_raise; typeclasses eauto
    | match goal with
      | |- preserves _ (if ?b then _ else _) => destruct b
      | |- preserves _ (match ?x with _ => _ end) => destruct x
      end ].

Lemma quiet_tar_extract m target : preserves quiet (tar_extract m target).
Proof. unfold tar_extract, makedirs. preserves_tac with quiet. Qed.
#[global] Hint Resolve quiet_tar_extract : quiet.

Lemma quiet_extract_members ms target : preserves quiet (extract_members ms target).
Proof. induction ms as [|m ms IH]; cbn [extract_members]; preserves_tac with quiet. Qed.
#[global] Hint Resolve quiet_extract_members : quiet.

Lemma quiet_extract_tar_gz src target : preserves quiet (_extract_tar_gz src target).
Proof. unfold _extract_tar_gz. preserves_tac with quiet. Qed.
#[global] Hint Resolve quiet_extract_tar_gz : quiet.

Lemma quiet_chainspec_name_lines lines : preserves quiet (chainspec_name_lines lines).
Proof. induction lines as [|l lines IH]; cbn [chainspec_name_lines]; preserves_tac with quiet. Qed.
#[global] Hint Resolve quiet_chainspec_name_lines : quiet.

Lemma quiet_chainspec_name p : preserves quiet (_chainspec_name p).
Proof. unfold _chainspec_name. preserves_tac with quiet. Qed.
#[global] Hint Resolve quiet_chainspec_name : quiet.

Lemma quiet_check_staged_version pv : preserves quiet (_check_staged_version pv).
Proof. unfold _check_staged_version. preserves_tac with quiet. Qed.
#[global] Hint Resolve quiet_check_staged_version : quiet.

Lemma quiet_get_platform : preserves quiet _get_platform.
Proof. unfold _get_platform. preserves_tac with quiet. Qed.
#[global] Hint Resolve quiet_get_platform : quiet.

Lemma quiet_network_url : preserves quiet _network_url.
Proof. unfold _network_url. preserves_tac with quiet. Qed.
#[global] Hint Resolve quiet_network_url : quiet.

Lemma quiet_load_config_lines lines config : preserves quiet (load_config_lines lines config).
Proof.
  revert config. induction lines as [|l lines IH]; intros config;
    cbn [load_config_lines]; preserves_tac with quiet.
Qed.
#[global] Hint Resolve quiet_load_config_lines : quiet.

Lemma quiet_load_config_expected keys file_path config :
  preserves quiet (load_config_expected keys file_path config).
Proof. induction keys as [|k keys IH]; cbn [load_config_expected]; preserves_tac with quiet. Qed.
#[global] Hint Resolve quiet_load_config_expected : quiet.

Lemma quiet_load_config_values config : preserves quiet (_load_config_values config).
Proof.
  unfold _load_config_values.
  apply preserves_bind; [typeclasses eauto|preserves_tac with quiet|intros text].
  apply preserves_bind; [typeclasses eauto|preserves_tac with quiet|intros cfg].
  apply preserves_bind; [typeclasses eauto|preserves_tac with quiet|intros _].
  intros w. split; reflexivity.
Qed.
#[global] Hint Resolve quiet_load_config_values : quiet.

Section Cache.

Variable getuser : string.
Variable http : list string -> string -> reply.
Variable ip_address : string -> bool.

Lemma quiet_http_request url : preserves quiet (http_request http url).
Proof.
  intros w. unfold http_request. destruct (http (requests w) url); split; reflexivity.
Qed.
Hint Resolve quiet_http_request : quiet.

Lemma quiet_verify_casper_user : preserves quiet (_verify_casper_user getuser).
Proof. unfold _verify_casper_user. preserves_tac with quiet. Qed.
Hint Resolve quiet_verify_casper_user : quiet.

Lemma quiet_get_protocols : preserves quiet (_get_protocols http).
Proof. unfold _get_protocols. preserves_tac with quiet. Qed.
Hint Resolve quiet_get_protocols : quiet.

Lemma quiet_download_file url p : preserves quiet (_download_file http url p).
Proof. unfold _download_file. preserves_tac with quiet. Qed.
Hint Resolve quiet_download_file : quiet.

Lemma quiet_pull_protocol_version pv platform :
  preserves quiet (_pull_protocol_version getuser http pv platform).
Proof. unfold _pull_protocol_version. preserves_tac with quiet. Qed.
Hint Resolve quiet_pull_protocol_version : quiet.

Lemma quiet_query_services svcs ips : preserves quiet (query_services http svcs ips).
Proof.
  revert ips. induction svcs as [|[url service] svcs IH]; intros ips;
    cbn [query_services]; preserves_tac with quiet.
Qed.

(** The loop over the services adds answers that are not empty, and
    changes neither the attributes nor the files. *)
Lemma query_services_truthy svcs ips w ips' w' :
  query_services http svcs ips w = Ret ips' w' ->
  Forall (fun ip => PyStr.truthy ip = true) ips ->
  Forall (fun ip => PyStr.truthy ip = true) ips' /\ self w' = self w /\ fs w' = fs w.
Proof.
  revert ips w. induction svcs as [|[url service] svcs IH]; intros ips w H Hips.
  - cbn in H. injection H as <- <-. auto.
  - cbn [query_services] in H.
    apply bind_inv_ret in H as (r & w1 & Hr & H).
    apply bind_inv_ret in H as (ip & w2 & Hip & H).
    rewrite bind_print in H. apply IH in H.
    + destruct H as (H1 & H2 & H3). split; [exact H1|].
      cbn in H2, H3. rewrite H2, H3.
      assert (E : self w2 = self w1 /\ fs w2 = fs w1).
      { destruct (negb _).
        - injection Hip as <- <-. auto.
        - apply bind_inv_ret in Hip as (t & w3 & Ht & Hip). injection Hip as <- <-.
          destruct (r.2); cbn in Ht; [injection Ht as <- <-; auto | discriminate]. }
      destruct E as [-> ->].
      unfold http_request in Hr. destruct (http (requests w) url); [|discriminate].
      injection Hr as <- <-. auto.
    + destruct (PyStr.truthy ip) eqn:E; [|exact Hips].
      apply Forall_app. split; [exact Hips|]. now constructor.
Qed.

(** What a call of [_get_external_ip] leaves. When it returns, the files
    are as they were and nothing was reported as detected; an address
    returned is not empty and is the cached one from then on (it was
    cached already, or nothing usable was); with none returned the
    attributes are as they were and nothing usable was cached. When it
    does not return, the cache is as it was. *)
Lemma get_external_ip_spec (w : world) :
  match _get_external_ip http ip_address w with
  | Ret r w' =>
      fs w' = fs w
      /\ detected (stdout w') = detected (stdout w)
      /\ ((exists a, r = Some a /\ PyStr.truthy a = true
                     /\ _external_ip (self w') = Some a
                     /\ (_external_ip (self w) = Some a
                         \/ truthy_opt (_external_ip (self w)) = false /\ ip_address a = true))
          \/ (r = None /\ self w' = self w
              /\ truthy_opt (_external_ip (self w)) = false))
  | Exit _ w' | Raise _ w' => quiet w w'
  end.
Proof.
  unfold _get_external_ip. rewrite bind_get_self.
  destruct (truthy_opt (_external_ip (self w))) eqn:Hc.
  - cbn [ret]. repeat split. left.
    destruct (_external_ip (self w)) as [a|]; [|discriminate]. eauto 10.
  - rewrite bind_print. unfold bind at 1.
    pose proof (quiet_query_services services [] (add_out MsgQuerying w)) as Hq.
    destruct (query_services http services [] (add_out MsgQuerying w))
      as [ips w1|c w1|e w1] eqn:Eq; cbn [final] in Hq.
    2,3: (destruct Hq as [Hq1 Hq2]; split; [exact Hq1|];
          rewrite Hq2; cbn; now rewrite detected_snoc, app_nil_r).
    apply query_services_truthy in Eq as (Hips & Hself & Hfs); [|constructor].
    destruct Hq as [_ Hdet].
    assert (Hdet' : detected (stdout w1) = detected (stdout w)).
    { rewrite Hdet. cbn. now rewrite detected_snoc, app_nil_r. }
    destruct (decide (ips = [])) as [->|Hne].
    + cbn. repeat split; [exact Hfs | exact Hdet' |]. right. auto.
    + rewrite bool_decide_eq_false_2 by exact Hne. cbn [negb].
      destruct (most_common_plurality ips Hne) as (a & Hpl & ->).
      cbn [lookup list_lookup _is_valid_ip].
      destruct (ip_address a) eqn:Hvalid.
      * rewrite bind_get_self. cbn.
        repeat split; [exact Hfs | exact Hdet' |]. left. exists a.
        repeat split; [| now right].
        apply List.find_some in Hpl as [Hin _].
        rewrite Forall_forall in Hips. apply Hips. now apply list_elem_of_In.
      * cbn. repeat split; [exact Hfs | exact Hdet' |]. right. auto.
Qed.

(** A cached address is returned as it is: no request is made and the
    state does not change. *)
Lemma get_external_ip_cached (w : world) :
  truthy_opt (_external_ip (self w)) = true ->
  _get_external_ip http ip_address w = Ret (_external_ip (self w)) w.
Proof. intros H. unfold _get_external_ip. now rewrite bind_get_self, H. Qed.

Lemma keeps_cache_quiet {A} (m : M A) : preserves quiet m -> keeps_cache m.
Proof.
  intros H w Hok. specialize (H w). unfold cache_ok in *.
  destruct (m w) as [a w1|c w1|e w1]; cbn [final] in H; destruct H as [Hc Hd];
    rewrite Hc, Hd; [exact Hok | |];
    (destruct (_external_ip (self w)); [apply Hok | rewrite Hok; constructor]).
Qed.

Lemma keeps_cache_bind {A B} (m : M A) (k : A -> M B) :
  keeps_cache m -> (forall a, keeps_cache (k a)) -> keeps_cache (bind m k).
Proof.
  intros Hm Hk w Hok. unfold bind. specialize (Hm w Hok).
  destruct (m w) as [a w1|c w1|e w1]; [now apply Hk | exact Hm | exact Hm].
Qed.

(** The detection step of [_config_from_example], followed by a rest that
    reports no detected address and does not return without one. *)
Lemma keeps_cache_detect {B} (K : option string -> M B) :
  (forall ip, preserves quiet (K ip)) ->
  (forall w, returned (K None w) = None) ->
  keeps_cache
    (bind (bind (_get_external_ip http ip_address)
             (fun ip => bind (print (MsgDetectedIp ip)) (fun _ => ret ip))) K).
Proof.
  intros HK Hnone w Hok. rewrite bind_assoc. unfold bind at 1.
  pose proof (get_external_ip_spec w) as Hspec.
  destruct (_get_external_ip http ip_address w) as [r w1|c w1|e w1].
  - destruct Hspec as (_ & Hdet & Hcases).
    rewrite bind_assoc, bind_print, bind_ret_l.
    set (w2 := add_out (MsgDetectedIp r) w1).
    assert (Hdet2 : detected (stdout w2) = detected (stdout w) ++ [r]).
    { unfold w2. cbn. now rewrite detected_snoc, Hdet. }
    assert (Hw : detected (stdout w) = [] \/ _external_ip (self w) = r /\ truthy_opt r = true).
    { unfold cache_ok in Hok.
      destruct Hcases as [(a & -> & Ht & _ & [Hhit|[Hmiss _]])|(-> & _ & Hmiss)].
      - right. rewrite Hhit. auto.
      - left. destruct (_external_ip (self w)) as [b|]; [|exact Hok].
        cbn in Hmiss. destruct Hok. congruence.
      - left. destruct (_external_ip (self w)) as [b|]; [|exact Hok].
        cbn in Hmiss. destruct Hok. congruence. }
    destruct Hcases as [(a & -> & Ht & Hcache & _)|(-> & Hself & Hmiss)].
    + assert (Hok2 : cache_ok w2).
      { unfold cache_ok. change (self w2) with (self w1). rewrite Hcache.
        split; [exact Ht|]. rewrite Hdet2. apply Forall_app. split; [|now constructor].
        destruct Hw as [->|[Hw _]]; [constructor|].
        unfold cache_ok in Hok. rewrite Hw in Hok. apply Hok. }
      exact (keeps_cache_quiet _ (HK (Some a)) w2 Hok2).
    + specialize (Hnone w2). pose proof (HK None w2) as [Hq1 Hq2].
      assert (Hnil : detected (stdout w) = []).
      { destruct Hw as [|[_ Hw]]; [assumption | discriminate]. }
      assert (Hc : _external_ip (self w) = None).
      { unfold cache_ok in Hok. destruct (_external_ip (self w)) as [b|]; [|reflexivity].
        cbn in Hmiss. destruct Hok. congruence. }
      destruct (K None w2) as [b w3|c w3|e w3]; [discriminate| |];
        cbn [final] in Hq1, Hq2; rewrite Hq1, Hq2, Hdet2, Hnil;
        change (self w2) with (self w1); rewrite Hself, Hc; now constructor.
  - destruct Hspec as [Hq1 Hq2]. rewrite Hq1, Hq2.
    unfold cache_ok in Hok. destruct (_external_ip (self w)); [apply Hok|].
    rewrite Hok. constructor.
  - destruct Hspec as [Hq1 Hq2]. rewrite Hq1, Hq2.
    unfold cache_ok in Hok. destruct (_external_ip (self w)); [apply Hok|].
    rewrite Hok. constructor.
Qed.

Create HintDb keeps.

Ltac keeps_cache_tac :=
  repeat first
    [ solve [eauto with keeps]
    | apply keeps_cache_quiet; solve [preserves_tac with quiet]
    | apply keeps_cache_bind; [| intros ?]
    | match goal with
      | |- keeps_cache (if ?b then _ else _) => destruct b
      | |- keeps_cache (match ?x with _ => _ end) => destruct x
      end ].

Lemma keeps_cache_config_from_example pv ip :
  keeps_cache (_config_from_example getuser http ip_address pv ip).
Proof.
  destruct ip as [given|].
  - apply keeps_cache_quiet. unfold _config_from_example. preserves_tac with quiet.
  - unfold _config_from_example.
    apply keeps_cache_bind; [apply keeps_cache_quiet; preserves_tac with quiet | intros _].
    apply keeps_cache_bind; [apply keeps_cache_quiet; preserves_tac with quiet | intros example_there].
    apply keeps_cache_bind; [apply keeps_cache_quiet; preserves_tac with quiet | intros _].
    apply keeps_cache_detect.
    + intros ip. preserves_tac with quiet.
    + intros w. rewrite bind_guard. reflexivity.
Qed.

Hint Resolve keeps_cache_config_from_example : keeps.

Lemma keeps_cache_body platform args_ip pv c :
  keeps_cache (stage_protocols_body getuser http ip_address platform args_ip pv c).
Proof. unfold stage_protocols_body. keeps_cache_tac. Qed.

Lemma keeps_cache_loop platform args_ip pvs c :
  keeps_cache (stage_protocols_loop getuser http ip_address platform args_ip pvs c).
Proof.
  revert c. induction pvs as [|pv pvs IH]; intros c; cbn [stage_protocols_loop].
  - apply keeps_cache_quiet. preserves_tac with quiet.
  - apply keeps_cache_bind; [apply keeps_cache_body | intros c'; apply IH].
Qed.

Hint Resolve keeps_cache_loop : keeps.

Lemma keeps_cache_stage_protocols config args_ip :
  keeps_cache (stage_protocols getuser http ip_address config args_ip).
Proof. unfold stage_protocols. keeps_cache_tac. Qed.

(** A materialization with a detected address that returns: the address
    is the cached one and valid, it is the one reported, and the file
    written is the template with it in place of the placeholder. *)
Lemma config_from_example_detected (pv : string) (w w' : world) :
  _config_from_example getuser http ip_address pv None w = Ret tt w' ->
  exists a text,
    _external_ip (self w') = Some a
    /\ ip_address a = true
    /\ detected (stdout w') = detected (stdout w) ++ [Some a]
    /\ node_at (fs w) (CONFIG_PATH / pv / "config-example.toml")%path
       = Some (File (Text text))
    /\ fs w'
       = <[(if is_there w (CONFIG_PATH / pv / "config.toml")%path
            then CONFIG_PATH / pv / "config.toml.new"
            else CONFIG_PATH / pv / "config.toml")%path
           := File (Text (PyStr.replace (PyStr.universal_newlines text)
                             IP_PLACEHOLDER a))]> (fs w).
Proof.
  unfold _config_from_example, _verify_casper_user. rewrite bind_guard.
  destruct (negb (getuser =? "casper")%string); [discriminate|].
  rewrite bind_path_exists, bind_guard.
  destruct (negb (is_there w (CONFIG_PATH / pv / "config-example.toml")%path));
    [discriminate|].
  rewrite !bind_assoc. unfold bind at 1.
  pose proof (get_external_ip_spec w) as Hspec.
  destruct (_get_external_ip http ip_address w) as [r w1|c w1|e w1]; [|discriminate..].
  destruct Hspec as (Hfs & Hdet & Hcases).
  rewrite bind_assoc, bind_print, bind_ret_l, bind_guard.
  destruct r as [a|]; cbn [_is_valid_ip]; [|discriminate].
  destruct (ip_address a) eqn:Hvalid; cbn [negb]; [|discriminate].
  destruct Hcases as [(a' & [= <-] & _ & Hcache & _)|(? & _)]; [|discriminate].
  rewrite bind_path_exists.
  replace (is_there (add_out (MsgDetectedIp (Some a)) w1) (CONFIG_PATH / pv / "config.toml")%path)
    with (is_there w (CONFIG_PATH / pv / "config.toml")%path)
    by (unfold is_there; cbn [add_out fs]; now rewrite Hfs).
  set (w2 := add_out (MsgDetectedIp (Some a)) w1).
  assert (Hdet2 : detected (stdout w2) = detected (stdout w) ++ [Some a]).
  { unfold w2. cbn [add_out stdout]. now rewrite detected_snoc, Hdet. }
  assert (Hfs2 : fs w2 = fs w) by exact Hfs.
  assert (Hself2 : self w2 = self w1) by reflexivity.
  clearbody w2.
  destruct (is_there w (CONFIG_PATH / pv / "config.toml")%path).
  - rewrite !bind_assoc, bind_print, bind_assoc, bind_print, bind_ret_l.
    unfold bind at 1, read_text. cbn [add_out fs]. rewrite Hfs2.
    destruct (node_at (fs w) (CONFIG_PATH / pv / "config-example.toml")%path)
      as [[|[text|ms]]|]; try discriminate.
    unfold write_file. cbn [add_out fs]. rewrite Hfs2.
    destruct (node_at (fs w) _) as [[|?]|]; try discriminate;
      destruct (node_at (fs w) (PyPath.parent _)) as [[|?]|]; try discriminate;
      intros [= <-]; exists a, text; cbn [set_fs add_out self stdout fs];
      rewrite ?detected_snoc, ?Hself2, ?Hfs2; cbn [detected_ip];
      rewrite ?app_nil_r; auto.
  - rewrite bind_ret_l.
    unfold bind at 1, read_text. rewrite Hfs2.
    destruct (node_at (fs w) (CONFIG_PATH / pv / "config-example.toml")%path)
      as [[|[text|ms]]|]; try discriminate.
    unfold write_file. rewrite Hfs2.
    destruct (node_at (fs w) _) as [[|?]|]; try discriminate;
      destruct (node_at (fs w) (PyPath.parent _)) as [[|?]|]; try discriminate;
      intros [= <-]; exists a, text; cbn [set_fs add_out self stdout fs];
      rewrite ?Hself2, ?Hfs2; auto.
Qed.

(** C10: an address [_get_external_ip] has returned is returned by every
    later call of the process, from the cache, with no request and no
    change of state; in a run of [stage_protocols] without [--ip] that
    starts with nothing cached, every address reported as detected is the
    cached one; and a materialization that returns has written the
    template with that cached address in place of the placeholder. *)
Theorem external_ip_cached_within_run :
  (forall (w w1 : world) (a : string),
     _get_external_ip http ip_address w = Ret (Some a) w1 ->
     forall w2 : world,
       _external_ip (self w2) = _external_ip (self w1) ->
       _get_external_ip http ip_address w2 = Ret (Some a) w2)
  /\ (forall (config : string) (w : world),
        _external_ip (self w) = None ->
        detected (stdout w) = [] ->
        Forall (eq (_external_ip
                      (self (final (stage_protocols getuser http ip_address config None w)))))
          (detected
             (stdout (final (stage_protocols getuser http ip_address config None w)))))
  /\ (forall (pv : string) (w w' : world),
        _config_from_example getuser http ip_address pv None w = Ret tt w' ->
        exists a text,
          _external_ip (self w') = Some a
          /\ ip_address a = true
          /\ detected (stdout w') = detected (stdout w) ++ [Some a]
          /\ node_at (fs w) (CONFIG_PATH / pv / "config-example.toml")%path
             = Some (File (Text text))
          /\ fs w'
             = <[(if is_there w (CONFIG_PATH / pv / "config.toml")%path
                  then CONFIG_PATH / pv / "config.toml.new"
                  else CONFIG_PATH / pv / "config.toml")%path
                 := File (Text (PyStr.replace (PyStr.universal_newlines text)
                             IP_PLACEHOLDER a))]> (fs w)).
Proof.
  split; [|split].
  - intros w w1 a H w2 Hsame.
    pose proof (get_external_ip_spec w) as Hspec. rewrite H in Hspec.
    destruct Hspec as (_ & _ & [(b & [= <-] & Ht & Hcache & _)|(? & _)]); [|discriminate].
    rewrite get_external_ip_cached; rewrite Hsame, Hcache; [reflexivity | exact Ht].
  - intros config w Hnone Hdet.
    assert (Hok : cache_ok w) by (unfold cache_ok; now rewrite Hnone).
    pose proof (keeps_cache_stage_protocols config None w Hok) as H.
    destruct (stage_protocols getuser http ip_address config None w) as [[] wf|c wf|e wf];
      cbn [final]; [|exact H|exact H].
    unfold cache_ok in H. destruct (_external_ip (self wf)); [apply H|].
    rewrite H. constructor.
  - apply config_from_example_detected.
Qed.

End Cache.

(** A run over two unstaged versions while the address services change
    their answer: both [config.toml] hold the address of the first
    answer, and each service was asked once. *)
Example stage_protocols_same_detected_ip :
  node_at (fs (final (stage_protocols "casper" net_moving_address ipv4_literal
                        "casper.conf" None world_installed)))
    (CONFIG_PATH / "1_0_0" / "config.toml")%path
  = Some (File (Text "public_address = '1.2.3.4:35000'"))
  /\ node_at (fs (final (stage_protocols "casper" net_moving_address ipv4_literal
                           "casper.conf" None world_installed)))
       (CONFIG_PATH / "1_0_1" / "config.toml")%path
     = Some (File (Text "public_address = '1.2.3.4:35000'"))
  /\ List.filter (String.eqb "https://ifconfig.me")
       (requests (final (stage_protocols "casper" net_moving_address ipv4_literal
                           "casper.conf" None world_installed)))
     = ["https://ifconfig.me"].
Proof. repeat split; vm_compute; reflexivity. Qed.

(** ** Extracting an archive *)

Lemma parent_prefix (p : path) : PyPath.parent p `prefix_of` p.
Proof.
  unfold PyPath.parent. destruct (decide (p = [])) as [->|Hne]; [reflexivity|].
  exists [List.last p ""]. now apply app_removelast_last.
Qed.

#[global] Instance same_self_refl : Reflexive same_self.
Proof. intros w. reflexivity. Qed.

#[global] Instance same_self_trans : Transitive same_self.
Proof. intros w1 w2 w3 H1 H2. unfold same_self in *. congruence. Qed.

#[global] Instance grows_refl : Reflexive grows.
Proof. intros w p H. exact H. Qed.

#[global] Instance grows_trans : Transitive grows.
Proof. intros w1 w2 w3 H1 H2 p H. apply H2, H1, H. Qed.

#[global] Instance confined_to_refl target : Reflexive (confined_to target).
Proof. intros w p _. now left. Qed.

#[global] Instance confined_to_trans target : Transitive (confined_to target).
Proof.
  intros w1 w2 w3 H1 H2 p Hp.
  destruct (H1 p Hp) as [E1|(Hpre & Hn & Hd)], (H2 p Hp) as [E2|(Hpre' & Hn' & Hd')].
  - left. congruence.
  - right. rewrite <- E1. auto.
  - right. rewrite E2. auto.
  - congruence.
Qed.

Create HintDb same_self.
Create HintDb grows.
Create HintDb confined.
Create HintDb never_ioerror.

(** *** The attributes *)

Lemma same_self_print m : preserves same_self (print m).
Proof. intros w. reflexivity. Qed.

Lemma same_self_get_self : preserves same_self get_self.
Proof. intros w. reflexivity. Qed.

Lemma same_self_path_exists p : preserves same_self (path_exists p).
Proof. intros w. reflexivity. Qed.

Lemma same_self_read_text p : preserves same_self (read_text p).
Proof. intros w. unfold read_text. destruct (node_at _ _) as [[|[]]|]; reflexivity. Qed.

Lemma same_self_write_file p c : preserves same_self (write_file p c).
Proof.
  intros w. unfold write_file.
  destruct (node_at (fs w) p) as [[|?]|]; try reflexivity;
    destruct (node_at (fs w) (PyPath.parent p)) as [[|?]|]; reflexivity.
Qed.

Lemma same_self_unlink p : preserves same_self (unlink p).
Proof. intros w. unfold unlink. destruct (node_at _ _) as [[|?]|]; reflexivity. Qed.

Lemma same_self_mkdir_exist_ok p : preserves same_self (mkdir_exist_ok p).
Proof.
  intros w. unfold mkdir_exist_ok.
  destruct (node_at (fs w) p); [reflexivity|].
  destruct (node_at (fs w) (PyPath.parent p)) as [[|?]|]; reflexivity.
Qed.

Lemma same_self_tar_open p : preserves same_self (tar_open p).
Proof. intros w. unfold tar_open. destruct (node_at _ _) as [[|[]]|]; reflexivity. Qed.

Lemma same_self_makedirs_from done rest : preserves same_self (makedirs_from done rest).
Proof.
  revert done. induction rest as [|c rest IH]; intros done.
  - apply preserves_ret; typeclasses eauto.
  - cbn [makedirs_from]. apply preserves_bind; [typeclasses eauto| |intros _; apply IH].
    intros w. destruct (node_at (fs w) (done ++ [c])) as [[|?]|]; reflexivity.
Qed.

#[global] Hint Resolve same_self_print same_self_get_self same_self_path_exists
  same_self_read_text same_self_write_file same_self_unlink same_self_mkdir_exist_ok
  same_self_tar_open same_self_makedirs_from : same_self.

Lemma same_self_tar_extract m target : preserves same_self (tar_extract m target).
Proof. unfold tar_extract, makedirs. preserves_tac with same_self. Qed.
#[global] Hint Resolve same_self_tar_extract : same_self.

Lemma same_self_extract_members ms target : preserves same_self (extract_members ms target).
Proof. induction ms as [|m ms IH]; cbn [extract_members]; preserves_tac with same_self. Qed.
#[global] Hint Resolve same_self_extract_members : same_self.

Lemma same_self_extract_tar_gz src target : preserves same_self (_extract_tar_gz src target).
Proof. unfold _extract_tar_gz. preserves_tac with same_self. Qed.
#[global] Hint Resolve same_self_extract_tar_gz : same_self.

(** *** The files *)

Lemma is_there_insert (f : gmap (list string) node) (p q : path) (n : node) (w : world) :
  is_there w q = true -> is_there (set_fs (<[p := n]> (fs w)) w) q = true.
Proof.
  unfold is_there. cbn [set_fs fs]. intros H.
  destruct (decide (p = q)) as [->|Hne].
  - destruct q; [reflexivity|]. cbn. now rewrite lookup_insert_eq.
  - now rewrite node_at_insert_ne.
Qed.

Lemma grows_write_file p c : preserves grows (write_file p c).
Proof.
  intros w. unfold write_file.
  destruct (node_at (fs w) p) as [[|?]|]; try reflexivity;
    destruct (node_at (fs w) (PyPath.parent p)) as [[|?]|]; try reflexivity;
    intros q Hq; cbn [final]; now apply (is_there_insert (fs w)).
Qed.

Lemma grows_mkdir_exist_ok p : preserves grows (mkdir_exist_ok p).
Proof.
  intros w. unfold mkdir_exist_ok.
  destruct (node_at (fs w) p); [reflexivity|].
  destruct (node_at (fs w) (PyPath.parent p)) as [[|?]|]; try reflexivity.
  intros q Hq; cbn [final]; now apply (is_there_insert (fs w)).
Qed.

Lemma grows_makedirs_from done rest : preserves grows (makedirs_from done rest).
Proof.
  revert done. induction rest as [|c rest IH]; intros done.
  - apply preserves_ret; typeclasses eauto.
  - cbn [makedirs_from]. apply preserves_bind; [typeclasses eauto| |intros _; apply IH].
    intros w. destruct (node_at (fs w) (done ++ [c])) as [[|?]|]; try reflexivity.
    intros q Hq; cbn [final]; now apply (is_there_insert (fs w)).
Qed.

Lemma grows_path_exists p : preserves grows (path_exists p).
Proof. intros w. reflexivity. Qed.

#[global] Hint Resolve grows_write_file grows_mkdir_exist_ok grows_makedirs_from
  grows_path_exists : grows.

Lemma grows_tar_extract m target : preserves grows (tar_extract m target).
Proof. unfold tar_extract, makedirs. preserves_tac with grows. Qed.
#[global] Hint Resolve grows_tar_extract : grows.

Lemma grows_extract_members ms target : preserves grows (extract_members ms target).
Proof. induction ms as [|m ms IH]; cbn [extract_members]; preserves_tac with grows. Qed.

Lemma confined_path_exists target p : preserves (confined_to target) (path_exists p).
Proof. intros w. reflexivity. Qed.

Lemma confined_write_file target p c :
  target `prefix_of` p -> preserves (confined_to target) (write_file p c).
Proof.
  intros Hpre w. unfold write_file.
  destruct (node_at (fs w) p) as [[|?]|]; try reflexivity;
    destruct (node_at (fs w) (PyPath.parent p)) as [[|?]|]; try reflexivity;
    intros q Hq; left; cbn [final set_fs fs]; apply node_at_insert_ne;
    intros ->; contradiction.
Qed.

Lemma confined_mkdir_exist_ok target p :
  target `prefix_of` p -> preserves (confined_to target) (mkdir_exist_ok p).
Proof.
  intros Hpre w. unfold mkdir_exist_ok.
  destruct (node_at (fs w) p); [reflexivity|].
  destruct (node_at (fs w) (PyPath.parent p)) as [[|?]|]; try reflexivity.
  intros q Hq; left; cbn [final set_fs fs]; apply node_at_insert_ne;
    intros ->; contradiction.
Qed.

(** [makedirs] on the way to a path below [target] creates, outside
    [target], only missing directories on the way to [target]. *)
Lemma confined_makedirs_from target (k : list string) done rest :
  (done ++ rest) `prefix_of` (target ++ k) ->
  preserves (confined_to target) (makedirs_from done rest).
Proof.
  revert done. induction rest as [|c rest IH]; intros done Hpre.
  - apply preserves_ret; typeclasses eauto.
  - cbn [makedirs_from]. apply preserves_bind; [typeclasses eauto| |intros _].
    + intros w. destruct (node_at (fs w) (done ++ [c])) as [[|?]|] eqn:E; try reflexivity.
      intros q Hq. cbn [final set_fs fs].
      destruct (decide (done ++ [c] = q)) as [<-|Hne].
      * right. split; [|split].
        -- assert (H1 : (done ++ [c]) `prefix_of` (target ++ k)).
           { etransitivity; [|exact Hpre]. exists rest. now rewrite <- app_assoc. }
           destruct (prefix_weak_total _ _ _ H1 (prefix_app_r target target k (reflexivity _)))
             as [H|H]; [exact H | contradiction].
        -- exact E.
        -- apply node_at_insert_eq. now destruct done.
      * left. now apply node_at_insert_ne.
    + apply IH. now rewrite <- app_assoc.
Qed.

Lemma joinpath_relative (p : path) (name : string) :
  PyPath.is_absolute name = false -> (p / name)%path = p ++ PyPath.parts name.
Proof. intros H. unfold PyPath.joinpath. now rewrite H. Qed.

Lemma stays_below_relative (name : string) :
  stays_below name = true -> PyPath.is_absolute name = false.
Proof.
  unfold stays_below. intros H. apply andb_true_iff in H as [H _].
  now apply negb_true_iff in H.
Qed.

(** A member of relative name is extracted below the target. *)
Lemma confined_tar_extract target m :
  PyPath.is_absolute (member_name m) = false ->
  preserves (confined_to target) (tar_extract m target).
Proof.
  intros Hrel. unfold tar_extract, makedirs.
  rewrite (joinpath_relative _ _ Hrel).
  apply preserves_bind; [typeclasses eauto|apply confined_path_exists|intros there].
  apply preserves_bind; [typeclasses eauto| |intros _].
  - destruct there; [apply preserves_ret; typeclasses eauto|].
    apply (confined_makedirs_from target (PyPath.parts (member_name m))).
    apply parent_prefix.
  - destruct m; [apply confined_write_file | apply confined_mkdir_exist_ok];
      now apply prefix_app_r.
Qed.

Lemma confined_extract_members target ms :
  Forall (fun m => PyPath.is_absolute (member_name m) = false) ms ->
  preserves (confined_to target) (extract_members ms target).
Proof.
  induction 1 as [|m ms Hm Hms IH]; cbn [extract_members].
  - apply preserves_ret; typeclasses eauto.
  - apply preserves_bind; [typeclasses eauto | now apply confined_tar_extract | intros _; exact IH].
Qed.

(** C6, as amended: [_extract_tar_gz] has no test of its own on the
    names of the members. For an archive of regular files and
    directories (the members of the model: an archive with a symbolic
    or a hard link among its members is not covered, and neither is a
    filesystem with symbolic links) whose member names all stay below
    the directory they are joined to (not absolute, no [..]), whatever
    the extraction ends in, every path outside the target directory is
    as it was, except for missing directories on the way to the target,
    which are created. *)
Theorem extract_tar_gz_confined (source_file_path target_path : path) (w : world)
    (ms : list member) :
  node_at (fs w) source_file_path = Some (File (Archive ms)) ->
  Forall (fun m => stays_below (member_name m) = true) ms ->
  confined_to target_path w (final (_extract_tar_gz source_file_path target_path w)).
Proof.
  intros Hsrc Hms. unfold _extract_tar_gz. rewrite bind_print.
  unfold bind, tar_open. cbn [add_out fs]. rewrite Hsrc.
  assert (H : preserves (confined_to target_path) (extract_members ms target_path)).
  { apply confined_extract_members. eapply Forall_impl; [exact Hms|].
    intros m. apply stays_below_relative. }
  intros p Hp. specialize (H (add_out (MsgExtracting source_file_path target_path) w) p Hp).
  exact H.
Qed.

Lemma extract_tar_gz_confined_witness :
  node_at (fs (final (_extract_tar_gz ["etc"; "casper"; "config.tar.gz"]
                        ["etc"; "casper"; "1_0_0"] world_downloaded)))
    ["etc"; "passwd"]
  = node_at (fs world_downloaded) ["etc"; "passwd"]
  \/ (["etc"; "passwd"] `prefix_of` ["etc"; "casper"; "1_0_0"]
      /\ node_at (fs world_downloaded) ["etc"; "passwd"] = None
      /\ node_at (fs (final (_extract_tar_gz ["etc"; "casper"; "config.tar.gz"]
                               ["etc"; "casper"; "1_0_0"] world_downloaded)))
           ["etc"; "passwd"] = Some Dir).
Proof.
  apply (extract_tar_gz_confined ["etc"; "casper"; "config.tar.gz"]
           ["etc"; "casper"; "1_0_0"] world_downloaded
           [TarFile "chainspec.toml" chainspec_casper;
            TarFile "config-example.toml" "public_address = '<IP ADDRESS>:35000'"]).
  - vm_compute. reflexivity.
  - repeat constructor.
  - intros [k Hk]. discriminate Hk.
Defined.

(** C6, as stated, on an archive with a member of absolute name: the
    extraction into [/etc/casper/1_0_0] returns, no error is raised, and
    the member is written to [/etc/passwd]. *)
Lemma extract_tar_gz_escapes :
  returned (_extract_tar_gz ["etc"; "casper"; "config.tar.gz"] ["etc"; "casper"; "1_0_0"]
              world_downloaded_hostile) = Some tt
  /\ node_at (fs world_downloaded_hostile) ["etc"; "passwd"] = None
  /\ node_at (fs (final (_extract_tar_gz ["etc"; "casper"; "config.tar.gz"]
                           ["etc"; "casper"; "1_0_0"] world_downloaded_hostile)))
       ["etc"; "passwd"]
     = Some (File (Text "root::0:0:root:/root:/bin/sh")).
Proof. repeat split; vm_compute; reflexivity. Qed.

(** ** A fetch that fails at the binary archive *)

(** *** Downloads and their error *)

Lemma never_ioerror_ret {A} (a : A) : never_ioerror (ret a).
Proof. intros w. exact I. Qed.

Lemma never_ioerror_exit {A} (c : Z) : never_ioerror (@exit A c).
Proof. intros w. exact I. Qed.

Lemma never_ioerror_bind {A B} (m : M A) (k : A -> M B) :
  never_ioerror m -> (forall a, never_ioerror (k a)) -> never_ioerror (bind m k).
Proof.
  intros Hm Hk w. unfold bind. specialize (Hm w).
  destruct (m w) as [a w1|c w1|e w1]; [apply Hk | exact I | exact Hm].
Qed.

Lemma never_ioerror_print m : never_ioerror (print m).
Proof. intros w. exact I. Qed.

Lemma never_ioerror_path_exists p : never_ioerror (path_exists p).
Proof. intros w. exact I. Qed.

Lemma never_ioerror_write_file p c : never_ioerror (write_file p c).
Proof.
  intros w. unfold write_file.
  destruct (node_at (fs w) p) as [[|?]|]; try exact I;
    destruct (node_at (fs w) (PyPath.parent p)) as [[|?]|]; exact I.
Qed.

Lemma never_ioerror_unlink p : never_ioerror (unlink p).
Proof. intros w. unfold unlink. destruct (node_at _ _) as [[|?]|]; exact I. Qed.

Lemma never_ioerror_mkdir_exist_ok p : never_ioerror (mkdir_exist_ok p).
Proof.
  intros w. unfold mkdir_exist_ok.
  destruct (node_at (fs w) p); [exact I|].
  destruct (node_at (fs w) (PyPath.parent p)) as [[|?]|]; exact I.
Qed.

Lemma never_ioerror_tar_open p : never_ioerror (tar_open p).
Proof. intros w. unfold tar_open. destruct (node_at _ _) as [[|[]]|]; exact I. Qed.

Lemma never_ioerror_makedirs_from done rest : never_ioerror (makedirs_from done rest).
Proof.
  revert done. induction rest as [|c rest IH]; intros done.
  - apply never_ioerror_ret.
  - cbn [makedirs_from]. apply never_ioerror_bind; [|intros _; apply IH].
    intros w. destruct (node_at (fs w) (done ++ [c])) as [[|?]|]; exact I.
Qed.

#[global] Hint Resolve never_ioerror_ret never_ioerror_exit never_ioerror_print
  never_ioerror_path_exists never_ioerror_write_file never_ioerror_unlink
  never_ioerror_mkdir_exist_ok never_ioerror_tar_open never_ioerror_makedirs_from
  : never_ioerror.

Ltac never_ioerror_tac :=
  repeat first
    [ solve [eauto with never_ioerror]
    | apply never_ioerror_bind; [| intros ?]
    | match goal with
      | |- never_ioerror (if ?b then _ else _) => destruct b
      | |- never_ioerror (match ?x with _ => _ end) => destruct x
      end ].

Lemma never_ioerror_tar_extract m target : never_ioerror (tar_extract m target).
Proof. unfold tar_extract, makedirs. never_ioerror_tac. Qed.
#[global] Hint Resolve never_ioerror_tar_extract : never_ioerror.

Lemma never_ioerror_extract_members ms target : never_ioerror (extract_members ms target).
Proof. induction ms as [|m ms IH]; cbn [extract_members]; never_ioerror_tac. Qed.
#[global] Hint Resolve never_ioerror_extract_members : never_ioerror.

Lemma never_ioerror_extract_tar_gz src target : never_ioerror (_extract_tar_gz src target).
Proof. unfold _extract_tar_gz. never_ioerror_tac. Qed.
#[global] Hint Resolve never_ioerror_extract_tar_gz : never_ioerror.

Lemma never_ioerror_raise_inv {A} (m : M A) w url status w' :
  never_ioerror m -> m w = Raise (IOError url status) w' -> False.
Proof. intros H E. specialize (H w). now rewrite E in H. Qed.

(** *** What an extraction creates *)

(** In a filesystem as the system keeps it nothing is below a path that
    is not there. *)
Lemma nothing_below (f : gmap (list string) node) (p q : path) :
  fs_closed f -> node_at f p = None -> node_at f (p ++ q) = None.
Proof.
  intros Hf Hp. induction q as [|c q IH] using rev_ind; [now rewrite app_nil_r|].
  rewrite app_assoc. rewrite node_at_snoc.
  destruct (f !! ((p ++ q) ++ [c])) as [n|] eqn:E; [|reflexivity].
  apply Hf in E. cbn beta in E. unfold PyPath.parent in E.
  rewrite removelast_last in E. congruence.
Qed.

Lemma write_file_there p c w w' :
  write_file p c w = Ret tt w' -> is_there w' p = true.
Proof.
  unfold write_file, is_there.
  destruct (node_at (fs w) p) as [[|?]|] eqn:E; try discriminate;
    destruct (node_at (fs w) (PyPath.parent p)) as [[|?]|]; try discriminate;
    intros [= <-]; cbn [set_fs fs]; (destruct p; [reflexivity|]);
    cbn; now rewrite lookup_insert_eq.
Qed.

Lemma mkdir_exist_ok_there p w w' :
  mkdir_exist_ok p w = Ret tt w' -> is_there w' p = true.
Proof.
  unfold mkdir_exist_ok, is_there.
  destruct (node_at (fs w) p) as [n|] eqn:E.
  - intros [= <-]. now rewrite E.
  - destruct (node_at (fs w) (PyPath.parent p)) as [[|?]|]; try discriminate.
    intros [= <-]; cbn [set_fs fs]; (destruct p; [reflexivity|]).
    cbn; now rewrite lookup_insert_eq.
Qed.

(** After [makedirs] every directory on the way is there. *)
Lemma makedirs_from_there done rest pre w w' :
  makedirs_from done rest w = Ret tt w' ->
  pre `prefix_of` rest -> pre <> [] ->
  is_there w' (done ++ pre) = true.
Proof.
  revert done pre w. induction rest as [|c rest IH]; intros done pre w H Hpre Hne.
  - apply prefix_nil_inv in Hpre. contradiction.
  - destruct pre as [|c' pre]; [contradiction|].
    apply prefix_cons_inv_1 in Hpre as Hc. subst c'.
    apply prefix_cons_inv_2 in Hpre.
    cbn [makedirs_from] in H. apply bind_inv_ret in H as ([] & w0 & H0 & H).
    destruct pre as [|c2 pre].
    + assert (Hthere : is_there w0 (done ++ [c]) = true).
      { unfold is_there.
        destruct (node_at (fs w) (done ++ [c])) as [[|?]|] eqn:E; try discriminate;
          injection H0 as <-; [now rewrite E|].
        cbn [set_fs fs]. rewrite node_at_insert_eq; [reflexivity | now destruct done]. }
      pose proof (grows_makedirs_from (done ++ [c]) rest w0) as Hg.
      rewrite H in Hg. cbn [final] in Hg. now apply Hg.
    + replace (done ++ c :: c2 :: pre) with ((done ++ [c]) ++ c2 :: pre)
        by now rewrite <- app_assoc.
      eapply IH; [exact H | exact Hpre | discriminate].
Qed.

(** Extracting a member of relative name into a directory that is not
    there, with nothing below it, creates the directory. *)
Lemma tar_extract_target_there m target w w' :
  PyPath.is_absolute (member_name m) = false ->
  (forall q, is_there w (target ++ q) = false) ->
  tar_extract m target w = Ret tt w' ->
  is_there w' target = true.
Proof.
  intros Hrel Hnone. unfold tar_extract.
  rewrite (joinpath_relative _ _ Hrel).
  rewrite bind_path_exists.
  destruct (PyPath.parts (member_name m)) as [|c cs].
  - rewrite app_nil_r. intros H.
    apply bind_inv_ret in H as ([] & w1 & _ & H).
    destruct m; [now apply write_file_there in H | now apply mkdir_exist_ok_there in H].
  - unfold PyPath.parent. rewrite removelast_app by discriminate.
    rewrite Hnone. intros H.
    apply bind_inv_ret in H as ([] & w1 & Hmk & H).
    assert (H1 : is_there w1 target = true).
    { destruct (decide (target = [])) as [->|Hne]; [reflexivity|].
      apply (makedirs_from_there [] (target ++ removelast (c :: cs)) target w w1 Hmk);
        [now apply prefix_app_r | exact Hne]. }
    destruct m.
    + pose proof (grows_write_file (target ++ c :: cs) (Text data) w1) as Hg.
      rewrite H in Hg. now apply Hg.
    + pose proof (grows_mkdir_exist_ok (target ++ c :: cs) w1) as Hg.
      rewrite H in Hg. now apply Hg.
Qed.

Lemma append_inv_head (a b c : string) : (a ++ b = a ++ c)%string -> b = c.
Proof.
  induction a as [|x a IH]; [auto|].
  rewrite !append_cons. intros [= H]. auto.
Qed.

Lemma bin_file_for_head platform s : exists rest, bin_file_for platform s = String "b" rest.
Proof.
  unfold bin_file_for.
  destruct (negb (platform =? "deb")%string), (negb (bool_decide (_bin_mode s = Some "mainnet")));
    eexists; reflexivity.
Qed.

(** The two archives of a version have different URLs. *)
Lemma archive_url_config_bin s pv platform :
  archive_url s pv "config.tar.gz" <> archive_url s pv (bin_file_for platform s).
Proof.
  unfold archive_url. intros E. apply append_inv_head in E.
  destruct (bin_file_for_head platform s) as [rest Hb]. rewrite Hb in E.
  discriminate E.
Qed.

Lemma CONFIG_PATH_eq : CONFIG_PATH = ["etc"; "casper"].
Proof. reflexivity. Qed.

Lemma BIN_PATH_eq : BIN_PATH = ["var"; "lib"; "casper"; "bin"].
Proof. reflexivity. Qed.

Lemma write_file_ret p c w w' :
  write_file p c w = Ret tt w' -> w' = set_fs (<[p := File c]> (fs w)) w.
Proof.
  unfold write_file.
  destruct (node_at (fs w) p) as [[|?]|]; try discriminate;
    destruct (node_at (fs w) (PyPath.parent p)) as [[|?]|]; try discriminate;
    now intros [= <-].
Qed.

Lemma unlink_ret p w w' :
  unlink p w = Ret tt w' -> w' = set_fs (delete p (fs w)) w.
Proof.
  unfold unlink. destruct (node_at (fs w) p) as [[|?]|]; try discriminate.
  now intros [= <-].
Qed.

(** With the network name loaded, a version whose config directory is
    there and whose binary file is not is [CONFIG_ONLY]. *)
Lemma check_staged_version_config_only (version : string) (w : world) (n : string) :
  _network_name (self w) = Some n ->
  n <> "" ->
  is_there w (CONFIG_PATH / version)%path = true ->
  is_there w (BIN_PATH / version / "casper-node")%path = false ->
  _check_staged_version version w = Ret CONFIG_ONLY w.
Proof.
  intros Hn Hne Hc Hb. unfold _check_staged_version.
  rewrite bind_get_self, Hn, (truthy_opt_Some n Hne). cbn [negb].
  rewrite bind_ret_l, bind_path_exists, Hc. cbn [negb].
  now rewrite bind_path_exists, Hb.
Qed.

Section PullFails.

Variable getuser : string.
Variable http : list string -> string -> reply.

Lemma download_file_200 (url : string) (target_path : path) (w : world) (data : content) :
  http (requests w) url = Response 200 data ->
  _download_file http url target_path w
  = write_file target_path data (add_request url (add_out (MsgDownloading url target_path) w)).
Proof.
  intros Hr. unfold _download_file. rewrite bind_print.
  unfold bind, http_request. cbn [add_out requests]. now rewrite Hr.
Qed.

Lemma never_ioerror_fetch_rest (data : content) (archive target : path) :
  never_ioerror
    (bind (write_file archive data)
       (fun _ => bind (_extract_tar_gz archive target)
          (fun _ => bind (print (MsgDeleting archive)) (fun _ => unlink archive)))).
Proof. never_ioerror_tac. Qed.


End PullFails.


(** The same fetch, run: the filesystem is as the system keeps it, the
    fetch ends in the [IOError] of the binary archive, the chainspec is
    where the extraction put it, and the version is [CONFIG_ONLY]. *)
Example pull_config_only_run :
  fs_closed (fs (process casper_loaded []))
  /\ raised (_pull_protocol_version "casper" net_config_only "1_0_0" "deb"
               (process casper_loaded []))
     = Some (IOError "http://genesis.casperlabs.io/casper/1_0_0/bin.tar.gz" 404)
  /\ node_at (fs (final (_pull_protocol_version "casper" net_config_only "1_0_0" "deb"
                           (process casper_loaded []))))
       (CONFIG_PATH / "1_0_0" / "chainspec.toml")%path
     = Some (File (Text chainspec_casper))
  /\ returned (_check_staged_version "1_0_0"
                 (final (_pull_protocol_version "casper" net_config_only "1_0_0" "deb"
                           (process casper_loaded []))))
     = Some CONFIG_ONLY.
Proof.
  split; [apply (bool_decide_unpack _); vm_compute; exact I|].
  repeat split; vm_compute; reflexivity.
Qed.


(** ** The classifier, outcome by outcome *)

(** What [_chainspec_name] ends in, by what is at the path. *)
Lemma chainspec_name_outcome (p : path) (w : world) :
  _chainspec_name p w
  = match node_at (fs w) p with
    | Some (File (Text text)) => Ret (embedded_name text) w
    | Some (File (Archive _)) => Raise UnicodeDecodeError w
    | Some Dir => Raise (IsADirectoryError p) w
    | None => Raise (FileNotFoundError p) w
    end.
Proof.
  destruct (node_at (fs w) p) as [[|[text|ms]]|] eqn:E.
  - unfold _chainspec_name. apply bind_raise. unfold read_text. now rewrite E.
  - now apply chainspec_name_text.
  - unfold _chainspec_name. apply bind_raise. unfold read_text. now rewrite E.
  - unfold _chainspec_name. apply bind_raise. unfold read_text. now rewrite E.
Qed.

(** The classifier with the network name loaded, as a table. *)
Lemma check_staged_version_table (version : string) (w : world) (n : string) :
  _network_name (self w) = Some n ->
  n <> "" ->
  _check_staged_version version w
  = if negb (is_there w (CONFIG_PATH / version)%path)
    then Ret (if is_there w (BIN_PATH / version / "casper-node")%path
              then BIN_ONLY else UNSTAGED) w
    else if negb (is_there w (BIN_PATH / version / "casper-node")%path)
    then Ret CONFIG_ONLY w
    else if negb (is_there w (CONFIG_PATH / version / "config.toml")%path)
    then Ret NO_CONFIG w
    else match node_at (fs w) (CONFIG_PATH / version / "chainspec.toml")%path with
         | Some (File (Text text)) =>
             Ret (if bool_decide (embedded_name text = Some n) then STAGED else WRONG_NETWORK) w
         | Some (File (Archive _)) => Raise UnicodeDecodeError w
         | Some Dir => Raise (IsADirectoryError (CONFIG_PATH / version / "chainspec.toml")%path) w
         | None => Raise (FileNotFoundError (CONFIG_PATH / version / "chainspec.toml")%path) w
         end.
Proof.
  intros Hn Hne.
  unfold _check_staged_version.
  rewrite (bind_ret _ _ w (self w) w) by reflexivity.
  rewrite Hn, (truthy_opt_Some n Hne). cbn [negb].
  rewrite (bind_ret _ _ w tt w) by reflexivity.
  rewrite (bind_ret _ _ w _ w (path_exists_eq _ w)).
  destruct (is_there w (CONFIG_PATH / version)%path); cbn [negb].
  - rewrite (bind_ret _ _ w _ w (path_exists_eq _ w)).
    destruct (is_there w (BIN_PATH / version / "casper-node")%path); cbn [negb]; [|reflexivity].
    rewrite (bind_ret _ _ w _ w (path_exists_eq _ w)).
    destruct (is_there w (CONFIG_PATH / version / "config.toml")%path); cbn [negb]; [|reflexivity].
    unfold bind. rewrite chainspec_name_outcome.
    destruct (node_at (fs w) _) as [[|[text|ms]]|]; try reflexivity.
    now destruct (bool_decide (embedded_name text = Some n)).
  - rewrite (bind_ret _ _ w _ w (path_exists_eq _ w)).
    now destruct (is_there w (BIN_PATH / version / "casper-node")%path).
Qed.

(** The classifier looks at the attributes and at the files only: what
    was printed and requested before does not change what it ends in. *)
Lemma check_staged_version_frame (version : string) (w w2 : world) (n : string) (st : Status) :
  _network_name (self w) = Some n ->
  n <> "" ->
  self w2 = self w -> fs w2 = fs w ->
  _check_staged_version version w = Ret st w ->
  _check_staged_version version w2 = Ret st w2.
Proof.
  intros Hn Hne Hs Hf.
  rewrite (check_staged_version_table version w n Hn Hne).
  rewrite (check_staged_version_table version w2 n) by (now rewrite ?Hs).
  unfold is_there. rewrite !Hf.
  repeat (match goal with |- context [negb ?b] => destruct b; cbn [negb] end);
    try (intros [= <-]; reflexivity).
  destruct (node_at (fs w) _) as [[|[text|ms]]|]; try discriminate.
  intros [= <-]. reflexivity.
Qed.

(** ** Loading a network config *)

(** *** Splitting at one character *)

Lemma split_go_char (c d : ascii) (cur s : string) :
  PyStr.split_go (String c "") 0 cur (String d s)
  = if Ascii.eqb c d then cur :: PyStr.split_go (String c "") 0 "" s
    else PyStr.split_go (String c "") 0 (cur ++ String d "") s.
Proof.
  cbn [PyStr.split_go PyStr.startswith String.length Nat.sub].
  now destruct (Ascii.eqb c d).
Qed.

(** A split at a character gives one part more than the string has
    occurrences of it. *)
Lemma split_go_char_length (c : ascii) (cur s : string) :
  length (PyStr.split_go (String c "") 0 cur s) = S (count_char c s).
Proof.
  revert cur. induction s as [|d s IH]; intros cur; [reflexivity|].
  rewrite split_go_char. cbn [count_char].
  destruct (Ascii.eqb c d); cbn [length]; rewrite IH; reflexivity.
Qed.

Lemma split_go_char_none (c : ascii) (cur s : string) :
  count_char c s = 0%nat -> PyStr.split_go (String c "") 0 cur s = [(cur ++ s)%string].
Proof.
  revert cur. induction s as [|d s IH]; intros cur H.
  - now rewrite append_empty_r.
  - rewrite split_go_char. cbn [count_char] in H.
    destruct (Ascii.eqb c d); [discriminate|].
    rewrite (IH _ H), <- append_assoc. reflexivity.
Qed.

(** With exactly one occurrence the parts are what stands before it and
    what stands after it. *)
Lemma split_go_char_one (c : ascii) (cur s : string) :
  count_char c s = 1%nat ->
  PyStr.split_go (String c "") 0 cur s = [(cur ++ before_char c s)%string; after_char c s].
Proof.
  revert cur. induction s as [|d s IH]; intros cur H; [discriminate|].
  rewrite split_go_char. cbn [count_char before_char after_char] in *.
  destruct (Ascii.eqb c d).
  - rewrite append_empty_r. f_equal. apply (split_go_char_none c "" s). lia.
  - rewrite (IH _ H), <- append_assoc. reflexivity.
Qed.

(** *** The loop over the lines *)

Lemma load_config_lines_ok (lines : list string) (config : gmap string string) (w : world) :
  forallb config_line_ok lines = true ->
  load_config_lines lines config w = Ret (fold_left config_assign lines config) w.
Proof.
  revert config. induction lines as [|line lines IH]; intros config H; [reflexivity|].
  cbn [forallb] in H. apply andb_prop in H as [Hl H].
  cbn [load_config_lines fold_left]. unfold config_assign at 2.
  unfold config_line_ok in Hl.
  destruct (PyStr.truthy (PyStr.strip line)); cbn [negb orb] in Hl; [|now apply IH].
  apply Nat.eqb_eq in Hl. unfold PyStr.split.
  rewrite (split_go_char_one _ _ _ Hl), append_nil. now apply IH.
Qed.

Lemma load_config_lines_bad (lines : list string) (config : gmap string string) (w : world) :
  forallb config_line_ok lines = false ->
  load_config_lines lines config w = Raise ValueError w.
Proof.
  revert config. induction lines as [|line lines IH]; intros config H; [discriminate|].
  cbn [forallb] in H. cbn [load_config_lines].
  unfold config_line_ok in H.
  destruct (PyStr.truthy (PyStr.strip line)); cbn [negb orb] in H; [|now apply IH].
  destruct (Nat.eqb_spec (count_char "=" (PyStr.strip line)) 1) as [E|E]; cbn [andb] in H.
  - unfold PyStr.split. rewrite (split_go_char_one _ _ _ E). now apply IH.
  - pose proof (split_go_char_length "=" "" (PyStr.strip line)) as L.
    unfold PyStr.split.
    destruct (PyStr.split_go "=" 0 "" (PyStr.strip line)) as [|a [|b [|c l]]];
      cbn [length] in L; try reflexivity.
    lia.
Qed.

(** A network config with a line that is not blank and has no [=], or
    more than one, is refused with [ValueError], whatever else it holds;
    nothing is loaded. *)
Theorem load_config_values_bad_line (config : string) (w : world) (text : string) :
  node_at (fs w) (NET_CONFIG_PATH / config)%path = Some (File (Text text)) ->
  forallb config_line_ok (PyStr.splitlines text) = false ->
  _load_config_values config w = Raise ValueError w.
Proof.
  intros Hf Hbad. unfold _load_config_values.
  rewrite (bind_ret _ _ _ _ _ (read_text_Text _ _ _ Hf)), splitlines_universal_newlines.
  apply bind_raise. now apply load_config_lines_bad.
Qed.

Lemma load_config_values_bad_line_witness :
  _load_config_values "casper.conf"
    (process (mkNodeUtil None None None None)
       [(["etc"; "casper"; "network_configs"; "casper.conf"],
         File (Text ("SOURCE_URL=genesis.casperlabs.io/?net=casper" +:+ LF +:+ "NETWORK_NAME=casper" +:+ LF)))])
  = Raise ValueError
      (process (mkNodeUtil None None None None)
       [(["etc"; "casper"; "network_configs"; "casper.conf"],
         File (Text ("SOURCE_URL=genesis.casperlabs.io/?net=casper" +:+ LF +:+ "NETWORK_NAME=casper" +:+ LF)))]).
Proof.
  apply (load_config_values_bad_line "casper.conf" _
           ("SOURCE_URL=genesis.casperlabs.io/?net=casper" +:+ LF +:+ "NETWORK_NAME=casper" +:+ LF)).
  - reflexivity.
  - reflexivity.
Defined.

(** A network config whose lines are blank or hold one [=] each is
    loaded as its assignments say: without [SOURCE_URL], or else without
    [NETWORK_NAME], the call names the missing key and ends in
    [exit(1)] with nothing loaded; with both, the URL, the name and the
    mode (["mainnet"] when [BIN_MODE] is not assigned) are set, and the
    cached address, the files and the terminal stay as they are. *)
Theorem load_config_values_outcome (config : string) (w : world) (text : string) :
  node_at (fs w) (NET_CONFIG_PATH / config)%path = Some (File (Text text)) ->
  forallb config_line_ok (PyStr.splitlines text) = true ->
  _load_config_values config w
  = match config_assignments (PyStr.splitlines text) !! "SOURCE_URL",
          config_assignments (PyStr.splitlines text) !! "NETWORK_NAME" with
    | None, _ =>
        Exit 1 (add_out (MsgMissingConfigValue "SOURCE_URL" (NET_CONFIG_PATH / config)%path) w)
    | Some _, None =>
        Exit 1 (add_out (MsgMissingConfigValue "NETWORK_NAME" (NET_CONFIG_PATH / config)%path) w)
    | Some url, Some name =>
        Ret tt (set_self
                  (mkNodeUtil (Some name) (Some url)
                     (Some (default "mainnet"
                              (config_assignments (PyStr.splitlines text) !! "BIN_MODE")))
                     (_external_ip (self w))) w)
    end.
Proof.
  intros Hf Hok. unfold _load_config_values.
  rewrite (bind_ret _ _ _ _ _ (read_text_Text _ _ _ Hf)), splitlines_universal_newlines.
  rewrite (bind_ret _ _ _ _ _ (load_config_lines_ok _ _ _ Hok)).
  fold (config_assignments (PyStr.splitlines text)).
  cbn [load_config_expected].
  destruct (config_assignments (PyStr.splitlines text) !! "SOURCE_URL") as [url|] eqn:Eu.
  - destruct (config_assignments (PyStr.splitlines text) !! "NETWORK_NAME") as [name|] eqn:En.
    + reflexivity.
    + reflexivity.
  - reflexivity.
Qed.

Lemma load_config_values_outcome_witness :
  _load_config_values "casper.conf" world_installed
  = Ret tt (set_self (mkNodeUtil (Some "casper") (Some "genesis.casperlabs.io")
                        (Some "mainnet") None) world_installed).
Proof.
  apply (load_config_values_outcome "casper.conf" world_installed
           ("SOURCE_URL=genesis.casperlabs.io" +:+ LF +:+ "NETWORK_NAME=casper" +:+ LF)).
  - reflexivity.
  - reflexivity.
Defined.

(** ** The commands that only look *)

#[global] Instance same_fs_refl : Reflexive same_fs.
Proof. intros w. reflexivity. Qed.

#[global] Instance same_fs_trans : Transitive same_fs.
Proof. intros w1 w2 w3 H1 H2. unfold same_fs in *. congruence. Qed.

Create HintDb same_fs.

Lemma same_fs_print m : preserves same_fs (print m).
Proof. intros w. reflexivity. Qed.

Lemma same_fs_get_self : preserves same_fs get_self.
Proof. intros w. reflexivity. Qed.

Lemma same_fs_put_self s : preserves same_fs (put_self s).
Proof. intros w. reflexivity. Qed.

Lemma same_fs_path_exists p : preserves same_fs (path_exists p).
Proof. intros w. reflexivity. Qed.

Lemma same_fs_read_text p : preserves same_fs (read_text p).
Proof. intros w. unfold read_text. destruct (node_at _ _) as [[|[]]|]; reflexivity. Qed.

Lemma same_fs_decode d : preserves same_fs (decode d).
Proof. destruct d; intros w; reflexivity. Qed.

#[global] Hint Resolve same_fs_print same_fs_get_self same_fs_put_self same_fs_path_exists
  same_fs_read_text same_fs_decode : same_fs.

Lemma same_fs_chainspec_name_lines lines : preserves same_fs (chainspec_name_lines lines).
Proof. induction lines as [|l lines IH]; cbn [chainspec_name_lines]; preserves_tac with same_fs. Qed.
#[global] Hint Resolve same_fs_chainspec_name_lines : same_fs.

Lemma same_fs_chainspec_name p : preserves same_fs (_chainspec_name p).
Proof. unfold _chainspec_name. preserves_tac with same_fs. Qed.
#[global] Hint Resolve same_fs_chainspec_name : same_fs.

Lemma same_fs_check_staged_version pv : preserves same_fs (_check_staged_version pv).
Proof. unfold _check_staged_version. preserves_tac with same_fs. Qed.
#[global] Hint Resolve same_fs_check_staged_version : same_fs.

Lemma same_fs_network_url : preserves same_fs _network_url.
Proof. unfold _network_url. preserves_tac with same_fs. Qed.
#[global] Hint Resolve same_fs_network_url : same_fs.

Lemma same_fs_load_config_lines lines config : preserves same_fs (load_config_lines lines config).
Proof.
  revert config. induction lines as [|l lines IH]; intros config;
    cbn [load_config_lines]; preserves_tac with same_fs.
Qed.
#[global] Hint Resolve same_fs_load_config_lines : same_fs.

Lemma same_fs_load_config_expected keys file_path config :
  preserves same_fs (load_config_expected keys file_path config).
Proof. induction keys as [|k keys IH]; cbn [load_config_expected]; preserves_tac with same_fs. Qed.
#[global] Hint Resolve same_fs_load_config_expected : same_fs.

Lemma same_fs_load_config_values config : preserves same_fs (_load_config_values config).
Proof. unfold _load_config_values. preserves_tac with same_fs. Qed.
#[global] Hint Resolve same_fs_load_config_values : same_fs.

Section Looking.

Variable http : list string -> string -> reply.

Lemma same_fs_http_request url : preserves same_fs (http_request http url).
Proof. intros w. unfold http_request. destruct (http _ _); reflexivity. Qed.
Hint Resolve same_fs_http_request : same_fs.

Lemma same_fs_get_protocols : preserves same_fs (_get_protocols http).
Proof. unfold _get_protocols. preserves_tac with same_fs. Qed.
Hint Resolve same_fs_get_protocols : same_fs.

Lemma same_fs_check_protocols_loop pvs c : preserves same_fs (check_protocols_loop pvs c).
Proof.
  revert c. induction pvs as [|pv pvs IH]; intros c; cbn [check_protocols_loop];
    preserves_tac with same_fs.
Qed.
Hint Resolve same_fs_check_protocols_loop : same_fs.

(** [check_protocols] and [check_for_upgrade] write nothing: whatever
    they end in (an exit code, or an exception of the loader, of the
    request, or of the classifier), every file is as it was. *)
Theorem check_commands_read_only (config : string) :
  preserves same_fs (check_protocols http config)
  /\ preserves same_fs (check_for_upgrade http config).
Proof.
  split.
  - unfold check_protocols. preserves_tac with same_fs.
  - unfold check_for_upgrade. preserves_tac with same_fs.
Qed.

(** What [_get_protocols] ends in, by what the server answers. *)
Lemma get_protocols_outcome (w : world) :
  _get_protocols http w
  = match http (requests w) (protocol_versions_url (self w)) with
    | Response status data =>
        if (status =? 200)%Z
        then match data with
             | Text pv => Ret (map PyStr.strip (PyStr.splitlines pv))
                              (add_request (protocol_versions_url (self w)) w)
             | Archive _ => Raise UnicodeDecodeError
                              (add_request (protocol_versions_url (self w)) w)
             end
        else Raise (IOError (protocol_versions_url (self w)) status)
                   (add_request (protocol_versions_url (self w)) w)
    | NoResponse => Raise (MaxRetryError (protocol_versions_url (self w)))
                          (add_request (protocol_versions_url (self w)) w)
    end.
Proof.
  unfold _get_protocols, _network_url. rewrite bind_assoc, bind_get_self, bind_ret_l.
  fold (protocol_versions_url (self w)).
  unfold bind, http_request.
  destruct (http (requests w) _) as [status data|]; [|reflexivity].
  cbn [fst snd]. destruct (status =? 200)%Z; cbn [negb]; [|reflexivity].
  now destruct data.
Qed.

(** What [_get_protocols] leaves behind when it returns: one request
    more, and nothing else. *)
Lemma get_protocols_ret (w w' : world) (pvs : list string) :
  _get_protocols http w = Ret pvs w' ->
  self w' = self w /\ fs w' = fs w /\ stdout w' = stdout w.
Proof.
  rewrite get_protocols_outcome.
  destruct (http (requests w) _) as [status data|]; [|discriminate].
  destruct (status =? 200)%Z; [|discriminate].
  destruct data; [|discriminate].
  intros [= _ <-]. auto.
Qed.

(** The loop of [check_protocols] over versions that can be classified:
    the exit code is 1 as soon as one of them is not staged, and one
    line is printed for each, in the order of the catalog. *)
Lemma check_protocols_loop_spec (n : string) (pvs : list string) (sts : list Status)
    (c : Z) (w w2 : world) :
  _network_name (self w) = Some n ->
  n <> "" ->
  self w2 = self w -> fs w2 = fs w ->
  Forall2 (fun pv st => _check_staged_version pv w = Ret st w) pvs sts ->
  check_protocols_loop pvs c w2
  = Ret (if bool_decide (Forall (eq STAGED) sts) then c else 1%Z)
        (add_outs (status_report pvs sts) w2).
Proof.
  intros Hn Hne Hs Hf H. revert c w2 Hs Hf.
  induction H as [|pv st pvs sts Hst _ IH]; intros c w2 Hs Hf.
  - cbn. unfold ret, add_outs. rewrite app_nil_r. now destruct w2.
  - cbn [check_protocols_loop].
    rewrite (bind_ret _ _ _ _ _ (check_staged_version_frame _ _ _ _ _ Hn Hne Hs Hf Hst)).
    rewrite bind_print, IH by (cbn; assumption).
    f_equal.
    + destruct (decide (st = STAGED)) as [->|Hst'].
      * rewrite (bool_decide_eq_true_2 (STAGED = STAGED)) by reflexivity. cbn [negb].
        rewrite (bool_decide_ext (Forall (eq STAGED) (STAGED :: sts)) (Forall (eq STAGED) sts));
          [reflexivity | split; [now inversion 1 | now constructor]].
      * rewrite (bool_decide_eq_false_2 (st = STAGED)) by assumption. cbn [negb].
        rewrite (bool_decide_eq_false_2 (Forall (eq STAGED) (st :: sts))).
        2:{ intros HF. apply Hst'. now inversion HF. }
        now destruct (bool_decide _).
    + unfold add_outs, add_out. cbn. now rewrite <- app_assoc.
Qed.

(** [check_protocols] ends in [exit(0)] exactly when every version of the
    catalog is staged, and in [exit(1)] otherwise, for a catalog whose
    versions can all be classified; it prints the status of every
    version, staged or not. *)
Theorem check_protocols_exit_code (config : string) (w w1 w2 : world) (n : string)
    (pvs : list string) (sts : list Status) :
  _load_config_values config w = Ret tt w1 ->
  _network_name (self w1) = Some n ->
  n <> "" ->
  _get_protocols http w1 = Ret pvs w2 ->
  Forall2 (fun pv st => _check_staged_version pv w1 = Ret st w1) pvs sts ->
  check_protocols http config w
  = Exit (if bool_decide (Forall (eq STAGED) sts) then 0%Z else 1%Z)
         (add_outs (status_report pvs sts) w2).
Proof.
  intros Hl Hn Hne Hp Hsts. unfold check_protocols.
  rewrite (bind_ret _ _ _ _ _ Hl), (bind_ret _ _ _ _ _ Hp).
  destruct (get_protocols_ret _ _ _ Hp) as (Hs & Hf & _).
  now rewrite (bind_ret _ _ _ _ _ (check_protocols_loop_spec n pvs sts 0 w1 w2 Hn Hne Hs Hf Hsts)).
Qed.

(** [check_for_upgrade] looks at the last version of the catalog only:
    it prints its status and ends in [exit(1)] when that version is
    unstaged, and ends in [exit(0)] without a word for every other
    status, whatever the earlier versions are. *)
Theorem check_for_upgrade_exit_code (config : string) (w w1 w2 : world) (n : string)
    (pvs : list string) (last_protocol : string) (st : Status) :
  _load_config_values config w = Ret tt w1 ->
  _network_name (self w1) = Some n ->
  n <> "" ->
  _get_protocols http w1 = Ret (pvs ++ [last_protocol]) w2 ->
  _check_staged_version last_protocol w1 = Ret st w1 ->
  check_for_upgrade http config w
  = if bool_decide (st = UNSTAGED)
    then Exit 1 (add_out (MsgStatus last_protocol (_status_text UNSTAGED)) w2)
    else Exit 0 w2.
Proof.
  intros Hl Hn Hne Hp Hst. unfold check_for_upgrade.
  rewrite (bind_ret _ _ _ _ _ Hl), (bind_ret _ _ _ _ _ Hp).
  rewrite last_snoc, bind_ret_l.
  destruct (get_protocols_ret _ _ _ Hp) as (Hs & Hf & _).
  rewrite (bind_ret _ _ _ _ _ (check_staged_version_frame _ _ _ _ _ Hn Hne Hs Hf Hst)).
  destruct (decide (st = UNSTAGED)) as [->|Hu].
  - rewrite !(bool_decide_eq_true_2 (UNSTAGED = UNSTAGED)) by reflexivity. now rewrite bind_print.
  - now rewrite !bool_decide_eq_false_2 by assumption.
Qed.

(** A catalog without a line leaves [check_for_upgrade] no last version:
    the command ends in [IndexError], not in an exit code. *)
Theorem check_for_upgrade_empty_catalog (config : string) (w w1 : world) :
  _load_config_values config w = Ret tt w1 ->
  http (requests w1) (protocol_versions_url (self w1)) = Response 200 (Text "") ->
  check_for_upgrade http config w
  = Raise IndexError (add_request (protocol_versions_url (self w1)) w1).
Proof.
  intros Hl Hr. unfold check_for_upgrade.
  rewrite (bind_ret _ _ _ _ _ Hl).
  assert (Hp : _get_protocols http w1
               = Ret [] (add_request (protocol_versions_url (self w1)) w1))
    by now rewrite get_protocols_outcome, Hr.
  rewrite (bind_ret _ _ _ _ _ Hp). now apply bind_raise.
Qed.

End Looking.

Lemma check_protocols_exit_code_witness :
  check_protocols net_one_version "casper.conf" world_installed_staged
  = Exit 0
      (add_outs (status_report ["1_0_0"] [STAGED])
         (add_request "http://genesis.casperlabs.io/casper/protocol_versions"
            (set_self casper_loaded world_installed_staged))).
Proof.
  apply (check_protocols_exit_code net_one_version "casper.conf" world_installed_staged
           (set_self casper_loaded world_installed_staged)
           (add_request "http://genesis.casperlabs.io/casper/protocol_versions"
              (set_self casper_loaded world_installed_staged))
           "casper" ["1_0_0"] [STAGED]).
  - reflexivity.
  - reflexivity.
  - discriminate.
  - reflexivity.
  - constructor; [reflexivity | constructor].
Defined.

Lemma check_for_upgrade_exit_code_witness :
  check_for_upgrade net_one_version "casper.conf" world_installed
  = Exit 1
      (add_out (MsgStatus "1_0_0" (_status_text UNSTAGED))
         (add_request "http://genesis.casperlabs.io/casper/protocol_versions"
            (set_self casper_loaded world_installed))).
Proof.
  apply (check_for_upgrade_exit_code net_one_version "casper.conf" world_installed
           (set_self casper_loaded world_installed)
           (add_request "http://genesis.casperlabs.io/casper/protocol_versions"
              (set_self casper_loaded world_installed))
           "casper" [] "1_0_0" UNSTAGED).
  - reflexivity.
  - reflexivity.
  - discriminate.
  - reflexivity.
  - reflexivity.
Defined.

Lemma check_for_upgrade_empty_catalog_witness :
  check_for_upgrade net_empty_catalog "casper.conf" world_installed
  = Raise IndexError
      (add_request (protocol_versions_url casper_loaded) (set_self casper_loaded world_installed)).
Proof.
  apply (check_for_upgrade_empty_catalog net_empty_catalog "casper.conf" world_installed
           (set_self casper_loaded world_installed)).
  - reflexivity.
  - reflexivity.
Defined.



(** [_chainspec_name] takes the name from the first line that starts
    with [name = '] and looks no further: with such a line
    [name = 'v'...] (no quote and no [=] in [v]) after lines that do not
    start so, it returns [v], whatever stands behind the closing quote
    and whatever the lines after it hold. *)
Theorem chainspec_name_first_match (chainspec_path : path) (w : world)
    (text : string) (before after : list string) (v tail : string) :
  node_at (fs w) chainspec_path = Some (File (Text text)) ->
  PyStr.splitlines text = before ++ (NAME_DATA ++ v ++ String "'" tail)%string :: after ->
  Forall (fun line => PyStr.startswith NAME_DATA line = false) before ->
  has_char "=" v = false ->
  has_char "'" v = false ->
  _chainspec_name chainspec_path w = Ret (Some v) w.
Proof.
  intros Hf Hl Hb He Hq.
  rewrite (chainspec_name_text _ _ _ Hf).
  unfold embedded_name. rewrite Hl.
  assert (Hfind : List.find (PyStr.startswith NAME_DATA)
                    (before ++ (NAME_DATA ++ v ++ String "'" tail)%string :: after)
                  = Some (NAME_DATA ++ v ++ String "'" tail)%string).
  { clear -Hb. induction Hb as [|line before Hline _ IH].
    - cbn [app List.find]. now rewrite startswith_app.
    - cbn [app List.find]. now rewrite Hline. }
  rewrite Hfind. cbn [fmap option_fmap option_map].
  now rewrite (name_value_quoted _ _ He Hq).
Qed.

Lemma chainspec_name_first_match_witness :
  _chainspec_name (CONFIG_PATH / "1_0_0" / "chainspec.toml")%path world_two_names
  = Ret (Some "casper") world_two_names.
Proof.
  apply (chainspec_name_first_match (CONFIG_PATH / "1_0_0" / "chainspec.toml")%path
           world_two_names chainspec_two_names
           ["[protocol]"; "version = '1.0.0'"; "[network]"] ["[highway]"; "name = 'other'"]
           "casper" " # the network").
  - reflexivity.
  - reflexivity.
  - repeat constructor.
  - reflexivity.
  - reflexivity.
Defined.

(** ** Exit codes, and what a command that exits has done *)

Lemma bind_inv_exit {A B} (m : M A) (k : A -> M B) w c w' :
  bind m k w = Exit c w' ->
  m w = Exit c w' \/ exists a w1, m w = Ret a w1 /\ k a w1 = Exit c w'.
Proof.
  unfold bind. destruct (m w) as [a w1|c1 w1|e w1]; [eauto | | discriminate].
  intros [= <- <-]. now left.
Qed.

Lemma preserves_ret_inv {A} (R : world -> world -> Prop) (m : M A) w a w' :
  preserves R m -> m w = Ret a w' -> R w w'.
Proof. intros H E. specialize (H w). now rewrite E in H. Qed.

(** *** No exit code but 1 *)

Lemma exits_1_ret {A} (a : A) : exits_1 (ret a).
Proof. intros w. exact I. Qed.

Lemma exits_1_raise {A} (e : exn) : exits_1 (@raise A e).
Proof. intros w. exact I. Qed.

Lemma exits_1_exit {A} : exits_1 (@exit A 1).
Proof. intros w. reflexivity. Qed.

Lemma exits_1_bind {A B} (m : M A) (k : A -> M B) :
  exits_1 m -> (forall a, exits_1 (k a)) -> exits_1 (bind m k).
Proof.
  intros Hm Hk w. unfold bind. specialize (Hm w).
  destruct (m w) as [a w1|c w1|e w1]; [apply Hk | exact Hm | exact I].
Qed.

Lemma exits_1_print m : exits_1 (print m).
Proof. intros w. exact I. Qed.

Lemma exits_1_get_self : exits_1 get_self.
Proof. intros w. exact I. Qed.

Lemma exits_1_put_self s : exits_1 (put_self s).
Proof. intros w. exact I. Qed.

Lemma exits_1_path_exists p : exits_1 (path_exists p).
Proof. intros w. exact I. Qed.

Lemma exits_1_read_text p : exits_1 (read_text p).
Proof. intros w. unfold read_text. now destruct (node_at _ _) as [[|[]]|]. Qed.

Lemma exits_1_write_file p c : exits_1 (write_file p c).
Proof.
  intros w. unfold write_file.
  destruct (node_at (fs w) p) as [[|?]|]; try exact I;
    now destruct (node_at (fs w) (PyPath.parent p)) as [[|?]|].
Qed.

Lemma exits_1_unlink p : exits_1 (unlink p).
Proof. intros w. unfold unlink. now destruct (node_at _ _) as [[|?]|]. Qed.

Lemma exits_1_mkdir_exist_ok p : exits_1 (mkdir_exist_ok p).
Proof.
  intros w. unfold mkdir_exist_ok.
  destruct (node_at (fs w) p); [exact I|].
  now destruct (node_at (fs w) (PyPath.parent p)) as [[|?]|].
Qed.

Lemma exits_1_tar_open p : exits_1 (tar_open p).
Proof. intros w. unfold tar_open. now destruct (node_at _ _) as [[|[]]|]. Qed.

Lemma exits_1_decode d : exits_1 (decode d).
Proof. now destruct d; intros w. Qed.

Lemma exits_1_makedirs_from done rest : exits_1 (makedirs_from done rest).
Proof.
  revert done. induction rest as [|c rest IH]; intros done; [apply exits_1_ret|].
  cbn [makedirs_from]. apply exits_1_bind; [|intros _; apply IH].
  intros w. now destruct (node_at (fs w) (done ++ [c])) as [[|?]|].
Qed.

Create HintDb exits_1.
#[global] Hint Resolve exits_1_ret exits_1_raise exits_1_exit exits_1_print exits_1_get_self
  exits_1_put_self exits_1_path_exists exits_1_read_text exits_1_write_file exits_1_unlink
  exits_1_mkdir_exist_ok exits_1_tar_open exits_1_decode exits_1_makedirs_from : exits_1.

Ltac exits_1_tac :=
  repeat first
    [ solve [eauto with exits_1]
    | apply exits_1_bind; [ | intros ?]
    | match goal with
      | |- exits_1 (if ?b then _ else _) => destruct b
      | |- exits_1 (match ?x with _ => _ end) => destruct x
      end ].

Lemma exits_1_tar_extract m target : exits_1 (tar_extract m target).
Proof. unfold tar_extract, makedirs. exits_1_tac. Qed.
#[global] Hint Resolve exits_1_tar_extract : exits_1.

Lemma exits_1_extract_members ms target : exits_1 (extract_members ms target).
Proof. induction ms as [|m ms IH]; cbn [extract_members]; exits_1_tac. Qed.
#[global] Hint Resolve exits_1_extract_members : exits_1.

Lemma exits_1_extract_tar_gz src target : exits_1 (_extract_tar_gz src target).
Proof. unfold _extract_tar_gz. exits_1_tac. Qed.
#[global] Hint Resolve exits_1_extract_tar_gz : exits_1.

Lemma exits_1_chainspec_name_lines lines : exits_1 (chainspec_name_lines lines).
Proof. induction lines as [|l lines IH]; cbn [chainspec_name_lines]; exits_1_tac. Qed.
#[global] Hint Resolve exits_1_chainspec_name_lines : exits_1.

Lemma exits_1_chainspec_name p : exits_1 (_chainspec_name p).
Proof. unfold _chainspec_name. exits_1_tac. Qed.
#[global] Hint Resolve exits_1_chainspec_name : exits_1.

Lemma exits_1_check_staged_version pv : exits_1 (_check_staged_version pv).
Proof. unfold _check_staged_version. exits_1_tac. Qed.
#[global] Hint Resolve exits_1_check_staged_version : exits_1.

Lemma exits_1_get_platform : exits_1 _get_platform.
Proof. unfold _get_platform. exits_1_tac. Qed.
#[global] Hint Resolve exits_1_get_platform : exits_1.

Lemma exits_1_network_url : exits_1 _network_url.
Proof. unfold _network_url. exits_1_tac. Qed.
#[global] Hint Resolve exits_1_network_url : exits_1.

Lemma exits_1_load_config_lines lines config : exits_1 (load_config_lines lines config).
Proof.
  revert config. induction lines as [|l lines IH]; intros config;
    cbn [load_config_lines]; exits_1_tac.
Qed.
#[global] Hint Resolve exits_1_load_config_lines : exits_1.

Lemma exits_1_load_config_expected keys file_path config :
  exits_1 (load_config_expected keys file_path config).
Proof. induction keys as [|k keys IH]; cbn [load_config_expected]; exits_1_tac. Qed.
#[global] Hint Resolve exits_1_load_config_expected : exits_1.

Lemma exits_1_load_config_values config : exits_1 (_load_config_values config).
Proof. unfold _load_config_values. exits_1_tac. Qed.
#[global] Hint Resolve exits_1_load_config_values : exits_1.

(** What the steps before the loop leave when they return. *)
Lemma load_config_lines_ret lines config w cfg w' :
  load_config_lines lines config w = Ret cfg w' -> w' = w.
Proof.
  revert config. induction lines as [|l lines IH]; intros config; cbn [load_config_lines].
  - now intros [= _ <-].
  - destruct (PyStr.truthy _); [|apply IH].
    destruct (PyStr.split _ _) as [|a [|b [|c l']]]; try discriminate. apply IH.
Qed.

Lemma load_config_expected_ret keys file_path config w w' :
  load_config_expected keys file_path config w = Ret tt w' -> w' = w.
Proof.
  induction keys as [|k keys IH]; cbn [load_config_expected].
  - now intros [= <-].
  - destruct (config !! k); [exact IH|]. rewrite bind_print. discriminate.
Qed.

Lemma load_config_values_ret config w w' :
  _load_config_values config w = Ret tt w' ->
  fs w' = fs w /\ stdout w' = stdout w /\ requests w' = requests w
  /\ _external_ip (self w') = _external_ip (self w).
Proof.
  unfold _load_config_values. intros H.
  apply bind_inv_ret in H as (text & w1 & H1 & H).
  apply bind_inv_ret in H as (cfg & w2 & H2 & H).
  apply bind_inv_ret in H as ([] & w3 & H3 & H).
  rewrite bind_get_self in H. injection H as <-.
  apply load_config_expected_ret in H3 as ->.
  apply load_config_lines_ret in H2 as ->.
  unfold read_text in H1. destruct (node_at _ _) as [[|[]]|]; try discriminate.
  injection H1 as _ <-. auto.
Qed.

Lemma get_platform_ret w p w' : _get_platform w = Ret p w' -> w' = w.
Proof.
  unfold _get_platform. rewrite bind_path_exists.
  destruct (is_there w PLATFORM_PATH); [|now intros [= _ <-]].
  intros H. apply bind_inv_ret in H as (text & w1 & H1 & H). injection H as _ <-.
  unfold read_text in H1. destruct (node_at _ _) as [[|[]]|]; try discriminate.
  now injection H1 as _ <-.
Qed.

Section ExitCodes.

Variable getuser : string.
Variable http : list string -> string -> reply.
Variable ip_address : string -> bool.

Lemma exits_1_verify_casper_user : exits_1 (_verify_casper_user getuser).
Proof. unfold _verify_casper_user. exits_1_tac. Qed.
Hint Resolve exits_1_verify_casper_user : exits_1.

Lemma exits_1_http_request url : exits_1 (http_request http url).
Proof. intros w. unfold http_request. now destruct (http _ _). Qed.
Hint Resolve exits_1_http_request : exits_1.

Lemma exits_1_get_protocols : exits_1 (_get_protocols http).
Proof. unfold _get_protocols. exits_1_tac. Qed.
Hint Resolve exits_1_get_protocols : exits_1.

Lemma exits_1_download_file url p : exits_1 (_download_file http url p).
Proof. unfold _download_file. exits_1_tac. Qed.
Hint Resolve exits_1_download_file : exits_1.

Lemma exits_1_pull_protocol_version pv platform :
  exits_1 (_pull_protocol_version getuser http pv platform).
Proof. unfold _pull_protocol_version. exits_1_tac. Qed.
Hint Resolve exits_1_pull_protocol_version : exits_1.

Lemma exits_1_query_services svcs ips : exits_1 (query_services http svcs ips).
Proof.
  revert ips. induction svcs as [|[url service] svcs IH]; intros ips;
    cbn [query_services]; exits_1_tac.
Qed.
Hint Resolve exits_1_query_services : exits_1.

Lemma exits_1_get_external_ip : exits_1 (_get_external_ip http ip_address).
Proof. unfold _get_external_ip. exits_1_tac. Qed.
Hint Resolve exits_1_get_external_ip : exits_1.

Lemma exits_1_config_from_example pv ip :
  exits_1 (_config_from_example getuser http ip_address pv ip).
Proof. unfold _config_from_example. exits_1_tac. Qed.
Hint Resolve exits_1_config_from_example : exits_1.

Lemma exits_1_stage_protocols_body platform args_ip pv c :
  exits_1 (stage_protocols_body getuser http ip_address platform args_ip pv c).
Proof. unfold stage_protocols_body. exits_1_tac. Qed.
Hint Resolve exits_1_stage_protocols_body : exits_1.

Lemma exits_1_stage_protocols_loop platform args_ip pvs c :
  exits_1 (stage_protocols_loop getuser http ip_address platform args_ip pvs c).
Proof.
  revert c. induction pvs as [|pv pvs IH]; intros c; cbn [stage_protocols_loop]; exits_1_tac.
Qed.

(** A turn of the loop that comes back either has set the exit code to
    1, or has left it, the files, the attributes and the requests as
    they were. *)
Lemma stage_protocols_body_cases platform args_ip pv c w c' w' :
  stage_protocols_body getuser http ip_address platform args_ip pv c w = Ret c' w' ->
  c' = 1%Z
  \/ (c' = c /\ fs w' = fs w /\ requests w' = requests w /\ self w' = self w).
Proof.
  intros H. pose proof H as H0. unfold stage_protocols_body in H.
  apply bind_inv_ret in H as (st & w1 & Hst & H).
  pose proof (check_staged_version_ret _ _ _ _ Hst) as ->.
  destruct st; decide_status; cbv iota in H.
  - left. eapply stage_protocols_body_flags; [exact Hst | now left | exact H0].
  - left. eapply stage_protocols_body_flags; [exact Hst | now right | exact H0].
  - rewrite bind_print in H. injection H as <- <-. now left.
  - rewrite bind_print in H. injection H as <- <-. now left.
  - rewrite bind_print in H. injection H as <- <-. right. auto.
  - rewrite bind_ret_l in H. injection H as <- <-. right. auto.
Qed.

Lemma stage_protocols_loop_cases platform args_ip pvs c w c' w' :
  stage_protocols_loop getuser http ip_address platform args_ip pvs c w = Ret c' w' ->
  c' = 1%Z
  \/ (c' = c /\ fs w' = fs w /\ requests w' = requests w /\ self w' = self w).
Proof.
  revert c w. induction pvs as [|pv pvs IH]; intros c w H.
  - cbn in H. injection H as <- <-. right. auto.
  - cbn [stage_protocols_loop] in H.
    apply bind_inv_ret in H as (c1 & w1 & Hb & H).
    apply stage_protocols_body_cases in Hb as [-> | (-> & Hf & Hr & Hs)].
    + apply IH in H as [-> | (-> & _)]; now left.
    + apply IH in H as [-> | (-> & Hf' & Hr' & Hs')]; [now left|].
      right. repeat split; congruence.
Qed.

(** A run of [stage_protocols] that ends in [exit(0)] has done nothing
    but look: no file is changed, and the one request made is the one
    for the catalog. Every fetch and every materialization that comes
    back sets the exit code to 1. *)
Theorem stage_protocols_exit_0_idle (config : string) (args_ip : option string)
    (w w' : world) :
  stage_protocols getuser http ip_address config args_ip w = Exit 0 w' ->
  fs w' = fs w
  /\ requests w' = requests w ++ [protocol_versions_url (self w')].
Proof.
  unfold stage_protocols. intros H.
  apply bind_inv_exit in H as [H | ([] & w1 & Hl & H)].
  { pose proof (exits_1_load_config_values config w) as E. now rewrite H in E. }
  apply bind_inv_exit in H as [H | ([] & w2 & Hv & H)].
  { pose proof (exits_1_verify_casper_user w1) as E. now rewrite H in E. }
  apply bind_inv_exit in H as [H | (platform & w3 & Hp & H)].
  { pose proof (exits_1_get_platform w2) as E. now rewrite H in E. }
  apply bind_inv_exit in H as [H | (pvs & w4 & Hg & H)].
  { pose proof (exits_1_get_protocols w3) as E. now rewrite H in E. }
  apply bind_inv_exit in H as [H | (c & w5 & Hloop & H)].
  { pose proof (exits_1_stage_protocols_loop platform args_ip pvs 0 w4) as E.
    now rewrite H in E. }
  injection H as -> ->.
  apply stage_protocols_loop_cases in Hloop as [? | (_ & Hf5 & Hr5 & Hs5)]; [discriminate|].
  apply get_platform_ret in Hp as ->.
  assert (w2 = w1) as ->.
  { unfold _verify_casper_user in Hv. destruct (negb _); [|now injection Hv].
    rewrite bind_print in Hv. discriminate. }
  apply load_config_values_ret in Hl as (Hf1 & _ & Hr1 & _).
  rewrite get_protocols_outcome in Hg.
  destruct (http (requests w1) _) as [status data|]; [|discriminate].
  destruct (status =? 200)%Z; [|discriminate].
  destruct data; [|discriminate].
  injection Hg as _ <-. cbn [add_request fs requests self] in *.
  rewrite Hf5, Hr5, Hs5, Hf1, Hr1. auto.
Qed.

End ExitCodes.

Lemma stage_protocols_exit_0_idle_witness :
  fs (add_request "http://genesis.casperlabs.io/casper/protocol_versions"
        (set_self casper_loaded world_other_network))
  = fs world_other_network
  /\ requests (add_request "http://genesis.casperlabs.io/casper/protocol_versions"
                 (set_self casper_loaded world_other_network))
     = requests world_other_network
       ++ [protocol_versions_url
             (self (add_request "http://genesis.casperlabs.io/casper/protocol_versions"
                      (set_self casper_loaded world_other_network)))].
Proof.
  apply (stage_protocols_exit_0_idle "casper" net_one_version ipv4_literal "casper.conf" None
           world_other_network).
  reflexivity.
Defined.

(** ** Materializing a config, in every case *)

#[global] Instance same_network_refl : Reflexive same_network.
Proof. intros w. repeat split. Qed.

#[global] Instance same_network_trans : Transitive same_network.
Proof. intros w1 w2 w3 (?&?&?) (?&?&?). repeat split; congruence. Qed.

Lemma same_self_same_network {A} (m : M A) : preserves same_self m -> preserves same_network m.
Proof. intros H w. specialize (H w). unfold same_self in H. unfold same_network. now rewrite H. Qed.

(** Writing comes last: before it nothing touches the files. *)
Lemma writes_on_return_bind {A B} (m : M A) (k : A -> M B) :
  preserves same_fs m -> (forall a, writes_on_return (k a)) -> writes_on_return (bind m k).
Proof.
  intros Hm Hk w. unfold bind. specialize (Hm w).
  destruct (m w) as [a w1|c w1|e w1]; cbn [final] in Hm; [|exact Hm|exact Hm].
  specialize (Hk a w1). destruct (k a w1); [exact I| |]; unfold same_fs in Hm; congruence.
Qed.

Lemma writes_on_return_same_fs {A} (m : M A) : preserves same_fs m -> writes_on_return m.
Proof. intros H w. specialize (H w). now destruct (m w). Qed.

Lemma writes_on_return_write_file p c : writes_on_return (write_file p c).
Proof.
  intros w. unfold write_file.
  destruct (node_at (fs w) p) as [[|?]|]; try reflexivity;
    now destruct (node_at (fs w) (PyPath.parent p)) as [[|?]|].
Qed.

Create HintDb same_network.

Section MaterializeAll.

Variable getuser : string.
Variable http : list string -> string -> reply.
Variable ip_address : string -> bool.

Lemma same_fs_verify_casper_user : preserves same_fs (_verify_casper_user getuser).
Proof. unfold _verify_casper_user. preserves_tac with same_fs. Qed.

Lemma same_fs_http_request' url : preserves same_fs (http_request http url).
Proof. intros w. unfold http_request. destruct (http _ _); reflexivity. Qed.

Hint Resolve same_fs_verify_casper_user same_fs_http_request' : same_fs.

Lemma same_fs_query_services svcs ips : preserves same_fs (query_services http svcs ips).
Proof.
  revert ips. induction svcs as [|[url service] svcs IH]; intros ips;
    cbn [query_services]; preserves_tac with same_fs.
Qed.
Hint Resolve same_fs_query_services : same_fs.

Lemma same_fs_get_external_ip : preserves same_fs (_get_external_ip http ip_address).
Proof. unfold _get_external_ip. preserves_tac with same_fs. Qed.
Hint Resolve same_fs_get_external_ip : same_fs.

Lemma same_network_print m : preserves same_network (print m).
Proof. intros w. repeat split. Qed.

Lemma same_network_get_self : preserves same_network get_self.
Proof. intros w. repeat split. Qed.

Lemma same_network_path_exists p : preserves same_network (path_exists p).
Proof. intros w. repeat split. Qed.

Lemma same_network_read_text p : preserves same_network (read_text p).
Proof. apply same_self_same_network, same_self_read_text. Qed.

Lemma same_network_write_file p c : preserves same_network (write_file p c).
Proof. apply same_self_same_network, same_self_write_file. Qed.

Lemma same_network_decode d : preserves same_network (decode d).
Proof. destruct d; intros w; repeat split. Qed.

Lemma same_network_http_request url : preserves same_network (http_request http url).
Proof. intros w. unfold http_request. destruct (http _ _); repeat split. Qed.

Lemma same_network_verify_casper_user : preserves same_network (_verify_casper_user getuser).
Proof.
  unfold _verify_casper_user. destruct (negb _); [|intros w; repeat split].
  apply preserves_bind; [typeclasses eauto | apply same_network_print |].
  intros _ w. repeat split.
Qed.

Hint Resolve same_network_print same_network_get_self same_network_path_exists
  same_network_read_text same_network_write_file same_network_decode
  same_network_http_request same_network_verify_casper_user : same_network.

Lemma same_network_query_services svcs ips :
  preserves same_network (query_services http svcs ips).
Proof.
  revert ips. induction svcs as [|[url service] svcs IH]; intros ips;
    cbn [query_services]; preserves_tac with same_network.
Qed.
Hint Resolve same_network_query_services : same_network.

Lemma same_network_cache (s : NodeUtil) (a : string) :
  preserves same_network
    (s <- get_self ;;
     put_self (mkNodeUtil (_network_name s) (_url s) (_bin_mode s) (Some a)) ;;
     ret (Some a)).
Proof. intros w. repeat split. Qed.

Lemma same_network_get_external_ip : preserves same_network (_get_external_ip http ip_address).
Proof.
  unfold _get_external_ip.
  apply preserves_bind; [typeclasses eauto | apply same_network_get_self | intros s].
  destruct (truthy_opt _); [intros w; repeat split|].
  apply preserves_bind; [typeclasses eauto | apply same_network_print | intros _].
  apply preserves_bind; [typeclasses eauto | apply same_network_query_services | intros ips].
  destruct (negb _); [|intros w; repeat split].
  destruct (most_common_1 (Counter ips) !! 0%nat) as [[a k]|]; [|intros w; repeat split].
  destruct (_is_valid_ip ip_address (Some a)); [|intros w; repeat split].
  intros w. repeat split.
Qed.
Hint Resolve same_network_get_external_ip : same_network.

Lemma same_network_config_from_example pv ip :
  preserves same_network (_config_from_example getuser http ip_address pv ip).
Proof. unfold _config_from_example. preserves_tac with same_network. Qed.

Lemma writes_on_return_config_from_example pv ip :
  writes_on_return (_config_from_example getuser http ip_address pv ip).
Proof.
  unfold _config_from_example.
  apply writes_on_return_bind; [preserves_tac with same_fs | intros _].
  apply writes_on_return_bind; [preserves_tac with same_fs | intros example_there].
  apply writes_on_return_bind; [preserves_tac with same_fs | intros _].
  apply writes_on_return_bind; [preserves_tac with same_fs | intros ip'].
  apply writes_on_return_bind; [preserves_tac with same_fs | intros _].
  apply writes_on_return_bind; [preserves_tac with same_fs | intros toml_there].
  apply writes_on_return_bind; [preserves_tac with same_fs | intros outfile].
  apply writes_on_return_bind; [preserves_tac with same_fs | intros text].
  destruct ip'; [apply writes_on_return_write_file | now intros w].
Qed.

(** What a materialization that returns has done. *)
Lemma config_from_example_ret (pv : string) (ip : option string) (w w' : world) :
  _config_from_example getuser http ip_address pv ip w = Ret tt w' ->
  exists text a,
    node_at (fs w) (CONFIG_PATH / pv / "config-example.toml")%path = Some (File (Text text))
    /\ ip_address a = true
    /\ match ip with
       | Some given => a = given
       | None => exists w1, _get_external_ip http ip_address w = Ret (Some a) w1
       end
    /\ fs w' = <[outfile_for pv w
                 := File (Text (PyStr.replace (PyStr.universal_newlines text)
                                  IP_PLACEHOLDER a))]> (fs w).
Proof.
  unfold _config_from_example, _verify_casper_user. intros H.
  rewrite bind_guard in H.
  destruct (negb (getuser =? "casper")%string); [discriminate|].
  rewrite bind_path_exists, bind_guard in H.
  destruct (negb (is_there w _)); [discriminate|].
  apply bind_inv_ret in H as (ip' & w2 & Hip & H).
  assert (F2 : same_fs w w2).
  { eapply (preserves_ret_inv same_fs); [|exact Hip].
    destruct ip; preserves_tac with same_fs. }
  assert (Htie : match ip with
                 | Some given => ip' = Some given
                 | None => exists w1, _get_external_ip http ip_address w = Ret ip' w1
                 end).
  { destruct ip as [given|].
    - rewrite bind_print in Hip. now injection Hip as <- _.
    - apply bind_inv_ret in Hip as (r & w1 & Hg & Hip).
      rewrite bind_print in Hip. injection Hip as <- _. eauto. }
  rewrite bind_guard in H.
  destruct ip' as [a|]; cbn [_is_valid_ip] in H; [|discriminate].
  destruct (ip_address a) eqn:Hvalid; cbn [negb] in H; [|discriminate].
  rewrite bind_path_exists in H.
  apply bind_inv_ret in H as (outfile & w3 & Ho & H).
  apply bind_inv_ret in H as (text & w4 & Ht & H).
  apply write_file_ret in H as ->.
  unfold same_fs in F2.
  assert (Hout : outfile = outfile_for pv w /\ fs w3 = fs w2).
  { unfold outfile_for.
    replace (is_there w (CONFIG_PATH / pv / "config.toml")%path)
      with (is_there w2 (CONFIG_PATH / pv / "config.toml")%path)
      by (unfold is_there; now rewrite F2).
    destruct (is_there w2 _).
    - rewrite !bind_print in Ho. now injection Ho as <- <-.
    - now injection Ho as <- <-. }
  destruct Hout as [-> F3].
  unfold read_text in Ht.
  destruct (node_at (fs w3) _) as [[|[text'|]]|] eqn:Et; try discriminate.
  injection Ht as <- <-.
  exists text', a. cbn [set_fs fs]. rewrite <- F2, <- F3.
  split; [exact Et|]. split; [exact Hvalid|]. split; [|reflexivity].
  destruct ip as [given|]; [now injection Htie | exact Htie].
Qed.

Lemma outfile_for_ne (pv : string) (w : world) : outfile_for pv w <> [].
Proof.
  unfold outfile_for.
  destruct (is_there w _);
    rewrite (joinpath_name (CONFIG_PATH / pv)%path) by reflexivity;
    now destruct (CONFIG_PATH / pv)%path.
Qed.

(** [_config_from_example] writes one file, and only when it returns:
    the file is [config.toml], or [config.toml.new] when a [config.toml]
    is there, and holds the text of [config-example.toml], as a read in
    text mode gives it (CR LF and CR turned into LF), with the address
    in the place of every occurrence of the placeholder: pieces without
    [<] joined by the placeholder come out as the same pieces joined by
    the address, and lines joined by CR LF, or by CR, are written joined
    by LF. The address is valid, and it is the one given or, when
    none is given, the one [_get_external_ip] returns on the state of
    the call. When the method ends in [exit] (always with code 1) or in
    an exception, no file has changed. *)
Theorem config_from_example_one_write (pv : string) (ip : option string) (w : world) :
  match _config_from_example getuser http ip_address pv ip w with
  | Ret _ w' =>
      exists text a,
        node_at (fs w) (CONFIG_PATH / pv / "config-example.toml")%path
        = Some (File (Text text))
        /\ ip_address a = true
        /\ match ip with
           | Some given => a = given
           | None => exists w1, _get_external_ip http ip_address w = Ret (Some a) w1
           end
        /\ fs w' = <[outfile_for pv w
                     := File (Text (PyStr.replace (PyStr.universal_newlines text)
                                      IP_PLACEHOLDER a))]> (fs w)
        /\ (forall pieces : list string,
              Forall (fun s => has_char "<"%char s = false) pieces ->
              PyStr.universal_newlines text = String.concat IP_PLACEHOLDER pieces ->
              node_at (fs w') (outfile_for pv w)
              = Some (File (Text (String.concat a pieces))))
        /\ (forall (sep : string) (lines : list string),
              sep = (CR ++ LF)%string
              \/ (sep = CR /\ Forall (fun l => PyStr.startswith LF l = false) lines) ->
              Forall (fun l => has_char (ascii_of_nat 13) l = false) lines ->
              text = String.concat sep lines ->
              node_at (fs w') (outfile_for pv w)
              = Some (File (Text (PyStr.replace (String.concat LF lines) IP_PLACEHOLDER a))))
  | Exit c w' => c = 1%Z /\ fs w' = fs w
  | Raise _ w' => fs w' = fs w
  end.
Proof.
  pose proof (writes_on_return_config_from_example pv ip w) as Hw.
  pose proof (exits_1_config_from_example getuser http ip_address pv ip w) as He.
  destruct (_config_from_example getuser http ip_address pv ip w) as [[] w'|c w'|e w'] eqn:E.
  - destruct (config_from_example_ret pv ip w w' E) as (text & a & Hex & Hv & Hip & Hfs).
    exists text, a. repeat (split; [assumption|]). split.
    + intros pieces Hp Ht.
      rewrite Hfs, node_at_insert_eq by apply outfile_for_ne.
      now rewrite Ht, replace_placeholder_pieces.
    + intros sep lines Hsep Hcr ->.
      rewrite Hfs, node_at_insert_eq by apply outfile_for_ne.
      now rewrite universal_newlines_lines.
  - auto.
  - exact Hw.
Qed.

(** Materializing completes the staging of a version that lacks only its
    [config.toml]: after a [_config_from_example] that returns, a version
    that was [NO_CONFIG] is [STAGED] when its chainspec names the loaded
    network, and [WRONG_NETWORK] when it does not. *)
Theorem config_from_example_completes_staging (pv : string) (ip : option string)
    (w w' : world) (n text : string) :
  _network_name (self w) = Some n ->
  n <> "" ->
  _check_staged_version pv w = Ret NO_CONFIG w ->
  node_at (fs w) (CONFIG_PATH / pv / "chainspec.toml")%path = Some (File (Text text)) ->
  _config_from_example getuser http ip_address pv ip w = Ret tt w' ->
  _check_staged_version pv w'
  = Ret (if bool_decide (embedded_name text = Some n) then STAGED else WRONG_NETWORK) w'.
Proof.
  intros Hn Hne Hst Hcs Hret.
  pose proof (preserves_ret_inv _ _ _ _ _ (same_network_config_from_example pv ip) Hret)
    as (Hn' & _).
  rewrite Hn in Hn'.
  apply config_from_example_ret in Hret as (t & a & _ & _ & _ & Hfs).
  rewrite (check_staged_version_table pv w n Hn Hne) in Hst.
  destruct (is_there w (CONFIG_PATH / pv)%path) eqn:Hc; cbn [negb] in Hst.
  2:{ revert Hst. now destruct (is_there w (BIN_PATH / pv / "casper-node")%path). }
  destruct (is_there w (BIN_PATH / pv / "casper-node")%path) eqn:Hb; cbn [negb] in Hst;
    [|discriminate].
  destruct (is_there w (CONFIG_PATH / pv / "config.toml")%path) eqn:Ht; cbn [negb] in Hst.
  { rewrite Hcs in Hst. revert Hst. now destruct (bool_decide (embedded_name text = Some n)). }
  unfold outfile_for in Hfs. rewrite Ht in Hfs.
  assert (Htoml : (CONFIG_PATH / pv / "config.toml")%path
                  = (CONFIG_PATH / pv)%path ++ ["config.toml"])
    by (now apply joinpath_name).
  assert (Hbin : (BIN_PATH / pv / "casper-node")%path = (BIN_PATH / pv)%path ++ ["casper-node"])
    by (now apply joinpath_name).
  assert (Hchain : (CONFIG_PATH / pv / "chainspec.toml")%path
                   = (CONFIG_PATH / pv)%path ++ ["chainspec.toml"])
    by (now apply joinpath_name).
  rewrite (check_staged_version_table pv w' n Hn' Hne).
  unfold is_there in *. rewrite Hfs.
  rewrite (node_at_insert_ne _ _ (CONFIG_PATH / pv)%path).
  2: { rewrite Htoml. intros E. apply (f_equal length) in E. rewrite length_app in E.
       cbn in E. lia. }
  rewrite (node_at_insert_ne _ _ (BIN_PATH / pv / "casper-node")%path).
  2: { rewrite Htoml, Hbin. intros E. apply app_inj_tail in E as [_ E]. discriminate. }
  rewrite node_at_insert_eq.
  2: { rewrite Htoml. now destruct (CONFIG_PATH / pv)%path. }
  rewrite (node_at_insert_ne _ _ (CONFIG_PATH / pv / "chainspec.toml")%path).
  2: { rewrite Htoml, Hchain. intros E. apply app_inj_tail in E as [_ E]. discriminate. }
  destruct (node_at (fs w) (CONFIG_PATH / pv)%path); [|discriminate].
  destruct (node_at (fs w) (BIN_PATH / pv / "casper-node")%path); [|discriminate].
  cbn [negb]. now rewrite Hcs.
Qed.

End MaterializeAll.

Lemma config_from_example_completes_staging_witness :
  _check_staged_version "1_0_0"
    (final (_config_from_example "casper" net_down ipv4_literal "1_0_0" (Some "1.2.3.4")
              world_no_config))
  = Ret (if bool_decide (embedded_name chainspec_casper = Some "casper")
         then STAGED else WRONG_NETWORK)
        (final (_config_from_example "casper" net_down ipv4_literal "1_0_0" (Some "1.2.3.4")
                  world_no_config)).
Proof.
  apply (config_from_example_completes_staging "casper" net_down ipv4_literal "1_0_0"
           (Some "1.2.3.4") world_no_config _ "casper" chainspec_casper).
  - reflexivity.
  - discriminate.
  - reflexivity.
  - reflexivity.
  - reflexivity.
Defined.

(** ** Who may write, and what an unreachable service does *)

Section Guards.

Variable getuser : string.
Variable http : list string -> string -> reply.
Variable ip_address : string -> bool.

(** Run by another user than [casper], the fetch, the materialization
    and [stage_protocols] (once its config is loaded) end in [exit(1)]
    after the one line that says so: no request is made and no file is
    touched. *)
Theorem writers_require_casper_user (pv platform config : string)
    (ip args_ip : option string) (w : world) :
  getuser <> "casper" ->
  _pull_protocol_version getuser http pv platform w = Exit 1 (add_out MsgRunAsCasper w)
  /\ _config_from_example getuser http ip_address pv ip w = Exit 1 (add_out MsgRunAsCasper w)
  /\ forall w1,
       _load_config_values config w = Ret tt w1 ->
       stage_protocols getuser http ip_address config args_ip w
       = Exit 1 (add_out MsgRunAsCasper w1).
Proof.
  intros Hu. apply String.eqb_neq in Hu.
  repeat split.
  - unfold _pull_protocol_version, _verify_casper_user. now rewrite bind_guard, Hu.
  - unfold _config_from_example, _verify_casper_user. now rewrite bind_guard, Hu.
  - intros w1 Hl. unfold stage_protocols. rewrite (bind_ret _ _ _ _ _ Hl).
    unfold _verify_casper_user. now rewrite bind_guard, Hu.
Qed.

(** A service that gives no response is not skipped: with nothing
    cached, two services answering and the third unreachable,
    [_get_external_ip] ends in the [MaxRetryError] of the third request,
    whatever the two answers are, and caches nothing. *)
Theorem get_external_ip_third_unreachable (w : world) (r1 r2 : Z * string) :
  truthy_opt (_external_ip (self w)) = false ->
  http (requests w) "https://checkip.amazonaws.com" = Response r1.1 (Text r1.2) ->
  http (requests w ++ ["https://checkip.amazonaws.com"]) "https://ifconfig.me"
    = Response r2.1 (Text r2.2) ->
  http ((requests w ++ ["https://checkip.amazonaws.com"]) ++ ["https://ifconfig.me"])
    "https://ident.me" = NoResponse ->
  raised (_get_external_ip http ip_address w) = Some (MaxRetryError "https://ident.me")
  /\ self (final (_get_external_ip http ip_address w)) = self w
  /\ fs (final (_get_external_ip http ip_address w)) = fs w.
Proof.
  intros Hcache H1 H2 H3.
  assert (E : exists w', _get_external_ip http ip_address w
                         = Raise (MaxRetryError "https://ident.me") w'
                         /\ self w' = self w /\ fs w' = fs w).
  { unfold _get_external_ip. rewrite bind_get_self, Hcache, bind_print.
    unfold services. unfold bind at 1.
    rewrite (query_services_step _ _ _ _ _ _ r1) by exact H1.
    rewrite (query_services_step _ _ _ _ _ _ r2) by exact H2.
    cbn [query_services]. unfold bind at 1. unfold http_request.
    cbn [add_out add_request requests]. rewrite H3. eexists. repeat split. }
  destruct E as (w' & -> & Hs & Hf). auto.
Qed.

End Guards.

Lemma writers_require_casper_user_witness :
  _pull_protocol_version "root" net_one_version "1_0_0" "deb" world_installed
  = Exit 1 (add_out MsgRunAsCasper world_installed)
  /\ _config_from_example "root" net_one_version ipv4_literal "1_0_0" None world_installed
     = Exit 1 (add_out MsgRunAsCasper world_installed)
  /\ forall w1,
       _load_config_values "casper.conf" world_installed = Ret tt w1 ->
       stage_protocols "root" net_one_version ipv4_literal "casper.conf" None world_installed
       = Exit 1 (add_out MsgRunAsCasper w1).
Proof.
  apply (writers_require_casper_user "root" net_one_version ipv4_literal
           "1_0_0" "deb" "casper.conf" None None world_installed).
  discriminate.
Defined.

Lemma get_external_ip_third_unreachable_witness :
  raised (_get_external_ip net_third_down ipv4_literal (process casper_loaded []))
  = Some (MaxRetryError "https://ident.me")
  /\ self (final (_get_external_ip net_third_down ipv4_literal (process casper_loaded [])))
     = self (process casper_loaded [])
  /\ fs (final (_get_external_ip net_third_down ipv4_literal (process casper_loaded [])))
     = fs (process casper_loaded []).
Proof.
  apply (get_external_ip_third_unreachable net_third_down ipv4_literal
           (process casper_loaded []) (200%Z, "1.2.3.4") (200%Z, "1.2.3.4"));
    reflexivity.
Defined.

(** ** Deleting the local state *)

(** *** The entries of a directory *)

Lemma below_app (p r : path) : below p (p ++ r) = Some r.
Proof. induction p as [|a p IH]; [reflexivity|]. cbn. now rewrite String.eqb_refl. Qed.

Lemma below_Some (p k r : path) : below p k = Some r -> k = p ++ r.
Proof.
  revert k. induction p as [|a p IH]; intros k; cbn.
  - now intros [= ->].
  - destruct k as [|b k]; [discriminate|].
    destruct (String.eqb_spec a b) as [->|_]; [|discriminate].
    intros H. now rewrite (IH _ H).
Qed.

Lemma entry_name_Some (p k : path) (name : string) :
  entry_name p k = Some name <-> k = p ++ [name].
Proof.
  unfold entry_name. split.
  - destruct (below p k) as [[|n [|? ?]]|] eqn:E; try discriminate.
    intros [= ->]. now apply below_Some.
  - intros ->. now rewrite below_app.
Qed.

Lemma is_entry_snoc (p : path) (name : string) : is_entry p (p ++ [name]) = true.
Proof. unfold is_entry, entry_name. now rewrite below_app. Qed.

Lemma is_entry_inv (p k : path) : is_entry p k = true -> exists name, k = p ++ [name].
Proof.
  unfold is_entry. destruct (entry_name p k) as [name|] eqn:E; [|discriminate].
  intros _. exists name. now apply entry_name_Some.
Qed.

(** [children] lists the names of the entries that are there. *)
Lemma elem_of_children (f : gmap (list string) node) (p : path) (name : string) :
  name ∈ children f p <-> is_Some (f !! (p ++ [name])).
Proof.
  unfold children. rewrite list_elem_of_omap. split.
  - intros ([k v] & Hin & Hn). apply elem_of_map_to_list in Hin.
    apply entry_name_Some in Hn. cbn in Hn. subst k. eauto.
  - intros [v Hv]. exists (p ++ [name], v). split.
    + now apply elem_of_map_to_list.
    + now apply entry_name_Some.
Qed.

(** *** Unlinking, a missing file forgiven *)

Lemma unlink_missing_ok_eq (p : path) (w : world) :
  unlink_missing_ok p w
  = match node_at (fs w) p with
    | Some (File _) => Ret tt (set_fs (delete p (fs w)) w)
    | Some Dir => Raise (IsADirectoryError p) w
    | None => Ret tt w
    end.
Proof. unfold unlink_missing_ok, unlink. now destruct (node_at (fs w) p) as [[|?]|]. Qed.

Lemma node_at_delete_eq (f : gmap (list string) node) (p : path) :
  p <> [] -> node_at (delete p f) p = None.
Proof. intros H. destruct p; [contradiction|]. cbn. apply lookup_delete_eq. Qed.

(** What is at [q] after the files at [ps] were unlinked. *)
Lemma delete_paths_files (ps : list path) (w : world) :
  (forall p, p ∈ ps -> node_at (fs w) p <> Some Dir) ->
  exists w',
    delete_paths ps w = Ret tt w'
    /\ self w' = self w /\ stdout w' = stdout w /\ requests w' = requests w
    /\ forall q, node_at (fs w') q = if bool_decide (q ∈ ps) then None else node_at (fs w) q.
Proof.
  revert w. induction ps as [|p ps IH]; intros w Hps.
  - exists w. repeat split.
  - cbn [delete_paths].
    assert (Hp : node_at (fs w) p <> Some Dir) by (apply Hps; left).
    assert (Hne : p <> []) by (intros ->; now apply Hp).
    set (w1 := match node_at (fs w) p with
               | Some (File _) => set_fs (delete p (fs w)) w
               | _ => w
               end).
    assert (H1 : unlink_missing_ok p w = Ret tt w1).
    { rewrite unlink_missing_ok_eq. unfold w1.
      destruct (node_at (fs w) p) as [[|?]|]; [contradiction | reflexivity | reflexivity]. }
    assert (Hq : forall q, node_at (fs w1) q
                           = if bool_decide (q = p) then None else node_at (fs w) q).
    { intros q. unfold w1. destruct (decide (q = p)) as [->|Hqp].
      - rewrite bool_decide_eq_true_2 by reflexivity.
        destruct (node_at (fs w) p) as [[|?]|] eqn:E; cbn [set_fs fs];
          [contradiction | now apply node_at_delete_eq | exact E].
      - rewrite bool_decide_eq_false_2 by exact Hqp.
        destruct (node_at (fs w) p) as [[|?]|]; cbn [set_fs fs]; try reflexivity.
        apply node_at_delete_ne. congruence. }
    destruct (IH w1) as (w' & Hd & Hs & Ho & Hr & Hf).
    { intros p' Hin. rewrite Hq. destruct (bool_decide (p' = p)); [discriminate|].
      apply Hps. now right. }
    exists w'. rewrite (bind_ret _ _ _ _ _ H1). split; [exact Hd|].
    assert (E1 : self w1 = self w /\ stdout w1 = stdout w /\ requests w1 = requests w)
      by (unfold w1; now destruct (node_at (fs w) p) as [[|?]|]).
    destruct E1 as (? & ? & ?).
    repeat split; try congruence.
    intros q. rewrite Hf, Hq.
    destruct (decide (q = p)) as [->|Hqp].
    + rewrite (bool_decide_eq_true_2 (p ∈ p :: ps)) by left.
      rewrite (bool_decide_eq_true_2 (p = p)) by reflexivity.
      now destruct (bool_decide (p ∈ ps)).
    + rewrite (bool_decide_eq_false_2 (q = p)) by exact Hqp.
      apply (f_equal (fun b : bool => if b then None else node_at (fs w) q)).
      apply bool_decide_ext. rewrite elem_of_cons. tauto.
Qed.

(** The loop stops at the first directory; no directory is removed,
    and nothing outside [ps] is touched. *)
Lemma delete_paths_directory (ps : list path) (w : world) :
  (exists p, p ∈ ps /\ node_at (fs w) p = Some Dir) ->
  exists p w',
    delete_paths ps w = Raise (IsADirectoryError p) w'
    /\ p ∈ ps /\ node_at (fs w) p = Some Dir
    /\ (forall q, node_at (fs w) q = Some Dir -> node_at (fs w') q = Some Dir)
    /\ forall q, q ∉ ps -> node_at (fs w') q = node_at (fs w) q.
Proof.
  revert w. induction ps as [|p ps IH]; intros w (d & Hin & Hd).
  - now apply elem_of_nil in Hin.
  - cbn [delete_paths].
    destruct (node_at (fs w) p) as [[|c]|] eqn:Ep.
    + exists p, w. split.
      * apply bind_raise. now rewrite unlink_missing_ok_eq, Ep.
      * repeat split; [left | exact Ep | auto].
    + assert (Hdp : d <> p) by congruence.
      assert (Hne : p <> []) by (intros ->; discriminate).
      rewrite (bind_ret _ _ w tt (set_fs (delete p (fs w)) w))
        by (now rewrite unlink_missing_ok_eq, Ep).
      destruct (IH (set_fs (delete p (fs w)) w)) as (p' & w' & Hr & Hin' & Hd' & Hk & Hf).
      { exists d. split.
        - apply elem_of_cons in Hin as [?|?]; [contradiction | assumption].
        - cbn [set_fs fs]. rewrite node_at_delete_ne by congruence. exact Hd. }
      exists p', w'. split; [exact Hr|]. split; [now right|]. split; [|split].
      * cbn [set_fs fs] in Hd'.
        destruct (decide (p = p')) as [<-|Hpp].
        -- now rewrite node_at_delete_eq in Hd'.
        -- now rewrite node_at_delete_ne in Hd'.
      * intros q Hq. apply Hk. cbn [set_fs fs].
        rewrite node_at_delete_ne by congruence. exact Hq.
      * intros q Hq. apply not_elem_of_cons in Hq as [Hqp Hq].
        rewrite (Hf q Hq). cbn [set_fs fs]. apply node_at_delete_ne. congruence.
    + rewrite (bind_ret _ _ w tt w) by (now rewrite unlink_missing_ok_eq, Ep).
      destruct (IH w) as (p' & w' & Hr & Hin' & Hd' & Hk & Hf).
      { exists d. split; [|exact Hd].
        apply elem_of_cons in Hin as [->|?]; [congruence | assumption]. }
      exists p', w'. split; [exact Hr|]. split; [now right|]. split; [exact Hd'|].
      split; [exact Hk|].
      intros q Hq. apply not_elem_of_cons in Hq as [_ Hq]. now apply Hf.
Qed.

Lemma DB_PATH_eq : DB_PATH = ["var"; "lib"; "casper"; "casper-node"].
Proof. reflexivity. Qed.

Lemma cnl_state_eq :
  (CONFIG_PATH / "casper-node-launcher-state.toml")%path
  = ["etc"; "casper"; "casper-node-launcher-state.toml"].
Proof. reflexivity. Qed.

Section DeleteLocalState.

Variable getuser : string.
Variable scandir : gmap (list string) node -> path -> list string.

(** Without the user [root], or without [--verify_delete_all],
    [delete_local_state] ends in [exit(1)] and deletes nothing. *)
Theorem delete_local_state_refuses (verify_delete_all : bool) (w : world) :
  getuser <> "root" \/ verify_delete_all = false ->
  exit_code_of (delete_local_state getuser scandir verify_delete_all w) = Some 1%Z
  /\ fs (final (delete_local_state getuser scandir verify_delete_all w)) = fs w.
Proof.
  intros H. unfold delete_local_state, _verify_root_user. rewrite bind_guard.
  destruct (String.eqb_spec getuser "root") as [Hu|Hu]; cbn [negb]; [|now split].
  destruct H as [H| ->]; [contradiction|].
  now rewrite bind_guard.
Qed.

(** What the glob lists, for a [scandir] that lists the entries. *)
Lemma elem_of_glob (w : world) (p q : path) :
  scandir (fs w) p ≡ₚ children (fs w) p ->
  q ∈ map (fun name => p ++ [name]) (scandir (fs w) p)
  <-> is_entry p q = true /\ is_Some (fs w !! q).
Proof.
  intros Hperm. rewrite list_elem_of_fmap. split.
  - intros (name & -> & Hin). rewrite Hperm in Hin. apply elem_of_children in Hin.
    split; [apply is_entry_snoc | exact Hin].
  - intros (He & Hs). apply is_entry_inv in He as (name & ->).
    exists name. split; [reflexivity|]. rewrite Hperm. now apply elem_of_children.
Qed.

Lemma no_directory_entry (f : gmap (list string) node) (p : path) :
  forallb (fun name => negb (is_dir_at f (p ++ [name]))) (children f p) = true ->
  forall name, node_at f (p ++ [name]) <> Some Dir.
Proof.
  intros H name Hd. rewrite forallb_forall in H.
  assert (Hin : name ∈ children f p).
  { apply elem_of_children. rewrite node_at_snoc in Hd. eauto. }
  apply list_elem_of_In in Hin. apply H in Hin.
  unfold is_dir_at in Hin. now rewrite Hd in Hin.
Qed.

Lemma is_dir_at_false (f : gmap (list string) node) (p : path) :
  is_dir_at f p = false -> node_at f p <> Some Dir.
Proof. unfold is_dir_at. intros H Hd. now rewrite Hd in H. Qed.

Lemma is_dir_at_true (f : gmap (list string) node) (p : path) :
  is_dir_at f p = true <-> node_at f p = Some Dir.
Proof. unfold is_dir_at. now destruct (node_at f p) as [[|?]|]. Qed.

Lemma is_entry_cnl_state :
  is_entry DB_PATH (CONFIG_PATH / "casper-node-launcher-state.toml")%path = false.
Proof. reflexivity. Qed.

(** Run by [root] with [--verify_delete_all], on a database directory
    whose entries are files, [delete_local_state] returns, and what it
    has deleted is: every entry of the database directory, and the state
    file of the launcher. A missing database directory or state file is
    no error. *)
Theorem delete_local_state_deletes (w : world) :
  getuser = "root" ->
  scandir (fs w) DB_PATH ≡ₚ children (fs w) DB_PATH ->
  forallb (fun name => negb (is_dir_at (fs w) (DB_PATH ++ [name]))) (children (fs w) DB_PATH)
  = true ->
  is_dir_at (fs w) (CONFIG_PATH / "casper-node-launcher-state.toml")%path = false ->
  exists w',
    delete_local_state getuser scandir true w = Ret tt w'
    /\ self w' = self w /\ stdout w' = stdout w /\ requests w' = requests w
    /\ forall q,
         node_at (fs w') q
         = if bool_decide (q = (CONFIG_PATH / "casper-node-launcher-state.toml")%path)
              || (is_dir_at (fs w) DB_PATH && is_entry DB_PATH q)
           then None
           else node_at (fs w) q.
Proof.
  intros Hu Hperm Hfiles' Hcnl'.
  pose proof (no_directory_entry _ _ Hfiles') as Hfiles.
  pose proof (is_dir_at_false _ _ Hcnl') as Hcnl.
  clear Hfiles' Hcnl'.
  unfold delete_local_state, _verify_root_user. rewrite Hu, String.eqb_refl.
  cbn [negb]. rewrite !bind_ret_l.
  set (cnl := (CONFIG_PATH / "casper-node-launcher-state.toml")%path) in *.
  set (ps := match node_at (fs w) DB_PATH with
             | Some Dir => map (fun name => DB_PATH ++ [name]) (scandir (fs w) DB_PATH)
             | _ => []
             end).
  rewrite (bind_ret _ _ w ps w) by reflexivity.
  assert (Hps : forall q, q ∈ ps
                          <-> is_dir_at (fs w) DB_PATH = true
                              /\ is_entry DB_PATH q = true /\ is_Some (fs w !! q)).
  { intros q. unfold ps, is_dir_at. destruct (node_at (fs w) DB_PATH) as [[|?]|] eqn:E.
    - rewrite (elem_of_glob w DB_PATH q Hperm). tauto.
    - rewrite elem_of_nil. split; [tauto | intros (? & _); discriminate].
    - rewrite elem_of_nil. split; [tauto | intros (? & _); discriminate]. }
  destruct (delete_paths_files ps w) as (w1 & Hd & Hs1 & Ho1 & Hr1 & Hf1).
  { intros p Hin. apply Hps in Hin as (_ & He & _).
    apply is_entry_inv in He as (name & ->). apply Hfiles. }
  rewrite (bind_ret _ _ _ _ _ Hd).
  assert (Hcnl_ps : cnl ∉ ps).
  { intros Hin. apply Hps in Hin as (_ & He & _). unfold cnl in He.
    rewrite is_entry_cnl_state in He. discriminate He. }
  assert (Hcnl1 : node_at (fs w1) cnl = node_at (fs w) cnl).
  { rewrite Hf1. now rewrite bool_decide_eq_false_2. }
  set (w2 := match node_at (fs w) cnl with
             | Some (File _) => set_fs (delete cnl (fs w1)) w1
             | _ => w1
             end).
  exists w2. split.
  { rewrite unlink_missing_ok_eq, Hcnl1. unfold w2.
    destruct (node_at (fs w) cnl) as [[|?]|]; [contradiction | reflexivity | reflexivity]. }
  assert (E2 : self w2 = self w1 /\ stdout w2 = stdout w1 /\ requests w2 = requests w1)
    by (unfold w2; now destruct (node_at (fs w) cnl) as [[|?]|]).
  destruct E2 as (? & ? & ?).
  repeat split; try congruence.
  intros q. destruct (decide (q = cnl)) as [->|Hq].
  - rewrite (bool_decide_eq_true_2 (cnl = cnl)) by reflexivity. cbn [orb].
    unfold w2. destruct (node_at (fs w) cnl) as [[|?]|] eqn:E.
    + contradiction.
    + cbn [set_fs fs]. now apply node_at_delete_eq.
    + now rewrite Hcnl1.
  - rewrite (bool_decide_eq_false_2 (q = cnl)) by exact Hq. cbn [orb].
    assert (E : node_at (fs w2) q = node_at (fs w1) q).
    { unfold w2. destruct (node_at (fs w) cnl) as [[|?]|]; try reflexivity.
      cbn [set_fs fs]. apply node_at_delete_ne. congruence. }
    rewrite E, Hf1.
    destruct (decide (q ∈ ps)) as [Hin|Hnin].
    + rewrite (bool_decide_eq_true_2 _ Hin).
      apply Hps in Hin as (Hdir & He & _).
      now rewrite Hdir, He.
    + rewrite (bool_decide_eq_false_2 _ Hnin).
      destruct (is_dir_at (fs w) DB_PATH) eqn:Hb; [|reflexivity].
      destruct (is_entry DB_PATH q) eqn:He; [|reflexivity]. cbn [andb].
      destruct (fs w !! q) as [v|] eqn:Hv.
      * exfalso. apply Hnin, Hps. eauto.
      * apply is_entry_inv in He as (name & ->). now rewrite node_at_snoc.
Qed.

(** Only a missing file is forgiven: with a directory among the entries
    of the database directory, [delete_local_state] ends in the
    [IsADirectoryError] of such an entry; the directories stay, and the
    state file of the launcher, which comes after the loop, is not
    deleted. *)
Theorem delete_local_state_stops_at_directory (w : world) (name : string) :
  getuser = "root" ->
  scandir (fs w) DB_PATH ≡ₚ children (fs w) DB_PATH ->
  is_dir_at (fs w) DB_PATH = true ->
  is_dir_at (fs w) (DB_PATH ++ [name]) = true ->
  exists d w',
    delete_local_state getuser scandir true w = Raise (IsADirectoryError (DB_PATH ++ [d])) w'
    /\ is_dir_at (fs w) (DB_PATH ++ [d]) = true
    /\ is_dir_at (fs w') (DB_PATH ++ [name]) = true
    /\ node_at (fs w') (CONFIG_PATH / "casper-node-launcher-state.toml")%path
       = node_at (fs w) (CONFIG_PATH / "casper-node-launcher-state.toml")%path.
Proof.
  intros Hu Hperm Hdb' Hdir'.
  apply is_dir_at_true in Hdb' as Hdb. apply is_dir_at_true in Hdir' as Hdir.
  clear Hdb' Hdir'.
  unfold delete_local_state, _verify_root_user. rewrite Hu, String.eqb_refl.
  cbn [negb]. rewrite !bind_ret_l.
  set (ps := map (fun name => DB_PATH ++ [name]) (scandir (fs w) DB_PATH)).
  rewrite (bind_ret _ _ w ps w) by (unfold glob_star; now rewrite Hdb).
  destruct (delete_paths_directory ps w) as (p & w' & Hr & Hin & Hd & Hk & Hf).
  { exists (DB_PATH ++ [name]). split; [|exact Hdir].
    apply (elem_of_glob w DB_PATH _ Hperm). split; [apply is_entry_snoc|].
    rewrite node_at_snoc in Hdir. eauto. }
  apply (elem_of_glob w DB_PATH _ Hperm) in Hin as (He & _).
  apply is_entry_inv in He as (d & ->).
  exists d, w'. split; [now apply bind_raise|].
  split; [now apply is_dir_at_true|].
  split; [now apply is_dir_at_true, Hk|].
  apply Hf. intros Hin. apply (elem_of_glob w DB_PATH _ Hperm) in Hin as (He & _).
  rewrite is_entry_cnl_state in He. discriminate He.
Qed.

End DeleteLocalState.

Lemma delete_local_state_refuses_witness :
  exit_code_of (delete_local_state "root" children false world_with_state) = Some 1%Z
  /\ fs (final (delete_local_state "root" children false world_with_state))
     = fs world_with_state.
Proof.
  apply (delete_local_state_refuses "root" children false world_with_state).
  right. reflexivity.
Defined.

Lemma delete_local_state_deletes_witness :
  exists w',
    delete_local_state "root" children true world_with_state = Ret tt w'
    /\ self w' = self world_with_state /\ stdout w' = stdout world_with_state
    /\ requests w' = requests world_with_state
    /\ forall q,
         node_at (fs w') q
         = if bool_decide (q = (CONFIG_PATH / "casper-node-launcher-state.toml")%path)
              || (is_dir_at (fs world_with_state) DB_PATH && is_entry DB_PATH q)
           then None
           else node_at (fs world_with_state) q.
Proof.
  apply (delete_local_state_deletes "root" children world_with_state).
  - reflexivity.
  - reflexivity.
  - vm_compute. reflexivity.
  - vm_compute. reflexivity.
Defined.

Lemma delete_local_state_stops_at_directory_witness :
  exists d w',
    delete_local_state "root" children true world_with_state_dir
    = Raise (IsADirectoryError (DB_PATH ++ [d])) w'
    /\ is_dir_at (fs world_with_state_dir) (DB_PATH ++ [d]) = true
    /\ is_dir_at (fs w') (DB_PATH ++ ["casper"]) = true
    /\ node_at (fs w') (CONFIG_PATH / "casper-node-launcher-state.toml")%path
       = node_at (fs world_with_state_dir) (CONFIG_PATH / "casper-node-launcher-state.toml")%path.
Proof.
  apply (delete_local_state_stops_at_directory "root" children world_with_state_dir "casper").
  - reflexivity.
  - reflexivity.
  - vm_compute. reflexivity.
  - vm_compute. reflexivity.
Defined.

(** ** Walking the file locations *)

(** *** Paths below a path *)

Lemma strictly_below_iff (p k : path) :
  strictly_below p k = true <-> exists name rest, k = p ++ name :: rest.
Proof.
  unfold strictly_below. split.
  - destruct (below p k) as [[|name rest]|] eqn:E; try discriminate.
    intros _. exists name, rest. now apply below_Some.
  - intros (name & rest & ->). now rewrite below_app.
Qed.

Lemma strictly_below_snoc (p : path) (name : string) (k : path) :
  strictly_below (p ++ [name]) k = true -> strictly_below p k = true.
Proof.
  rewrite !strictly_below_iff. intros (n & rest & ->).
  exists name, (n :: rest). now rewrite <- app_assoc.
Qed.

(** In a filesystem as the system keeps it, what a path lies below is a
    directory. *)
Lemma fs_closed_above (f : gmap (list string) node) (p : path) (name : string) (rest : path) :
  fs_closed f ->
  is_Some (f !! (p ++ name :: rest)) ->
  rest <> [] ->
  f !! (p ++ [name]) = Some Dir.
Proof.
  intros Hc. revert p name. induction rest as [|r rest IH] using rev_ind; intros p name Hs Hne.
  - contradiction.
  - destruct Hs as [v Hv].
    pose proof (Hc _ _ Hv) as Hpar. unfold PyPath.parent in Hpar.
    replace (p ++ name :: rest ++ [r]) with ((p ++ name :: rest) ++ [r]) in Hpar
      by (now rewrite <- app_assoc).
    rewrite removelast_last in Hpar.
    destruct rest as [|r' rest'] using rev_ind.
    + rewrite <- node_at_snoc. exact Hpar.
    + apply (IH p name).
      * replace (p ++ name :: rest' ++ [r']) with ((p ++ name :: rest') ++ [r'])
          by (now rewrite <- app_assoc).
        replace (p ++ name :: rest' ++ [r']) with ((p ++ name :: rest') ++ [r']) in Hpar
          by (now rewrite <- app_assoc).
        rewrite node_at_snoc in Hpar. eauto.
      * now destruct rest'.
Qed.

Lemma fits_entry (f : gmap (list string) node) (depth : nat) (p : path) (name : string) :
  fits f (S depth) p -> fits f depth (p ++ [name]).
Proof.
  intros H k v Hk Hpre. specialize (H k v Hk).
  rewrite length_app. cbn. 
  assert (Hp : p `prefix_of` k) by (destruct Hpre as [r ->]; exists ([name] ++ r); now rewrite app_assoc).
  specialize (H Hp). lia.
Qed.

Lemma fits_root (f : gmap (list string) node) (depth : nat) (p : path) :
  fits f depth [] -> fits f depth p.
Proof.
  intros H k v Hk _. specialize (H k v Hk (prefix_nil k)). cbn in H. lia.
Qed.

Lemma is_dir_at_snoc (f : gmap (list string) node) (p : path) (name : string) :
  is_dir_at f (p ++ [name]) = true <-> f !! (p ++ [name]) = Some Dir.
Proof. rewrite is_dir_at_true. now rewrite node_at_snoc. Qed.

(** *** The paths a walk yields *)

Section WalkList.

Variable scandir : gmap (list string) node -> path -> list string.
Variable f : gmap (list string) node.
Hypothesis Hlists : lists_entries scandir f.
Hypothesis Hclosed : fs_closed f.

(** A walk from a directory yields the paths of the filesystem that lie
    below it, and no other. *)
Lemma elem_of_walk_list (depth : nat) (p k : path) :
  fits f depth p ->
  is_Some (f !! p) ->
  k ∈ walk_list scandir f depth p <-> strictly_below p k = true /\ is_Some (f !! k).
Proof.
  revert p. induction depth as [|depth IH]; intros p Hfit Hp.
  - cbn [walk_list]. rewrite elem_of_nil. split; [tauto|].
    exfalso. destruct Hp as [v Hv]. specialize (Hfit p v Hv (reflexivity p)). lia.
  - cbn [walk_list]. rewrite list_elem_of_In, in_flat_map. split.
    + intros (name & Hin & Hk). apply list_elem_of_In in Hin, Hk.
      rewrite (Hlists p) in Hin. apply elem_of_children in Hin.
      destruct (is_dir_at f (p ++ [name])) eqn:Hd.
      * apply elem_of_cons in Hk as [->|Hk].
        -- split; [|exact Hin]. apply strictly_below_iff. now exists name, [].
        -- apply IH in Hk; [|now apply fits_entry | exact Hin].
           destruct Hk as [Hb Hs]. split; [|exact Hs]. now apply strictly_below_snoc in Hb.
      * apply list_elem_of_singleton in Hk as ->.
        split; [|exact Hin]. apply strictly_below_iff. now exists name, [].
    + intros (Hb & Hs). apply strictly_below_iff in Hb as (name & rest & ->).
      exists name.
      assert (Hc : is_Some (f !! (p ++ [name]))).
      { destruct rest as [|r rest]; [exact Hs|].
        rewrite (fs_closed_above f p name (r :: rest) Hclosed Hs); [eauto | discriminate]. }
      split.
      * apply list_elem_of_In. rewrite (Hlists p). now apply elem_of_children.
      * apply list_elem_of_In.
        destruct rest as [|r rest].
        -- destruct (is_dir_at f (p ++ [name])); [left | apply list_elem_of_singleton];
             reflexivity.
        -- assert (Hd : f !! (p ++ [name]) = Some Dir)
             by (apply (fs_closed_above f p name (r :: rest) Hclosed Hs); discriminate).
           rewrite (proj2 (is_dir_at_snoc f p name) Hd). right.
           apply IH; [now apply fits_entry | exact Hc |].
           split; [|exact Hs].
           apply strictly_below_iff. exists r, rest. now rewrite <- app_assoc.
Qed.

End WalkList.

(** *** The walk is the loop over what it yields *)

Lemma bind_ext {A B} (m : M A) (k1 k2 : A -> M B) (w : world) :
  (forall a w', k1 a w' = k2 a w') -> bind m k1 w = bind m k2 w.
Proof. intros H. unfold bind. destruct (m w); [apply H | reflexivity | reflexivity]. Qed.

Lemma for_each_app {S : Type} (body : path -> S -> M S) (l1 l2 : list path) (acc : S) (w : world) :
  for_each body (l1 ++ l2) acc w = bind (for_each body l1 acc) (for_each body l2) w.
Proof.
  revert acc w. induction l1 as [|p l1 IH]; intros acc w; [reflexivity|].
  cbn [app for_each]. rewrite bind_assoc. apply bind_ext. intros a w'. apply IH.
Qed.

Lemma for_each_steady {S : Type} (body : path -> S -> M S) (l : list path) (acc : S) (w : world) :
  steady body ->
  exists acc' w', for_each body l acc w = Ret acc' w' /\ fs w' = fs w.
Proof.
  intros Hb. revert acc w. induction l as [|p l IH]; intros acc w; [now exists acc, w|].
  cbn [for_each]. destruct (Hb p acc w) as (acc1 & w1 & H1 & F1).
  rewrite (bind_ret _ _ _ _ _ H1).
  destruct (IH acc1 w1) as (acc' & w' & H & F). exists acc', w'. split; [exact H|congruence].
Qed.

Section WalkLoop.

Variable scandir : gmap (list string) node -> path -> list string.
Context {S : Type}.
Variable body : path -> S -> M S.
Hypothesis Hsteady : steady body.
Variable f : gmap (list string) node.

Lemma walk_entries_for_each (walk : path -> S -> M S) (WL : path -> list path)
    (p : path) (names : list string) (acc : S) (w : world) :
  fs w = f ->
  (forall name, name ∈ names -> is_dir_at f (p ++ [name]) = true ->
     forall acc w, fs w = f -> walk (p ++ [name]) acc w = for_each body (WL (p ++ [name])) acc w) ->
  walk_entries body walk true (map (fun name => p ++ [name]) names) acc w
  = for_each body
      (flat_map (fun name => if is_dir_at f (p ++ [name])
                             then (p ++ [name]) :: WL (p ++ [name]) else [p ++ [name]])
                names) acc w.
Proof.
  revert acc w. induction names as [|name names IH]; intros acc w Hw Hwalk; [reflexivity|].
  cbn [map walk_entries flat_map]. rewrite for_each_app.
  rewrite (bind_ret _ _ w (is_dir_at (fs w) (p ++ [name])) w) by reflexivity. rewrite Hw.
  assert (Hrest : forall acc1 w1, fs w1 = f ->
            walk_entries body walk true (map (fun name => p ++ [name]) names) acc1 w1
            = for_each body
                (flat_map (fun name => if is_dir_at f (p ++ [name])
                                       then (p ++ [name]) :: WL (p ++ [name]) else [p ++ [name]])
                          names) acc1 w1).
  { intros acc1 w1 Hw1. apply IH; [exact Hw1|].
    intros n Hn. apply Hwalk. now right. }
  destruct (is_dir_at f (p ++ [name])) eqn:Hd.
  - cbn [for_each]. rewrite !bind_assoc.
    destruct (Hsteady (p ++ [name]) acc w) as (acc1 & w1 & H1 & F1).
    rewrite !(bind_ret _ _ _ _ _ H1).
    assert (Hw1 : fs w1 = f) by congruence.
    unfold bind. rewrite (Hwalk name (list_elem_of_here _ _) Hd acc1 w1 Hw1).
    destruct (for_each_steady body (WL (p ++ [name])) acc1 w1 Hsteady) as (acc2 & w2 & H2 & F2).
    rewrite H2. apply Hrest. congruence.
  - cbn [for_each]. rewrite !bind_assoc.
    destruct (Hsteady (p ++ [name]) acc w) as (acc1 & w1 & H1 & F1).
    rewrite !(bind_ret _ _ _ _ _ H1). rewrite bind_ret_l. apply Hrest. congruence.
Qed.

(** On a filesystem that is not nested deeper than [depth] below the
    directory [p], [_walk_path] runs the body of the loop on the paths
    of [walk_list], one after the other, and raises nothing. *)
Lemma walk_path_for_each (depth : nat) (p : path) (acc : S) (w : world) :
  fs w = f ->
  fits f depth p ->
  f !! p = Some Dir ->
  _walk_path scandir body depth p true acc w
  = for_each body (walk_list scandir f depth p) acc w.
Proof.
  revert p acc w. induction depth as [|depth IH]; intros p acc w Hw Hfit Hp.
  - exfalso. specialize (Hfit p Dir Hp (reflexivity p)). lia.
  - cbn [_walk_path walk_list].
    assert (Hnode : node_at (fs w) p = Some Dir).
    { rewrite Hw. destruct p; [reflexivity | exact Hp]. }
    unfold iterdir. rewrite (bind_ret _ _ w (map (fun name => p ++ [name]) (scandir f p)) w)
      by (now rewrite Hnode, Hw).
    apply walk_entries_for_each; [exact Hw|].
    intros name _ Hd acc1 w1 Hw1. apply IH; [exact Hw1 | now apply fits_entry |].
    now apply is_dir_at_snoc.
Qed.

End WalkLoop.

(** ** Checking and fixing the ownership *)

Lemma fits_limit_pos (f : gmap (list string) node) (limit : nat) (p : path) :
  fits f limit [] -> is_Some (f !! p) -> exists depth, limit = Datatypes.S depth.
Proof.
  intros Hfit [v Hv]. specialize (Hfit p v Hv (prefix_nil p)). cbn in Hfit.
  destruct limit as [|depth]; [lia | eauto].
Qed.

Lemma is_dir_at_lookup (f : gmap (list string) node) (p : path) :
  p <> [] -> is_dir_at f p = true -> f !! p = Some Dir.
Proof. intros Hne H. apply is_dir_at_true in H. now destruct p. Qed.

Section CheckPermissions.

Variable scandir : gmap (list string) node -> path -> list string.
Variable recursion_limit : nat.
Variable own : ownership.

Lemma steady_check_permissions_body : steady (check_permissions_body own).
Proof.
  intros p c w. unfold check_permissions_body.
  destruct (negb (_is_casper_owned own p)).
  - rewrite bind_print. eauto.
  - eauto.
Qed.

(** The loop of [check_permissions] over paths: the exit code is 1 as
    soon as one of them is not owned by [casper:casper]; when all are,
    nothing is printed. *)
Lemma for_each_check (l : list path) (c : Z) (w : world) :
  exists w',
    for_each (check_permissions_body own) l c w
    = Ret (if forallb (_is_casper_owned own) l then c else 1%Z) w'
    /\ fs w' = fs w
    /\ (forallb (_is_casper_owned own) l = true -> w' = w).
Proof.
  revert c w. induction l as [|p l IH]; intros c w; [now exists w|].
  cbn [for_each forallb]. unfold check_permissions_body at 1.
  destruct (_is_casper_owned own p); cbn [negb andb].
  - rewrite bind_ret_l. apply IH.
  - rewrite bind_assoc, bind_print, bind_ret_l.
    destruct (IH 1%Z (add_out (MsgOwnedBy p (own p).1 (own p).2) w)) as (w' & H & F & _).
    exists w'. split; [|split; [exact F | discriminate]].
    rewrite H. now destruct (forallb _ l).
Qed.

(** What a walk of the three locations sees is what [all_casper_owned]
    is about. *)
Lemma all_casper_owned_walks (f : gmap (list string) node) :
  lists_entries scandir f ->
  fs_closed f ->
  fits f recursion_limit [] ->
  is_Some (f !! BIN_PATH) -> is_Some (f !! CONFIG_PATH) -> is_Some (f !! DB_PATH) ->
  forallb (_is_casper_owned own) (walk_list scandir f recursion_limit BIN_PATH)
  && forallb (_is_casper_owned own) (walk_list scandir f recursion_limit CONFIG_PATH)
  && forallb (_is_casper_owned own) (walk_list scandir f recursion_limit DB_PATH)
  = bool_decide (all_casper_owned own f).
Proof.
  intros Hl Hc Hfit Hb Hcf Hd.
  assert (Hmem : forall root k, is_Some (f !! root) ->
            k ∈ walk_list scandir f recursion_limit root
            <-> strictly_below root k = true /\ is_Some (f !! k)).
  { intros root k Hr. apply elem_of_walk_list; auto. now apply fits_root. }
  apply eq_true_iff_eq. rewrite !andb_true_iff, !forallb_forall, bool_decide_eq_true.
  unfold all_casper_owned, watched. rewrite map_Forall_lookup. split.
  - intros [[H1 H2] H3] k v Hk Hw.
    apply orb_true_iff in Hw as [Hw|Hw]; [apply orb_true_iff in Hw as [Hw|Hw]|].
    + apply H1, list_elem_of_In, Hmem; eauto.
    + apply H2, list_elem_of_In, Hmem; eauto.
    + apply H3, list_elem_of_In, Hmem; eauto.
  - intros H. repeat split; intros k Hin; apply list_elem_of_In, Hmem in Hin;
      try assumption; destruct Hin as (Hsb & v & Hv); apply (H k v Hv); rewrite Hsb;
      now rewrite ?orb_true_r.
Qed.

(** On a filesystem that holds the three locations,
    [check_permissions] ends in [exit(0)] exactly when everything below
    them is owned by [casper:casper] (the locations themselves are not
    looked at), and in [exit(1)] otherwise; it changes no file, and
    when all is well it prints the one line that says so. *)
Theorem check_permissions_exit_code (w : world) :
  fs_closed (fs w) ->
  lists_entries scandir (fs w) ->
  fits (fs w) recursion_limit [] ->
  is_dir_at (fs w) BIN_PATH = true ->
  is_dir_at (fs w) CONFIG_PATH = true ->
  is_dir_at (fs w) DB_PATH = true ->
  exists w',
    check_permissions scandir recursion_limit own w
    = Exit (if bool_decide (all_casper_owned own (fs w)) then 0%Z else 1%Z) w'
    /\ fs w' = fs w
    /\ (all_casper_owned own (fs w) -> w' = add_out MsgPermissionsCorrect w).
Proof.
  intros Hc Hl Hfit Hb Hcf Hd.
  apply is_dir_at_lookup in Hb; [|discriminate].
  apply is_dir_at_lookup in Hcf; [|discriminate].
  apply is_dir_at_lookup in Hd; [|discriminate].
  pose proof (all_casper_owned_walks (fs w) Hl Hc Hfit
                (ex_intro _ _ Hb) (ex_intro _ _ Hcf) (ex_intro _ _ Hd)) as Hall.
  unfold check_permissions, _walk_file_locations.
  set (L1 := walk_list scandir (fs w) recursion_limit BIN_PATH) in *.
  set (L2 := walk_list scandir (fs w) recursion_limit CONFIG_PATH) in *.
  set (L3 := walk_list scandir (fs w) recursion_limit DB_PATH) in *.
  destruct (for_each_check L1 0 w) as (w1 & H1 & F1 & E1).
  destruct (for_each_check L2 (if forallb (_is_casper_owned own) L1 then 0%Z else 1%Z) w1)
    as (w2 & H2 & F2 & E2).
  destruct (for_each_check L3
              (if forallb (_is_casper_owned own) L2
               then if forallb (_is_casper_owned own) L1 then 0%Z else 1%Z
               else 1%Z) w2)
    as (w3 & H3 & F3 & E3).
  assert (W1 : _walk_path scandir (check_permissions_body own) recursion_limit BIN_PATH true 0%Z w
               = Ret (if forallb (_is_casper_owned own) L1 then 0%Z else 1%Z) w1).
  { rewrite (walk_path_for_each scandir _ steady_check_permissions_body (fs w));
      [exact H1 | reflexivity | now apply fits_root | exact Hb]. }
  assert (W2 : _walk_path scandir (check_permissions_body own) recursion_limit CONFIG_PATH true
                 (if forallb (_is_casper_owned own) L1 then 0%Z else 1%Z) w1
               = Ret (if forallb (_is_casper_owned own) L2
                      then if forallb (_is_casper_owned own) L1 then 0%Z else 1%Z
                      else 1%Z) w2).
  { rewrite (walk_path_for_each scandir _ steady_check_permissions_body (fs w));
      [exact H2 | exact F1 | now apply fits_root | exact Hcf]. }
  assert (W3 : _walk_path scandir (check_permissions_body own) recursion_limit DB_PATH true
                 (if forallb (_is_casper_owned own) L2
                  then if forallb (_is_casper_owned own) L1 then 0%Z else 1%Z
                  else 1%Z) w2
               = Ret (if forallb (_is_casper_owned own) L3
                      then if forallb (_is_casper_owned own) L2
                           then if forallb (_is_casper_owned own) L1 then 0%Z else 1%Z
                           else 1%Z
                      else 1%Z) w3).
  { rewrite (walk_path_for_each scandir _ steady_check_permissions_body (fs w));
      [exact H3 | congruence | now apply fits_root | exact Hd]. }
  rewrite !bind_assoc, (bind_ret _ _ _ _ _ W1).
  rewrite !bind_assoc, (bind_ret _ _ _ _ _ W2).
  rewrite ?bind_assoc, (bind_ret _ _ _ _ _ W3).
  clear W1 W2 W3 H1 H2 H3.
  rewrite <- Hall.
  assert (Hbad : forallb (_is_casper_owned own) L1 && forallb (_is_casper_owned own) L2
                 && forallb (_is_casper_owned own) L3 = false ->
                 all_casper_owned own (fs w) -> w3 = add_out MsgPermissionsCorrect w).
  { intros E H. apply (bool_decide_eq_true_2 (all_casper_owned own (fs w))) in H.
    rewrite <- Hall, E in H. discriminate. }
  destruct (forallb (_is_casper_owned own) L1), (forallb (_is_casper_owned own) L2),
    (forallb (_is_casper_owned own) L3); cbn [andb Z.eqb] in *;
    try (rewrite bind_ret_l; exists w3; split; [reflexivity|]; split; [congruence|];
         now apply Hbad).
  rewrite bind_print. eexists. split; [reflexivity|]. split; [cbn; congruence|].
  intros _. now rewrite E3, E2, E1.
Qed.

End CheckPermissions.

Section FixPermissions.

Variable getuser : string.
Variable scandir : gmap (list string) node -> path -> list string.
Variable recursion_limit : nat.
Variable chown : ownership -> path -> ownership.

Lemma steady_fix_permissions_body : steady (fix_permissions_body chown).
Proof.
  intros p [c own] w. unfold fix_permissions_body. cbn [fst snd].
  destruct (negb (_is_casper_owned own p)); [|eauto].
  rewrite bind_print.
  destruct (negb (_is_casper_owned (chown own p) p)); [rewrite bind_print|]; eauto.
Qed.

Hypothesis Hchown : chown_works chown.

Lemma chown_owned (own : ownership) (p : path) : _is_casper_owned (chown own p) p = true.
Proof. unfold _is_casper_owned. now rewrite (proj1 (Hchown own p)). Qed.

(** The loop of [fix_permissions] over paths, with a [chown] that
    works: the exit code stays, every path of the loop ends up owned by
    [casper:casper], and no other path changes hands. *)
Lemma for_each_fix (l : list path) (c : Z) (own : ownership) (w : world) :
  exists own' w',
    for_each (fix_permissions_body chown) l (c, own) w = Ret (c, own') w'
    /\ fs w' = fs w
    /\ (forall p, p ∈ l -> _is_casper_owned own' p = true)
    /\ (forall q, q ∉ l -> own' q = own q)
    /\ (forall q, _is_casper_owned own q = true -> _is_casper_owned own' q = true).
Proof.
  revert own w. induction l as [|p l IH]; intros own w.
  - exists own, w. repeat split; auto. intros p Hin. now apply elem_of_nil in Hin.
  - cbn [for_each]. unfold fix_permissions_body at 1. cbn [fst snd].
    destruct (_is_casper_owned own p) eqn:Ho; cbn [negb].
    + rewrite bind_ret_l.
      destruct (IH own w) as (own' & w' & H & F & Hin & Hout & Hmono).
      exists own', w'. split; [exact H|]. split; [exact F|]. split; [|split].
      * intros q Hq. apply elem_of_cons in Hq as [->|Hq]; [now apply Hmono | now apply Hin].
      * intros q Hq. apply not_elem_of_cons in Hq as [_ Hq]. now apply Hout.
      * exact Hmono.
    + rewrite bind_assoc, bind_print, chown_owned. cbn [negb]. rewrite bind_ret_l.
      destruct (IH (chown own p) (add_out (MsgCorrectingOwnership p) w))
        as (own' & w' & H & F & Hin & Hout & Hmono).
      exists own', w'. split; [exact H|]. split; [exact F|]. split; [|split].
      * intros q Hq. apply elem_of_cons in Hq as [->|Hq]; [|now apply Hin].
        apply Hmono, chown_owned.
      * intros q Hq. apply not_elem_of_cons in Hq as [Hqp Hq].
        rewrite (Hout q Hq). now apply (proj2 (Hchown own p)).
      * intros q Hq. apply Hmono. destruct (decide (q = p)) as [->|Hqp].
        -- apply chown_owned.
        -- unfold _is_casper_owned in *. now rewrite (proj2 (Hchown own p) q Hqp).
Qed.

(** Run by [root] with a [chown] that works, [fix_permissions] ends in
    [exit(0)]; what it leaves is: every path below the three locations
    owned by [casper:casper], every other path owned as before, no file
    changed; and a [check_permissions] run after it finds the
    permissions correct. *)
Theorem fix_permissions_fixes (own : ownership) (w : world) :
  getuser = "root" ->
  fs_closed (fs w) ->
  lists_entries scandir (fs w) ->
  fits (fs w) recursion_limit [] ->
  is_dir_at (fs w) BIN_PATH = true ->
  is_dir_at (fs w) CONFIG_PATH = true ->
  is_dir_at (fs w) DB_PATH = true ->
  exists own' w',
    fix_permissions_walk getuser scandir recursion_limit chown own w = Ret (0%Z, own') w'
    /\ fix_permissions getuser scandir recursion_limit chown own w = Exit 0 w'
    /\ fs w' = fs w
    /\ all_casper_owned own' (fs w)
    /\ (forall q, watched q = false \/ fs w !! q = None -> own' q = own q)
    /\ check_permissions scandir recursion_limit own' w'
       = Exit 0 (add_out MsgPermissionsCorrect w').
Proof.
  intros Hu Hc Hl Hfit Hb' Hcf' Hd'.
  pose proof Hb' as Hb. pose proof Hcf' as Hcf. pose proof Hd' as Hd.
  apply is_dir_at_lookup in Hb; [|discriminate].
  apply is_dir_at_lookup in Hcf; [|discriminate].
  apply is_dir_at_lookup in Hd; [|discriminate].
  set (L1 := walk_list scandir (fs w) recursion_limit BIN_PATH).
  set (L2 := walk_list scandir (fs w) recursion_limit CONFIG_PATH).
  set (L3 := walk_list scandir (fs w) recursion_limit DB_PATH).
  destruct (for_each_fix L1 0 own w) as (own1 & w1 & H1 & F1 & I1 & O1 & M1).
  destruct (for_each_fix L2 0 own1 w1) as (own2 & w2 & H2 & F2 & I2 & O2 & M2).
  destruct (for_each_fix L3 0 own2 w2) as (own3 & w3 & H3 & F3 & I3 & O3 & M3).
  assert (W : fix_permissions_walk getuser scandir recursion_limit chown own w
              = Ret (0%Z, own3) w3).
  { unfold fix_permissions_walk, _verify_root_user. rewrite Hu, String.eqb_refl.
    cbn [negb]. rewrite bind_ret_l. unfold _walk_file_locations.
    rewrite (bind_ret _ _ w (0%Z, own1) w1).
    2: { rewrite (walk_path_for_each scandir _ steady_fix_permissions_body (fs w));
         [exact H1 | reflexivity | now apply fits_root | exact Hb]. }
    rewrite (bind_ret _ _ w1 (0%Z, own2) w2).
    2: { rewrite (walk_path_for_each scandir _ steady_fix_permissions_body (fs w));
         [exact H2 | exact F1 | now apply fits_root | exact Hcf]. }
    rewrite (walk_path_for_each scandir _ steady_fix_permissions_body (fs w));
      [exact H3 | congruence | now apply fits_root | exact Hd]. }
  assert (Hfs : fs w3 = fs w) by congruence.
  assert (Hmem : forall root k, is_Some (fs w !! root) ->
            k ∈ walk_list scandir (fs w) recursion_limit root
            <-> strictly_below root k = true /\ is_Some (fs w !! k)).
  { intros root k Hr. apply elem_of_walk_list; auto. now apply fits_root. }
  assert (Hall : all_casper_owned own3 (fs w)).
  { apply (bool_decide_eq_true (all_casper_owned own3 (fs w))).
    rewrite <- (all_casper_owned_walks scandir recursion_limit own3 (fs w) Hl Hc Hfit
                  (mk_is_Some _ _ Hb) (mk_is_Some _ _ Hcf) (mk_is_Some _ _ Hd)).
    rewrite !andb_true_iff, !forallb_forall.
    repeat split; intros k Hin; apply list_elem_of_In in Hin; auto. }
  exists own3, w3. split; [exact W|]. split.
  { unfold fix_permissions. now rewrite (bind_ret _ _ _ _ _ W). }
  split; [exact Hfs|]. split; [exact Hall|]. split.
  - intros q Hq.
    assert (Hn : forall root, is_Some (fs w !! root) -> strictly_below root q = true ->
                   watched q = true ->
                   q ∉ walk_list scandir (fs w) recursion_limit root).
    { intros root Hr Hsb Hw Hin. apply Hmem in Hin as (_ & Hs); [|exact Hr].
      destruct Hq as [Hq|Hq]; [congruence|]. rewrite Hq in Hs. now destruct Hs. }
    assert (Hout : forall root, is_Some (fs w !! root) ->
                     (strictly_below root q = true -> watched q = true) ->
                     q ∉ walk_list scandir (fs w) recursion_limit root).
    { intros root Hr Hw Hin. pose proof Hin as Hin'.
      apply Hmem in Hin' as (Hsb & _); [|exact Hr]. now apply (Hn root Hr Hsb (Hw Hsb)). }
    assert (N1 : q ∉ L1).
    { apply Hout; [exact (mk_is_Some _ _ Hb)|]. unfold watched. now intros ->. }
    assert (N2 : q ∉ L2).
    { apply Hout; [exact (mk_is_Some _ _ Hcf)|]. unfold watched. intros ->.
      now rewrite orb_true_r. }
    assert (N3 : q ∉ L3).
    { apply Hout; [exact (mk_is_Some _ _ Hd)|]. unfold watched. intros ->.
      now rewrite orb_true_r. }
    now rewrite (O3 q N3), (O2 q N2), (O1 q N1).
  - destruct (check_permissions_exit_code scandir recursion_limit own3 w3) as (w4 & E & _ & Hw4);
      try (rewrite Hfs; assumption).
    rewrite Hfs in E, Hw4. rewrite E, (bool_decide_eq_true_2 _ Hall), (Hw4 Hall). reflexivity.
Qed.

End FixPermissions.

Section MissingLocation.

Variable scandir : gmap (list string) node -> path -> list string.
Variable recursion_limit : nat.
Variable own : ownership.

(** The three locations are walked without a test that they are there:
    on a host without the database directory, [check_permissions] ends
    in [FileNotFoundError], not in an exit code, whoever owns the files
    of the two other locations. *)
Theorem check_permissions_missing_database (w : world) :
  fs_closed (fs w) ->
  lists_entries scandir (fs w) ->
  fits (fs w) recursion_limit [] ->
  is_dir_at (fs w) BIN_PATH = true ->
  is_dir_at (fs w) CONFIG_PATH = true ->
  is_there w DB_PATH = false ->
  raised (check_permissions scandir recursion_limit own w) = Some (FileNotFoundError DB_PATH)
  /\ exit_code_of (check_permissions scandir recursion_limit own w) = None
  /\ fs (final (check_permissions scandir recursion_limit own w)) = fs w.
Proof.
  intros Hc Hl Hfit Hb Hcf Hd.
  apply is_dir_at_lookup in Hb; [|discriminate].
  apply is_dir_at_lookup in Hcf; [|discriminate].
  destruct (fits_limit_pos _ _ BIN_PATH Hfit (ex_intro _ _ Hb)) as (depth & Hdepth).
  set (L1 := walk_list scandir (fs w) recursion_limit BIN_PATH).
  set (L2 := walk_list scandir (fs w) recursion_limit CONFIG_PATH).
  destruct (for_each_check own L1 0 w) as (w1 & H1 & F1 & _).
  destruct (for_each_check own L2 (if forallb (_is_casper_owned own) L1 then 0%Z else 1%Z) w1)
    as (w2 & H2 & F2 & _).
  assert (E : check_permissions scandir recursion_limit own w
              = Raise (FileNotFoundError DB_PATH) w2).
  { unfold check_permissions, _walk_file_locations. rewrite !bind_assoc.
    erewrite bind_ret.
    2: { rewrite (walk_path_for_each scandir _ (steady_check_permissions_body own) (fs w));
         [exact H1 | reflexivity | now apply fits_root | exact Hb]. }
    rewrite !bind_assoc. erewrite bind_ret.
    2: { rewrite (walk_path_for_each scandir _ (steady_check_permissions_body own) (fs w));
         [exact H2 | exact F1 | now apply fits_root | exact Hcf]. }
    rewrite ?bind_assoc. apply bind_raise.
    rewrite Hdepth. cbn [_walk_path]. apply bind_raise.
    unfold iterdir. unfold is_there in Hd.
    replace (fs w2) with (fs w) by congruence.
    now destruct (node_at (fs w) DB_PATH). }
  rewrite E. cbn. repeat split. congruence.
Qed.

End MissingLocation.

Lemma chown_casper_works : chown_works chown_casper.
Proof.
  intros own p. unfold chown_casper. split.
  - now rewrite bool_decide_eq_true_2.
  - intros q Hq. now rewrite bool_decide_eq_false_2.
Qed.

Lemma lists_entries_children (f : gmap (list string) node) : lists_entries children f.
Proof. intros p. reflexivity. Qed.

Lemma check_permissions_exit_code_witness :
  exists w',
    check_permissions children 1000 owned_by_root world_running
    = Exit (if bool_decide (all_casper_owned owned_by_root (fs world_running))
            then 0%Z else 1%Z) w'
    /\ fs w' = fs world_running
    /\ (all_casper_owned owned_by_root (fs world_running) ->
        w' = add_out MsgPermissionsCorrect world_running).
Proof.
  apply (check_permissions_exit_code children 1000 owned_by_root world_running).
  - apply (bool_decide_unpack _). vm_compute. exact I.
  - apply lists_entries_children.
  - apply (bool_decide_unpack _). vm_compute. exact I.
  - vm_compute. reflexivity.
  - vm_compute. reflexivity.
  - vm_compute. reflexivity.
Defined.

Lemma fix_permissions_fixes_witness :
  exists own' w',
    fix_permissions_walk "root" children 1000 chown_casper owned_by_root world_running
    = Ret (0%Z, own') w'
    /\ fix_permissions "root" children 1000 chown_casper owned_by_root world_running = Exit 0 w'
    /\ fs w' = fs world_running
    /\ all_casper_owned own' (fs world_running)
    /\ (forall q, watched q = false \/ fs world_running !! q = None -> own' q = owned_by_root q)
    /\ check_permissions children 1000 own' w' = Exit 0 (add_out MsgPermissionsCorrect w').
Proof.
  apply (fix_permissions_fixes "root" children 1000 chown_casper chown_casper_works
           owned_by_root world_running).
  - reflexivity.
  - apply (bool_decide_unpack _). vm_compute. exact I.
  - apply lists_entries_children.
  - apply (bool_decide_unpack _). vm_compute. exact I.
  - vm_compute. reflexivity.
  - vm_compute. reflexivity.
  - vm_compute. reflexivity.
Defined.

Lemma check_permissions_missing_database_witness :
  raised (check_permissions children 1000 owned_by_casper world_staged)
  = Some (FileNotFoundError DB_PATH)
  /\ exit_code_of (check_permissions children 1000 owned_by_casper world_staged) = None
  /\ fs (final (check_permissions children 1000 owned_by_casper world_staged))
     = fs world_staged.
Proof.
  apply (check_permissions_missing_database children 1000 owned_by_casper world_staged).
  - apply (bool_decide_unpack _). vm_compute. exact I.
  - apply lists_entries_children.
  - apply (bool_decide_unpack _). vm_compute. exact I.
  - vm_compute. reflexivity.
  - vm_compute. reflexivity.
  - vm_compute. reflexivity.
Defined.

(** ** Fetching archives of plain files *)

Lemma simple_name_joinpath (p : path) (name : string) :
  simple_name name = true -> (p / name)%path = p ++ [name].
Proof.
  unfold simple_name. intros H. apply andb_prop in H as [Ha Hp].
  apply negb_true_iff in Ha. apply bool_decide_eq_true_1 in Hp.
  now apply joinpath_name.
Qed.

(** *** Making a directory *)

(** [os.makedirs] of a path that is not there, below directories that
    are: the one directory is made. *)
Lemma makedirs_from_new (done rest : path) (w : world) :
  rest <> [] ->
  (forall r, r <> [] -> r `prefix_of` rest -> r <> rest ->
             node_at (fs w) (done ++ r) = Some Dir) ->
  node_at (fs w) (done ++ rest) = None ->
  makedirs_from done rest w = Ret tt (set_fs (<[done ++ rest := Dir]> (fs w)) w).
Proof.
  revert done. induction rest as [|c rest IH]; intros done Hne Hpre Hnew; [contradiction|].
  cbn [makedirs_from]. destruct rest as [|c' rest'].
  - unfold bind. rewrite Hnew. reflexivity.
  - unfold bind. rewrite (Hpre [c]); [| discriminate | now exists (c' :: rest') | discriminate].
    replace (done ++ c :: c' :: rest') with ((done ++ [c]) ++ c' :: rest')
      by (now rewrite <- app_assoc).
    apply IH; [discriminate | |].
    + intros r Hr [t Ht] Hrt. rewrite <- app_assoc. apply Hpre.
      * discriminate.
      * exists t. cbn. now rewrite Ht.
      * cbn. congruence.
    + now rewrite <- app_assoc.
Qed.

(** In a filesystem as the system keeps it, the directories above a
    directory that is there are there. *)
Lemma fs_closed_prefix (f : gmap (list string) node) (p r : path) :
  fs_closed f ->
  node_at f p = Some Dir ->
  r `prefix_of` p ->
  node_at f r = Some Dir.
Proof.
  intros Hc Hp [t Ht]. destruct r as [|a r]; [reflexivity|].
  destruct t as [|b t] using rev_ind; [now rewrite app_nil_r in Ht; subst|].
  clear IHt. subst p.
  destruct (a :: r) as [|x xs] eqn:E using rev_ind; [discriminate|]. clear IHxs.
  rewrite node_at_snoc.
  apply (fs_closed_above f xs x (t ++ [b]) Hc).
  - replace (xs ++ x :: t ++ [b]) with ((xs ++ [x]) ++ t ++ [b]) by (now rewrite <- app_assoc).
    destruct ((xs ++ [x]) ++ t ++ [b]) eqn:E'; [now destruct xs|].
    cbn in Hp. rewrite Hp. eauto.
  - now destruct t.
Qed.

Lemma makedirs_new (p : path) (name : string) (w : world) :
  fs_closed (fs w) ->
  node_at (fs w) p = Some Dir ->
  node_at (fs w) (p ++ [name]) = None ->
  makedirs (p ++ [name]) w = Ret tt (set_fs (<[p ++ [name] := Dir]> (fs w)) w).
Proof.
  intros Hc Hp Hnew. unfold makedirs.
  apply (makedirs_from_new [] (p ++ [name]) w); [now destruct p | | exact Hnew].
  intros r Hr [t Ht] Hrt. cbn [app].
  apply (fs_closed_prefix (fs w) p r Hc Hp).
  destruct t as [|b t] using rev_ind; [rewrite app_nil_r in Ht; congruence|].
  rewrite app_assoc in Ht. apply app_inj_tail in Ht as [-> _]. now exists t.
Qed.

(** *** Keeping the filesystem in order *)

Lemma parent_snoc (p : path) (name : string) : PyPath.parent (p ++ [name]) = p.
Proof. unfold PyPath.parent. apply removelast_last. Qed.

Lemma node_at_lookup (f : gmap (list string) node) (p : path) :
  p <> [] -> node_at f p = f !! p.
Proof. now destruct p. Qed.

Lemma fs_closed_insert (f : gmap (list string) node) (p : path) (name : string) (n : node) :
  fs_closed f ->
  node_at f p = Some Dir ->
  node_at f (p ++ [name]) <> Some Dir ->
  fs_closed (<[p ++ [name] := n]> f).
Proof.
  intros Hc Hp Hnd k v Hk.
  assert (Hne : p ++ [name] <> []) by now destruct p.
  destruct (decide (k = p ++ [name])) as [->|Hkp].
  - rewrite parent_snoc.
    destruct (decide (p ++ [name] = p)) as [E|E].
    + apply (f_equal length) in E. rewrite length_app in E. cbn in E. lia.
    + now rewrite node_at_insert_ne.
  - rewrite lookup_insert_ne in Hk by congruence.
    pose proof (Hc k v Hk) as Hpar. cbn beta in Hpar.
    destruct (decide (PyPath.parent k = p ++ [name])) as [E|E].
    + rewrite E in Hpar. contradiction.
    + rewrite node_at_insert_ne by congruence. exact Hpar.
Qed.

Lemma fs_closed_delete (f : gmap (list string) node) (p : path) (c : content) :
  fs_closed f ->
  node_at f p = Some (File c) ->
  fs_closed (delete p f).
Proof.
  intros Hc Hp k v Hk.
  apply lookup_delete_Some in Hk as [Hkp Hk].
  pose proof (Hc k v Hk) as Hpar. cbn beta in Hpar.
  destruct (decide (PyPath.parent k = p)) as [E|E].
  - rewrite E, Hp in Hpar. discriminate.
  - rewrite node_at_delete_ne by congruence. exact Hpar.
Qed.

(** Nothing is below a path that is not there. *)
Lemma fs_closed_absent (f : gmap (list string) node) (p : path) (name : string) :
  fs_closed f -> node_at f p <> Some Dir -> node_at f (p ++ [name]) = None.
Proof.
  intros Hc Hp. rewrite node_at_snoc.
  destruct (f !! (p ++ [name])) as [v|] eqn:E; [|reflexivity].
  pose proof (Hc _ _ E) as Hpar. cbn beta in Hpar. rewrite parent_snoc in Hpar. contradiction.
Qed.

(** *** Extracting regular files *)

Lemma snoc_ne (p : path) (name : string) : p ++ [name] <> p.
Proof. intros E. apply (f_equal length) in E. rewrite length_app in E. cbn in E. lia. Qed.

Lemma tar_extract_file (target : path) (name data : string) (w : world) :
  simple_name name = true ->
  node_at (fs w) target = Some Dir ->
  node_at (fs w) (target ++ [name]) <> Some Dir ->
  tar_extract (TarFile name data) target w
  = Ret tt (set_fs (<[target ++ [name] := File (Text data)]> (fs w)) w).
Proof.
  intros Hn Hd Hf. unfold tar_extract. cbn [member_name].
  rewrite (simple_name_joinpath _ _ Hn), parent_snoc.
  rewrite bind_path_exists. unfold is_there. rewrite Hd. rewrite bind_ret_l.
  rewrite write_file_ok; [reflexivity | exact Hf | now rewrite parent_snoc].
Qed.

Lemma with_files_node_other (target : path) (files : list (string * string))
    (f : gmap (list string) node) (q : path) :
  (forall name, q <> target ++ [name]) ->
  node_at (with_files target files f) q = node_at f q.
Proof.
  intros Hq. unfold with_files. revert f. induction files as [|[n d] files IH]; intros f.
  - reflexivity.
  - cbn [fold_left fst snd]. rewrite IH. apply node_at_insert_ne. apply not_eq_sym, Hq.
Qed.

Lemma with_files_node_entry (target : path) (files : list (string * string))
    (f : gmap (list string) node) (name : string) :
  node_at f (target ++ [name]) <> Some Dir ->
  node_at (with_files target files f) (target ++ [name]) <> Some Dir.
Proof.
  unfold with_files. revert f. induction files as [|[n d] files IH]; intros f Hf.
  - exact Hf.
  - cbn [fold_left fst snd]. apply IH.
    destruct (decide (target ++ [n] = target ++ [name])) as [E|E].
    + rewrite E, node_at_insert_eq by (now destruct target). discriminate.
    + now rewrite node_at_insert_ne.
Qed.

(** Regular files of simple names, extracted into a directory that is
    there, are written into it one after the other. *)
Lemma extract_members_files (target : path) (files : list (string * string)) (w : world) :
  node_at (fs w) target = Some Dir ->
  Forall (fun nd => simple_name nd.1 = true
                    /\ node_at (fs w) (target ++ [nd.1]) <> Some Dir) files ->
  extract_members (tar_files files) target w
  = Ret tt (set_fs (with_files target files (fs w)) w).
Proof.
  revert w. induction files as [|[n d] files IH]; intros w Hd Hfiles.
  - cbn. now destruct w.
  - apply Forall_cons in Hfiles as [[Hn Hf] Hfiles]. cbn [fst snd] in *.
    cbn [tar_files map extract_members fst snd].
    rewrite (bind_ret _ _ _ _ _ (tar_extract_file target n d w Hn Hd Hf)).
    fold (tar_files files).
    rewrite IH.
    + reflexivity.
    + cbn [set_fs fs]. rewrite node_at_insert_ne by apply snoc_ne. exact Hd.
    + cbn [set_fs fs]. eapply Forall_impl; [exact Hfiles|].
      intros [n' d'] [Hn' Hf']. cbn [fst snd] in *. split; [exact Hn'|].
      destruct (decide (target ++ [n] = target ++ [n'])) as [E|E].
      * rewrite E, node_at_insert_eq by (now destruct target). discriminate.
      * now rewrite node_at_insert_ne.
Qed.

(** Extracted into a directory that is not there, in a directory that
    is, they are written into the directory made for them. *)
Lemma extract_members_files_new (p : path) (name : string) (files : list (string * string))
    (w : world) :
  fs_closed (fs w) ->
  node_at (fs w) p = Some Dir ->
  node_at (fs w) (p ++ [name]) = None ->
  files <> [] ->
  Forall (fun nd => simple_name nd.1 = true) files ->
  extract_members (tar_files files) (p ++ [name]) w
  = Ret tt (set_fs (with_files (p ++ [name]) files (<[p ++ [name] := Dir]> (fs w))) w).
Proof.
  intros Hc Hp Hnew Hne Hfiles.
  destruct files as [|[n d] files]; [contradiction|]. clear Hne.
  apply Forall_cons in Hfiles as [Hn Hfiles]. cbn [fst] in Hn.
  set (target := p ++ [name]) in *.
  assert (Hbelow : forall n', node_at (fs w) (target ++ [n']) = None).
  { intros n'. apply fs_closed_absent; [exact Hc|]. now rewrite Hnew. }
  cbn [tar_files map extract_members fst snd]. fold (tar_files files).
  assert (H1 : tar_extract (TarFile n d) target w
               = Ret tt (set_fs (<[target ++ [n] := File (Text d)]> (<[target := Dir]> (fs w))) w)).
  { unfold tar_extract. cbn [member_name].
    rewrite (simple_name_joinpath _ _ Hn), parent_snoc.
    rewrite bind_path_exists. unfold is_there. rewrite Hnew.
    rewrite (bind_ret _ _ _ _ _ (makedirs_new p name w Hc Hp Hnew)).
    fold target.
    rewrite write_file_ok; [reflexivity | |].
    - cbn [set_fs fs]. rewrite node_at_insert_ne by (apply not_eq_sym, snoc_ne).
      now rewrite Hbelow.
    - rewrite parent_snoc. cbn [set_fs fs]. apply node_at_insert_eq.
      unfold target. now destruct p. }
  rewrite (bind_ret _ _ _ _ _ H1).
  rewrite extract_members_files.
  - reflexivity.
  - cbn [set_fs fs]. rewrite node_at_insert_ne by apply snoc_ne.
    apply node_at_insert_eq. unfold target. now destruct p.
  - cbn [set_fs fs]. eapply Forall_impl; [exact Hfiles|].
    intros [n' d'] Hn'. cbn [fst snd] in *. split; [exact Hn'|].
    destruct (decide (target ++ [n] = target ++ [n'])) as [E|E].
    + rewrite E, node_at_insert_eq by (now destruct target). discriminate.
    + rewrite node_at_insert_ne by exact E.
      rewrite node_at_insert_ne by (apply not_eq_sym, snoc_ne).
      now rewrite Hbelow.
Qed.

(** *** An archive fetched and extracted *)

Section Fetch.

Variable http : list string -> string -> reply.

Lemma download_file_archive (url : string) (dir : path) (name : string) (data : content)
    (w : world) :
  http (requests w) url = Response 200 data ->
  node_at (fs w) dir = Some Dir ->
  node_at (fs w) (dir ++ [name]) <> Some Dir ->
  _download_file http url (dir ++ [name]) w
  = Ret tt (set_fs (<[dir ++ [name] := File data]> (fs w))
              (add_request url (add_out (MsgDownloading url (dir ++ [name])) w))).
Proof.
  intros Hr Hd Hf. rewrite (download_file_200 http url _ w data Hr).
  rewrite write_file_ok; [reflexivity | exact Hf | now rewrite parent_snoc].
Qed.

(** The four steps of a fetch, for an archive of regular files of simple
    names that is extracted into a directory [target] that is not there:
    each of them returns, and their outcome is [fetched]. *)
Lemma fetch_steps (url : string) (dir : path) (archive target : string)
    (files : list (string * string)) (w : world) :
  http (requests w) url = Response 200 (Archive (tar_files files)) ->
  fs_closed (fs w) ->
  node_at (fs w) dir = Some Dir ->
  node_at (fs w) (dir ++ [archive]) <> Some Dir ->
  node_at (fs w) (dir ++ [target]) = None ->
  archive <> target ->
  files <> [] ->
  Forall (fun nd => simple_name nd.1 = true) files ->
  exists wA wB,
    _download_file http url (dir ++ [archive]) w = Ret tt wA
    /\ _extract_tar_gz (dir ++ [archive]) (dir ++ [target]) wA = Ret tt wB
    /\ unlink (dir ++ [archive]) (add_out (MsgDeleting (dir ++ [archive])) wB)
       = Ret tt (fetched url (dir ++ [archive]) (dir ++ [target]) files w).
Proof.
  intros Hr Hc Hd Ha Ht Hat Hne Hfiles.
  assert (Hat' : dir ++ [archive] <> dir ++ [target]).
  { intros E. apply app_inj_tail in E as [_ E]. contradiction. }
  assert (Hane : dir ++ [archive] <> []) by now destruct dir.
  eexists. eexists. split; [exact (download_file_archive _ _ _ _ _ Hr Hd Ha)|]. split.
  - unfold _extract_tar_gz. rewrite bind_print.
    unfold bind at 1, tar_open. cbn [add_out set_fs fs].
    rewrite node_at_insert_eq by exact Hane.
    apply extract_members_files_new; cbn [add_out set_fs fs add_request]; try assumption.
    + now apply fs_closed_insert.
    + rewrite node_at_insert_ne; [exact Hd | apply snoc_ne].
    + now rewrite node_at_insert_ne.
  - unfold unlink. cbn [add_out set_fs fs add_request].
    rewrite with_files_node_other.
    2: { intros n E. apply (f_equal length) in E. rewrite !length_app in E. cbn in E. lia. }
    rewrite node_at_insert_ne by (now apply not_eq_sym).
    rewrite node_at_insert_eq by exact Hane.
    unfold fetched, set_fs, add_out, add_request. cbn [self stdout requests fs].
    now rewrite <- !app_assoc.
Qed.

(** What is where after a fetch. *)
Lemma fetched_node_other (url : string) (dir : path) (archive target : string)
    (files : list (string * string)) (w : world) (q : path) :
  q <> dir ++ [archive] ->
  q <> dir ++ [target] ->
  (forall name, q <> (dir ++ [target]) ++ [name]) ->
  node_at (fs (fetched url (dir ++ [archive]) (dir ++ [target]) files w)) q = node_at (fs w) q.
Proof.
  intros Ha Ht Hn. unfold fetched. cbn [fs].
  rewrite node_at_delete_ne by congruence.
  rewrite with_files_node_other by exact Hn.
  now rewrite !node_at_insert_ne by congruence.
Qed.

Lemma fetched_closed (url : string) (dir : path) (archive target : string)
    (files : list (string * string)) (w : world) :
  fs_closed (fs w) ->
  node_at (fs w) dir = Some Dir ->
  node_at (fs w) (dir ++ [archive]) <> Some Dir ->
  node_at (fs w) (dir ++ [target]) = None ->
  archive <> target ->
  fs_closed (fs (fetched url (dir ++ [archive]) (dir ++ [target]) files w)).
Proof.
  intros Hc Hd Ha Ht Hat.
  assert (Hat' : dir ++ [archive] <> dir ++ [target]).
  { intros E. apply app_inj_tail in E as [_ E]. contradiction. }
  assert (Hane : dir ++ [archive] <> []) by now destruct dir.
  assert (Htne : dir ++ [target] <> []) by now destruct dir.
  unfold fetched. cbn [fs].
  set (f1 := <[dir ++ [archive] := File (Archive (tar_files files))]> (fs w)).
  set (f2 := <[dir ++ [target] := Dir]> f1).
  assert (C1 : fs_closed f1) by now apply fs_closed_insert.
  assert (C2 : fs_closed f2).
  { apply fs_closed_insert; [exact C1 | |].
    - unfold f1. rewrite node_at_insert_ne; [exact Hd | apply snoc_ne].
    - unfold f1. rewrite node_at_insert_ne by exact Hat'. now rewrite Ht. }
  assert (C3 : forall fl f, fs_closed f -> node_at f (dir ++ [target]) = Some Dir ->
                 (forall n, node_at f ((dir ++ [target]) ++ [n]) <> Some Dir) ->
                 fs_closed (with_files (dir ++ [target]) fl f)).
  { clear. intros fl. unfold with_files. induction fl as [|[n d] fl IH]; intros f Hc Hd Hn.
    - exact Hc.
    - cbn [fold_left fst snd]. apply IH.
      + now apply fs_closed_insert.
      + rewrite node_at_insert_ne; [exact Hd | apply snoc_ne].
      + intros n'. destruct (decide ((dir ++ [target]) ++ [n] = (dir ++ [target]) ++ [n'])) as [E|E].
        * rewrite E, node_at_insert_eq by (now destruct (dir ++ [target])). discriminate.
        * now rewrite node_at_insert_ne. }
  apply (fs_closed_delete _ _ (Archive (tar_files files))).
  - apply C3; [exact C2 | unfold f2; now apply node_at_insert_eq |].
    intros n. unfold f2, f1.
    rewrite node_at_insert_ne by (apply not_eq_sym, snoc_ne).
    rewrite node_at_insert_ne.
    + rewrite (fs_closed_absent (fs w) (dir ++ [target]) n Hc); [discriminate | now rewrite Ht].
    + intros E. apply (f_equal length) in E. rewrite !length_app in E. cbn in E. lia.
  - rewrite with_files_node_other.
    + unfold f2, f1. rewrite node_at_insert_ne by (now apply not_eq_sym).
      now apply node_at_insert_eq.
    + intros n E. apply (f_equal length) in E. rewrite !length_app in E. cbn in E. lia.
Qed.

End Fetch.

(** *** A fetch of well-formed archives *)

Lemma is_there_Some (w : world) (p : path) (n : node) :
  node_at (fs w) p = Some n -> is_there w p = true.
Proof. unfold is_there. now intros ->. Qed.

Lemma is_there_None (w : world) (p : path) :
  node_at (fs w) p = None -> is_there w p = false.
Proof. unfold is_there. now intros ->. Qed.

Lemma with_files_node_notin (target : path) (files : list (string * string))
    (f : gmap (list string) node) (name : string) :
  name ∉ map fst files ->
  node_at (with_files target files f) (target ++ [name]) = node_at f (target ++ [name]).
Proof.
  unfold with_files. revert f. induction files as [|[n d] files IH]; intros f Hn.
  - reflexivity.
  - cbn [fold_left fst snd map] in *. apply not_elem_of_cons in Hn as [Hn Hr].
    rewrite IH by exact Hr. apply node_at_insert_ne.
    intros E. apply app_inj_tail in E as [_ E]. congruence.
Qed.

Lemma with_files_node_file (target : path) (files : list (string * string))
    (f : gmap (list string) node) (name data : string) :
  NoDup (map fst files) ->
  (name, data) ∈ files ->
  node_at (with_files target files f) (target ++ [name]) = Some (File (Text data)).
Proof.
  revert f. induction files as [|[n d] files IH]; intros f Hd Hin.
  - now apply elem_of_nil in Hin.
  - cbn [map fst] in Hd. apply NoDup_cons in Hd as [Hn Hd].
    apply elem_of_cons in Hin as [E|Hin].
    + injection E as -> ->.
      change (with_files target ((n, d) :: files) f)
        with (with_files target files (<[target ++ [n] := File (Text d)]> f)).
      rewrite with_files_node_notin by exact Hn.
      apply node_at_insert_eq. now destruct target.
    + change (with_files target ((n, d) :: files) f)
        with (with_files target files (<[target ++ [n] := File (Text d)]> f)).
      now apply IH.
Qed.

Lemma fetched_node_file (url : string) (dir : path) (archive target : string)
    (files : list (string * string)) (w : world) (name data : string) :
  NoDup (map fst files) ->
  (name, data) ∈ files ->
  node_at (fs (fetched url (dir ++ [archive]) (dir ++ [target]) files w))
    ((dir ++ [target]) ++ [name])
  = Some (File (Text data)).
Proof.
  intros Hd Hin. unfold fetched. cbn [fs].
  rewrite node_at_delete_ne.
  - now apply with_files_node_file.
  - intros E. apply (f_equal length) in E. rewrite !length_app in E. cbn in E. lia.
Qed.

Lemma fetched_node_notin (url : string) (dir : path) (archive target : string)
    (files : list (string * string)) (w : world) (name : string) :
  fs_closed (fs w) ->
  node_at (fs w) (dir ++ [target]) = None ->
  name ∉ map fst files ->
  node_at (fs (fetched url (dir ++ [archive]) (dir ++ [target]) files w))
    ((dir ++ [target]) ++ [name])
  = None.
Proof.
  intros Hc Ht Hn. unfold fetched. cbn [fs].
  rewrite node_at_delete_ne.
  2: { intros E. apply (f_equal length) in E. rewrite !length_app in E. cbn in E. lia. }
  rewrite with_files_node_notin by exact Hn.
  rewrite node_at_insert_ne by (apply not_eq_sym, snoc_ne).
  rewrite node_at_insert_ne.
  2: { intros E. apply (f_equal length) in E. rewrite !length_app in E. cbn in E. lia. }
  apply fs_closed_absent; [exact Hc | now rewrite Ht].
Qed.

Lemma fetched_node_target (url : string) (dir : path) (archive target : string)
    (files : list (string * string)) (w : world) :
  archive <> target ->
  node_at (fs (fetched url (dir ++ [archive]) (dir ++ [target]) files w)) (dir ++ [target])
  = Some Dir.
Proof.
  intros Hat. unfold fetched. cbn [fs].
  rewrite node_at_delete_ne.
  2: { intros E. apply app_inj_tail in E as [_ E]. congruence. }
  rewrite with_files_node_other.
  2: { intros n. apply not_eq_sym, snoc_ne. }
  apply node_at_insert_eq. now destruct dir.
Qed.

Lemma fetched_node_archive (url : string) (dir : path) (archive target : string)
    (files : list (string * string)) (w : world) :
  node_at (fs (fetched url (dir ++ [archive]) (dir ++ [target]) files w)) (dir ++ [archive])
  = None.
Proof.
  unfold fetched. cbn [fs]. apply node_at_delete_eq. now destruct dir.
Qed.

Section Staging.

Variable getuser : string.
Variable http : list string -> string -> reply.
Variable ip_address : string -> bool.

Lemma pull_protocol_version_returns (pv platform : string) (cfg bin : list (string * string))
    (w : world) :
  fetchable getuser http pv platform cfg bin w ->
  _pull_protocol_version getuser http pv platform w = Ret tt (pulled pv platform cfg bin w).
Proof.
  intros [Hu Hc Hbr Hcr Hpv Hbf Hn1 Hn2 Hnc Hnb Hca Hba Hr1 Hr2 Hf1 Hf2 Hs1 Hs2].
  unfold _pull_protocol_version, _verify_casper_user, _network_url.
  rewrite bind_guard, Hu. change (negb ("casper" =? "casper")%string) with false. cbv iota.
  rewrite bind_path_exists, bind_guard, (is_there_Some _ _ _ Hbr). cbn [negb].
  rewrite bind_path_exists, bind_guard, (is_there_Some _ _ _ Hcr). cbn [negb].
  rewrite bind_get_self, bind_print, bind_assoc, bind_get_self, bind_ret_l.
  rewrite (simple_name_joinpath CONFIG_PATH pv Hpv), (simple_name_joinpath BIN_PATH pv Hpv).
  rewrite bind_path_exists, bind_guard, is_there_add_out, (is_there_None _ _ Hnc).
  rewrite bind_path_exists, bind_guard, is_there_add_out, (is_there_None _ _ Hnb).
  cbn [add_out self].
  let t := eval cbv beta zeta delta [bin_file_for] in (bin_file_for platform (self w)) in
  change t with (bin_file_for platform (self w)).
  let t := eval cbv beta zeta delta [archive_url] in (archive_url (self w) pv "config.tar.gz") in
  change t with (archive_url (self w) pv "config.tar.gz").
  let t := eval cbv beta zeta delta [archive_url] in
             (archive_url (self w) pv (bin_file_for platform (self w))) in
  change t with (archive_url (self w) pv (bin_file_for platform (self w))).
  rewrite (simple_name_joinpath BIN_PATH _ Hbf).
  change (CONFIG_PATH / "config.tar.gz")%path with (CONFIG_PATH ++ ["config.tar.gz"]).
  set (bin_file := bin_file_for platform (self w)) in *.
  set (config_url := archive_url (self w) pv "config.tar.gz") in *.
  set (bin_url := archive_url (self w) pv bin_file) in *.
  set (w0 := add_out (MsgBinModeFile bin_file) w).
  destruct (fetch_steps http config_url CONFIG_PATH "config.tar.gz" pv cfg w0)
    as (wA & wB & D & E & U); try assumption; [congruence|].
  rewrite (bind_ret _ _ _ _ _ D), (bind_ret _ _ _ _ _ E), bind_print, (bind_ret _ _ _ _ _ U).
  set (w1 := fetched config_url (CONFIG_PATH ++ ["config.tar.gz"]) (CONFIG_PATH ++ [pv]) cfg w0).
  assert (O : forall q, hd_error q = Some "var" -> node_at (fs w1) q = node_at (fs w) q).
  { intros q Hq. unfold w1. rewrite fetched_node_other;
      [reflexivity | intros -> | intros -> | intros name ->]; discriminate Hq. }
  assert (C1 : fs_closed (fs w1)).
  { apply fetched_closed; try assumption. congruence. }
  assert (B1 : node_at (fs w1) BIN_PATH = Some Dir) by now rewrite O.
  assert (B2 : node_at (fs w1) (BIN_PATH ++ [bin_file]) <> Some Dir) by now rewrite O.
  assert (B3 : node_at (fs w1) (BIN_PATH ++ [pv]) = None) by now rewrite O.
  destruct (fetch_steps http bin_url BIN_PATH bin_file pv bin w1 Hr2 C1 B1 B2 B3
              (not_eq_sym Hn2) Hf2 Hs2)
    as (wA' & wB' & D' & E' & U').
  rewrite (bind_ret _ _ _ _ _ D'), (bind_ret _ _ _ _ _ E'), bind_print. exact U'.
Qed.

End Staging.

(** The two trees do not meet: a fetch into one leaves the other as it
    was. *)
Lemma fetched_bin_etc (url archive target : string) (files : list (string * string))
    (w : world) (q : path) :
  hd_error q = Some "etc" ->
  node_at (fs (fetched url (BIN_PATH ++ [archive]) (BIN_PATH ++ [target]) files w)) q
  = node_at (fs w) q.
Proof.
  intros Hq. rewrite fetched_node_other;
    [reflexivity | intros -> | intros -> | intros name ->]; discriminate Hq.
Qed.

Lemma fetched_config_var (url archive target : string) (files : list (string * string))
    (w : world) (q : path) :
  hd_error q = Some "var" ->
  node_at (fs (fetched url (CONFIG_PATH ++ [archive]) (CONFIG_PATH ++ [target]) files w)) q
  = node_at (fs w) q.
Proof.
  intros Hq. rewrite fetched_node_other;
    [reflexivity | intros -> | intros -> | intros name ->]; discriminate Hq.
Qed.

Section Staged.

Variable getuser : string.
Variable http : list string -> string -> reply.
Variable ip_address : string -> bool.

(** [_config_from_example] with a given address, on a version directory
    without [config.toml]. *)
Lemma config_from_example_writes (pv ip ex : string) (w : world) :
  getuser = "casper" ->
  node_at (fs w) (CONFIG_PATH / pv)%path = Some Dir ->
  node_at (fs w) (CONFIG_PATH / pv / "config-example.toml")%path = Some (File (Text ex)) ->
  node_at (fs w) (CONFIG_PATH / pv / "config.toml")%path = None ->
  ip_address ip = true ->
  _config_from_example getuser http ip_address pv (Some ip) w
  = Ret tt (set_fs (<[(CONFIG_PATH / pv / "config.toml")%path
                      := File (Text (PyStr.replace (PyStr.universal_newlines ex)
                                       IP_PLACEHOLDER ip))]> (fs w))
              (add_out (MsgProvidedIp ip) w)).
Proof.
  intros Hu Hdir Hex Htoml Hip.
  set (dir := (CONFIG_PATH / pv)%path) in *.
  unfold _config_from_example, _verify_casper_user. fold dir.
  rewrite bind_guard, Hu. change (negb ("casper" =? "casper")%string) with false. cbv iota.
  rewrite bind_path_exists, bind_guard, (is_there_Some _ _ _ Hex). cbn [negb].
  rewrite bind_assoc, bind_print, bind_ret_l, bind_guard. cbn [_is_valid_ip].
  rewrite Hip. cbn [negb].
  rewrite bind_path_exists. unfold is_there. cbn [add_out fs]. rewrite Htoml.
  rewrite bind_ret_l.
  unfold bind at 1, read_text. cbn [add_out fs]. rewrite Hex.
  rewrite write_file_ok; [reflexivity | |].
  - cbn [add_out fs]. now rewrite Htoml.
  - cbn [add_out fs]. unfold dir.
    rewrite (simple_name_joinpath _ "config.toml" eq_refl), parent_snoc. exact Hdir.
Qed.

End Staged.

Section Pulled.

Variable getuser : string.
Variable http : list string -> string -> reply.
Variable ip_address : string -> bool.

Lemma fetchable_add_out (m : message) (pv platform : string) (cfg bin : list (string * string))
    (w : world) :
  fetchable getuser http pv platform cfg bin w ->
  fetchable getuser http pv platform cfg bin (add_out m w).
Proof. intros []. now constructor. Qed.



End Pulled.

(** The host with the package installed and the server of
    [net_one_version] meet the conditions of a fetch of 1_0_0. *)
Lemma fetchable_one_version :
  fetchable "casper" net_one_version "1_0_0" "deb" config_files bin_files
    (process casper_loaded []).
Proof.
  constructor; try reflexivity; try discriminate.
  - apply (bool_decide_unpack _). vm_compute. exact I.
  - repeat constructor.
  - repeat constructor.
Qed.

Lemma config_files_names : NoDup (map fst config_files).
Proof. apply (bool_decide_unpack _). vm_compute. exact I. Qed.

Lemma bin_files_names : NoDup (map fst bin_files).
Proof. apply (bool_decide_unpack _). vm_compute. exact I. Qed.


Lemma one_version_chainspec : ("chainspec.toml", chainspec_casper) ∈ config_files.
Proof. apply (bool_decide_unpack _). vm_compute. exact I. Qed.

Lemma one_version_example :
  ("config-example.toml", "public_address = '<IP ADDRESS>:35000'") ∈ config_files.
Proof. apply (bool_decide_unpack _). vm_compute. exact I. Qed.

Lemma one_version_no_toml : "config.toml" ∉ map fst config_files.
Proof. apply (bool_decide_unpack _). vm_compute. exact I. Qed.

Lemma one_version_binary : ("casper-node", "ELF") ∈ bin_files.
Proof. apply (bool_decide_unpack _). vm_compute. exact I. Qed.

